(** * easy-rsync: a shallow embedding of [easy-rsync.py]

    The script drives the external [rsync] tool, parses its itemized
    output and writes two plain-text reports.  Everything the script does
    to the outside world goes through four services of the operating
    system (is a path a directory, run a process, write a text file,
    append to a text file); they are kept abstract in the record [OS],
    and every run of the program yields, next to its result and the final
    world, the trace of the operations it performed.

    Conventions of the embedding:
    - a Python [str] is a [string]; its characters are the code points
      below 256;
    - a [pathlib.Path] is represented by its [str()] form;
    - an exception is a value of [Exception], a computation that may raise
      returns a [Result];
    - the module-level logger [_LOG] is represented by the list of the
      files of its file handlers, passed to the functions that log; a
      log call is recorded in the trace as an [ELog] record followed by
      one [EAppend] for each file handler (the root handler then prints
      the record on standard error, which is not a file of the model). *)

From stdpp Require Import gmap strings list pretty.
From Stdlib Require Import ZArith Lia Ascii.

Open Scope string_scope.
Open Scope list_scope.

(** ** Python string operations used by the script *)

(** [s[n:]] for [0 <= n]. *)
Fixpoint py_slice_from (n : nat) (s : string) : string :=
  match n, s with
  | O, _ => s
  | S _, "" => ""
  | S n', String _ s' => py_slice_from n' s'
  end.

(** [sep.join(items)]. *)
Fixpoint py_join (sep : string) (items : list string) : string :=
  match items with
  | [] => ""
  | [x] => x
  | x :: rest => x +:+ sep +:+ py_join sep rest
  end.

(** The line feed, ['\n']. *)
Definition LF : string := String (ascii_of_nat 10) "".

(** The line boundaries of [str.splitlines] among the code points below
    256: LF, VT, FF, CR, FS, GS, RS and NEL. *)
Definition is_linebreak (c : ascii) : bool :=
  match nat_of_ascii c with
  | 10 | 11 | 12 | 13 | 28 | 29 | 30 | 133 => true
  | _ => false
  end.

Definition is_cr (c : ascii) : bool := Nat.eqb (nat_of_ascii c) 13.
Definition is_lf (c : ascii) : bool := Nat.eqb (nat_of_ascii c) 10.

(** [splitlines_from cur s]: the lines of [cur + s], where [cur] is the
    part of the current line already read.  A CR LF pair is one boundary;
    a last line is produced only when it is not empty. *)
Fixpoint splitlines_from (cur s : string) : list string :=
  match s with
  | "" => match cur with "" => [] | _ => [cur] end
  | String c s' =>
      if is_linebreak c then
        match s' with
        | String c' s'' =>
            if is_cr c && is_lf c'
            then cur :: splitlines_from "" s''
            else cur :: splitlines_from "" s'
        | "" => [cur]
        end
      else splitlines_from (cur +:+ String c "") s'
  end.

(** [s.splitlines()]. *)
Definition py_splitlines (s : string) : list string := splitlines_from "" s.

(** Truth value of a [str] and of a list: not empty. *)
Definition str_truthy (s : string) : bool :=
  match s with "" => false | _ => true end.

Definition list_truthy {A} (l : list A) : bool :=
  match l with [] => false | _ => true end.

(** ** Exceptions and results *)

Definition Path := string.

Inductive Exception :=
| ValueError (msg : string)
| TypeError
| CalledProcessError (returncode : Z) (cmd : list string)
| OSError (filename : Path).

Inductive Result (A : Type) :=
| Ok (a : A)
| Raise (e : Exception).
Arguments Ok {A} a.
Arguments Raise {A} e.

Definition rbind {A B} (r : Result A) (f : A -> Result B) : Result B :=
  match r with
  | Ok a => f a
  | Raise e => Raise e
  end.

Global Instance Exception_eq_dec : EqDecision Exception.
Proof. solve_decision. Defined.

Global Instance Result_eq_dec {A} `{EqDecision A} : EqDecision (Result A).
Proof. solve_decision. Defined.

(** [s.index(sub)]: the position of the first occurrence, or
    [ValueError]. *)
Definition py_index (s sub : string) : Result nat :=
  match String.index 0 sub s with
  | Some i => Ok i
  | None => Raise (ValueError "substring not found")
  end.

(** Arguments of a [%]-format: the script formats paths and counts. *)
Inductive FmtArg :=
| AStr (s : string)
| AInt (n : nat).

Definition fmt_arg (c : ascii) (a : FmtArg) : option string :=
  match a with
  | AStr s => if Ascii.eqb c "s" then Some s else None
  | AInt n =>
      if Ascii.eqb c "s" || Ascii.eqb c "d" then Some (pretty n) else None
  end.

(** [fmt % args] for the conversions [%s] and [%d]; [None] stands for
    the [TypeError] of a format that does not fit its arguments. *)
Fixpoint percent_format (fmt : string) (args : list FmtArg) : option string :=
  match fmt with
  | "" => match args with [] => Some "" | _ => None end
  | String c rest =>
      if Ascii.eqb c "%" then
        match rest, args with
        | String k rest', a :: args' =>
            match fmt_arg k a, percent_format rest' args' with
            | Some x, Some y => Some (x +:+ y)
            | _, _ => None
            end
        | _, _ => None
        end
      else
        match percent_format rest args with
        | Some y => Some (String c y)
        | None => None
        end
  end.

(** ** The world, the trace and the monad *)

Inductive Level := DEBUG | WARNING | CRITICAL.

(** What a run does, in order.  [EAddHandler f]: the file [f] is opened
    for appending by a new file handler; [EAppend f text]: the handler
    of [f] is given [text] to append; [EWrite f content]: [f] is opened
    with mode ['w'] and [content] written to it; the two [Failed] events
    are openings the system refuses. *)
Inductive Event :=
| EBasicConfig
| EAddHandler (logfile : Path)
| EAddHandlerFailed (logfile : Path)
| ELog (level : Level) (msg : string) (args : list FmtArg)
| EAppend (logfile : Path) (text : string)
| ERun (cmd : list string) (returncode : Z) (stdout : string)
| EWrite (file : Path) (content : string)
| EWriteFailed (file : Path).

(** The services of the operating system.  [subprocess_run] gives the
    exit status and the captured standard output, as text, of a finished
    process (the tool is taken to be installed); [write_text] is
    [open(file, 'w')] followed by one [write] and the close;
    [append_text] is a write at the end of a file opened for appending,
    which creates the file when there is none.  [None] is the refusal of
    the system ([OSError]).  [abspath] is [os.path.abspath]: the
    absolute form of a path in the current directory of the world. *)
Record OS (World : Type) := {
  is_dir : Path -> World -> bool;
  subprocess_run : list string -> World -> Z * string * World;
  write_text : Path -> string -> World -> option World;
  append_text : Path -> string -> World -> option World;
  abspath : Path -> World -> Path;
}.
Arguments is_dir {World} _ _ _.
Arguments subprocess_run {World} _ _ _.
Arguments write_text {World} _ _ _.
Arguments append_text {World} _ _ _.
Arguments abspath {World} _ _ _.

Definition Outcome (World A : Type) : Type := Result A * World * list Event.

(** A computation: from a world to a result or an exception, the world
    it leaves and the trace of what it did. *)
Definition M (World A : Type) : Type := World -> Outcome World A.

Definition result {World A} (o : Outcome World A) : Result A := o.1.1.
Definition world {World A} (o : Outcome World A) : World := o.1.2.
Definition trace {World A} (o : Outcome World A) : list Event := o.2.

Definition ret {World A} (a : A) : M World A := fun w => (Ok a, w, []).

Definition raise {World A} (e : Exception) : M World A :=
  fun w => (Raise e, w, []).

Definition bind {World A B} (m : M World A) (f : A -> M World B) : M World B :=
  fun w =>
    match m w with
    | (Ok a, w1, t1) =>
        match f a w1 with
        | (r, w2, t2) => (r, w2, t1 ++ t2)
        end
    | (Raise e, w1, t1) => (Raise e, w1, t1)
    end.

Notation "x <- m ;; k" := (bind m (fun x => k))
  (at level 100, m at next level, right associativity).
Notation "m ;;; k" := (bind m (fun _ => k))
  (at level 100, right associativity).

Definition emit {World} (e : Event) : M World unit :=
  fun w => (Ok tt, w, [e]).

Definition lift {World A} (r : Result A) : M World A :=
  fun w => (r, w, []).

(** A [for] loop over a list, for its effects. *)
Fixpoint for_each {World A} (l : list A) (body : A -> M World unit) : M World unit :=
  match l with
  | [] => ret tt
  | x :: rest => body x ;;; for_each rest body
  end.

(** The last character of [d] is the path separator. *)
Definition ends_with_sep (d : string) : bool :=
  match String.length d with
  | O => false
  | S n => String.eqb (py_slice_from n d) "/"
  end.

(** [d / name] on the [str()] forms, for a one-component relative [name]:
    the current directory gives [name], a root keeps its separator. *)
Definition path_div (d : Path) (name : string) : Path :=
  if String.eqb d "." then name
  else if ends_with_sep d then d +:+ name
  else d +:+ "/" +:+ name.

(** ** The script *)

Definition _RSYNC_FLAGS : list string :=
  ["-rptgo"; "-i"; "--out-format=(%i) %n"].

(** [s[s.index(') ') + 2:]] *)
Definition _strip_action_prefix (s : string) : Result string :=
  rbind (py_index s ") ") (fun i => Ok (py_slice_from (i + 2) s)).

(** [{_strip_action_prefix(m): True for m in modified}], filled from
    left to right into [acc]. *)
Fixpoint modmap_from (acc : gmap string bool) (modified : list string)
  : Result (gmap string bool) :=
  match modified with
  | [] => Ok acc
  | m :: rest =>
      rbind (_strip_action_prefix m) (fun k => modmap_from (<[k := true]> acc) rest)
  end.

(** [[c for c in conflicts if _strip_action_prefix(c) not in modmap]]. *)
Fixpoint conflicting_from (modmap : gmap string bool) (conflicts : list string)
  : Result (list string) :=
  match conflicts with
  | [] => Ok []
  | c :: rest =>
      rbind (_strip_action_prefix c) (fun k =>
      rbind (conflicting_from modmap rest) (fun items =>
      Ok (match modmap !! k with
          | None => c :: items
          | Some _ => items
          end)))
  end.

(** Exit status of the interpreter for [sys.exit(main(...))], once
    [_parse_args()] has given the arguments and [main] is called: the
    value returned, or 1 after an exception nobody caught.  ([_parse_args]
    itself ends the process with status 2 on a command line it rejects
    and with 0 after [--help]; [main] is not called then.) *)
Definition exit_status (r : Result Z) : Z :=
  match r with
  | Ok n => Z.land n 255
  | Raise _ => 1
  end.

(** The logger [_LOG]: the files of its file handlers, in the order they
    were added.  It starts without any. *)
Definition Logger := list Path.

(** The text of a log record, [LogRecord.getMessage]: the message when
    there are no arguments, [msg % args] otherwise; [None] when the
    format does not fit (logging then reports on standard error and
    writes nothing). *)
Definition record_text (msg : string) (args : list FmtArg) : option string :=
  match args with
  | [] => Some msg
  | _ => percent_format msg args
  end.

Section Script.
Context {World : Type} (os : OS World).

(** A file handler writes the text of a record and a line feed to its
    file; an error of the write is not raised. *)
Definition handler_emit (f : Path) (text : string) : M World unit :=
  fun w => (Ok tt, default w (append_text os f text w), [EAppend f text]).

(** [_LOG.debug], [_LOG.warning], [_LOG.critical]: the level of [_LOG]
    is that of the root logger, [DEBUG], so every record goes to the
    file handlers of [_LOG] and to the root handler. *)
Definition log (lg : Logger) (level : Level) (msg : string)
    (args : list FmtArg) : M World unit :=
  emit (ELog level msg args) ;;;
  match record_text msg args with
  | Some text => for_each lg (fun f => handler_emit f (text +:+ LF))
  | None => ret tt
  end.

(** [_LOG.addHandler(logging.FileHandler(filename=f))]: the file is
    opened for appending at once.  The handler opens the file under its
    absolute name, [os.path.abspath(f)], which is the name the error of
    a refused opening carries. *)
Definition add_file_handler (lg : Logger) (f : Path) : M World Logger :=
  fun w =>
    match append_text os f "" w with
    | Some w' => (Ok (lg ++ [f]), w', [EAddHandler f])
    | None => (Raise (OSError (abspath os f w)), w, [EAddHandlerFailed f])
    end.

(** [subprocess.run(cmd, check=True, text=True, capture_output=True)],
    giving the captured standard output.  The program named by [cmd] is
    taken to be installed and startable: every call ends with an exit
    status.  A tool that cannot be started ([FileNotFoundError] out of
    [subprocess.run], before any process exists) is outside this
    definition: what is proved of the processes of a run is proved of
    the processes that did start. *)
Definition run_checked (cmd : list string) : M World string :=
  fun w =>
    match subprocess_run os cmd w with
    | (rc, out, w') =>
        (if Z.eqb rc 0 then Ok out else Raise (CalledProcessError rc cmd),
         w', [ERun cmd rc out])
    end.

(** [with open(file, 'w') as f: f.write(content)] *)
Definition write_file (file : Path) (content : string) : M World unit :=
  fun w =>
    match write_text os file content w with
    | Some w' => (Ok tt, w', [EWrite file content])
    | None => (Raise (OSError file), w, [EWriteFailed file])
    end.

Definition query_is_dir (p : Path) : M World bool :=
  fun w => (Ok (is_dir os p w), w, []).

Definition _log_and_abort (lg : Logger) (fmt : string) (args : list FmtArg)
  : M World unit :=
  log lg CRITICAL fmt args ;;;
  match percent_format fmt args with
  | Some msg => raise (ValueError msg)
  | None => raise TypeError
  end.

Definition _sanitize_path (lg : Logger) (p : Path) : M World string :=
  d <- query_is_dir p ;;
  (if negb d
   then _log_and_abort lg "Path `%s` is not a directory" [AStr p]
   else ret tt) ;;;
  ret (p +:+ "/").

Definition _run_rsync (lg : Logger) (args : list string) (src dest : Path)
    (dry_run : bool) : M World string :=
  let cmd := "rsync" :: _RSYNC_FLAGS in
  let cmd := cmd ++ args in
  let cmd := if dry_run then cmd ++ ["--dry-run"] else cmd in
  s <- _sanitize_path lg src ;;
  let cmd := cmd ++ [s] in
  d <- _sanitize_path lg dest ;;
  let cmd := cmd ++ [d] in
  log lg DEBUG "Running rsync: %s" [AStr (py_join " " cmd)] ;;;
  stdout <- run_checked cmd ;;
  (if str_truthy stdout then log lg DEBUG stdout [] else ret tt) ;;;
  ret stdout.

Definition _sync_new_files (lg : Logger) (src dest : Path) (dry_run : bool)
  : M World unit :=
  _run_rsync lg ["--ignore-existing"] src dest dry_run ;;; ret tt.

Definition _update_all_files (lg : Logger) (src dest : Path) (dry_run : bool)
  : M World unit :=
  _run_rsync lg [] src dest dry_run ;;; ret tt.

Definition _check_modified (lg : Logger) (src dest : Path)
    (modified_file : option Path) : M World (list string) :=
  conflicts <- _run_rsync lg [] src dest true ;;
  (if str_truthy conflicts
   then log lg WARNING "Found %d files that have been modified"
          [AInt (length (py_splitlines conflicts))]
   else ret tt) ;;;
  for_each [src; dest] (fun d =>
    let logfile :=
      match modified_file with
      | None => path_div d "easy-rsync_modified.txt"
      | Some f => f
      end in
    write_file logfile conflicts) ;;;
  ret (py_splitlines conflicts).

Definition _verify_integrity (lg : Logger) (src dest : Path)
    (modified : list string) (conflict_file : option Path) : M World unit :=
  stdout <- _run_rsync lg ["-c"] src dest true ;;
  let conflicts := py_splitlines stdout in
  modmap <- lift (modmap_from ∅ modified) ;;
  conflicting_items <- lift (conflicting_from modmap conflicts) ;;
  (if list_truthy conflicting_items
   then log lg WARNING "Found %d files that have bitrot"
          [AInt (length conflicting_items)]
   else ret tt) ;;;
  for_each [src; dest] (fun d =>
    let logfile :=
      match conflict_file with
      | None => path_div d "easy-rsync_conflicts.txt"
      | Some f => f
      end in
    write_file logfile (py_join LF conflicting_items)).

(** [main] starts from the logger without file handlers. *)
Definition main (src dest : Path) (dry_run force : bool)
    (logfile conflict_file modified_file : option Path)
    (verify_integrity : bool) : M World Z :=
  emit EBasicConfig ;;;
  lg <- match logfile with
        | Some f => add_file_handler [] f
        | None => ret []
        end ;;
  (if verify_integrity then
     modified <- _check_modified lg src dest modified_file ;;
     _verify_integrity lg src dest modified conflict_file
   else
     (if force
      then _update_all_files lg src dest dry_run
      else _sync_new_files lg src dest dry_run) ;;;
     _check_modified lg src dest modified_file ;;;
     ret tt) ;;;
  ret 0%Z.

End Script.

(** ** Reading a trace *)

(** The processes run, in order: command, exit status and output. *)
Fixpoint processes_run (t : list Event) : list (list string * Z * string) :=
  match t with
  | [] => []
  | ERun cmd rc out :: t' => (cmd, rc, out) :: processes_run t'
  | _ :: t' => processes_run t'
  end.

(** The commands of the processes run, in order. *)
Fixpoint commands_run (t : list Event) : list (list string) :=
  match t with
  | [] => []
  | ERun cmd _ _ :: t' => cmd :: commands_run t'
  | _ :: t' => commands_run t'
  end.

(** The files written with mode ['w'], with their contents, in order. *)
Fixpoint files_written (t : list Event) : list (Path * string) :=
  match t with
  | [] => []
  | EWrite f c :: t' => (f, c) :: files_written t'
  | _ :: t' => files_written t'
  end.

(** The files opened with mode ['w'], whether the opening succeeds or
    not. *)
Fixpoint files_opened (t : list Event) : list Path :=
  match t with
  | [] => []
  | EWrite f _ :: t' | EWriteFailed f :: t' => f :: files_opened t'
  | _ :: t' => files_opened t'
  end.

(** The files opened for appending or appended to. *)
Fixpoint files_appended (t : list Event) : list Path :=
  match t with
  | [] => []
  | EAddHandler f :: t' | EAddHandlerFailed f :: t' | EAppend f _ :: t' =>
      f :: files_appended t'
  | _ :: t' => files_appended t'
  end.

(** The world after the file operations of a trace alone, in order. *)
Fixpoint replay_files {World} (os : OS World) (t : list Event) (w : World)
  : World :=
  match t with
  | [] => w
  | EWrite f c :: t' => replay_files os t' (default w (write_text os f c w))
  | EAppend f text :: t' =>
      replay_files os t' (default w (append_text os f text w))
  | EAddHandler f :: t' =>
      replay_files os t' (default w (append_text os f "" w))
  | _ :: t' => replay_files os t' w
  end.

Global Instance Level_eq_dec : EqDecision Level.
Proof. solve_decision. Defined.

(** The log records of one level, in order: message and arguments. *)
Fixpoint records_at (level : Level) (t : list Event)
  : list (string * list FmtArg) :=
  match t with
  | [] => []
  | ELog l msg args :: t' =>
      if decide (l = level) then (msg, args) :: records_at level t'
      else records_at level t'
  | _ :: t' => records_at level t'
  end.

(** The reports the system refused to open, in order. *)
Fixpoint writes_refused (t : list Event) : list Path :=
  match t with
  | [] => []
  | EWriteFailed f :: t' => f :: writes_refused t'
  | _ :: t' => writes_refused t'
  end.

(** The log files the system refused to open, in order. *)
Fixpoint handlers_refused (t : list Event) : list Path :=
  match t with
  | [] => []
  | EAddHandlerFailed f :: t' => f :: handlers_refused t'
  | _ :: t' => handlers_refused t'
  end.

(** The text the handler of the log file [f] is given, in order. *)
Fixpoint appended_to (f : Path) (t : list Event) : string :=
  match t with
  | [] => ""
  | EAppend g text :: t' =>
      if String.eqb g f then text +:+ appended_to f t' else appended_to f t'
  | _ :: t' => appended_to f t'
  end.

(** The log of a run as text: the message of each record, as
    [record_text] gives it, followed by a line feed. *)
Fixpoint logged_text (t : list Event) : string :=
  match t with
  | [] => ""
  | ELog _ msg args :: t' =>
      match record_text msg args with
      | Some text => text +:+ LF +:+ logged_text t'
      | None => logged_text t'
      end
  | _ :: t' => logged_text t'
  end.

(** ** A scripted world, to run the program on concrete inputs

    The directories are fixed, the external tool answers with the next
    scripted reply (exit status 0 and no output when none is left), and
    a file can be written or appended to unless its path is read-only. *)
Record Scripted := {
  directories : list Path;
  read_only : list Path;
  replies : list (Z * string);
  files : list (Path * string);
}.

Definition mem_string (x : string) (l : list string) : bool :=
  existsb (String.eqb x) l.

(** A store of files as an association list, one entry per file. *)
Fixpoint get_file (p : Path) (store : list (Path * string)) : option string :=
  match store with
  | [] => None
  | (q, c) :: rest => if String.eqb p q then Some c else get_file p rest
  end.

Fixpoint set_file (p : Path) (content : string) (store : list (Path * string))
  : list (Path * string) :=
  match store with
  | [] => [(p, content)]
  | (q, c) :: rest =>
      if String.eqb p q then (q, content) :: rest
      else (q, c) :: set_file p content rest
  end.

Definition add_to_file (p : Path) (text : string) (store : list (Path * string))
  : list (Path * string) :=
  set_file p (default "" (get_file p store) +:+ text) store.

(** The absolute form of a normalized path when the current directory
    is the root. *)
Definition root_abspath (p : Path) : Path :=
  if String.prefix "/" p then p else "/" +:+ p.

Definition scripted_os : OS Scripted := {|
  is_dir p w := mem_string p (directories w);
  subprocess_run cmd w :=
    match replies w with
    | [] => (0%Z, "", w)
    | (rc, out) :: rest =>
        (rc, out,
         {| directories := directories w; read_only := read_only w;
            replies := rest; files := files w |})
    end;
  write_text p content w :=
    if mem_string p (read_only w) then None
    else Some {| directories := directories w; read_only := read_only w;
                 replies := replies w;
                 files := set_file p content (files w) |};
  append_text p text w :=
    if mem_string p (read_only w) then None
    else Some {| directories := directories w; read_only := read_only w;
                 replies := replies w;
                 files := add_to_file p text (files w) |};
  abspath p w := root_abspath p;
|}.

Definition demo_world (rs : list (Z * string)) : Scripted :=
  {| directories := ["/data/src"; "/mnt/backup"]; read_only := [];
     replies := rs; files := [] |}.

(** Two listings of the tool for the examples: the quick pass reports
    [notes.txt], the checksum pass reports [notes.txt] and [photo.jpg]. *)
Definition quick_listing : string := "(>f.st...... ) notes.txt" +:+ LF.

Definition checksum_listing : string :=
  "(>fc........ ) notes.txt" +:+ LF +:+ "(>fc........ ) photo.jpg" +:+ LF.

(** A world that is only a store of files, with a tool that only lists:
    every path is a directory, the tool prints the listing of the pass
    asked for and touches nothing, every file can be written. *)
Definition listing_os : OS (list (Path * string)) := {|
  is_dir p w := true;
  subprocess_run cmd w :=
    (0%Z, if mem_string "-c" cmd then checksum_listing else quick_listing, w);
  write_text p content w := Some (set_file p content w);
  append_text p text w := Some (add_to_file p text w);
  abspath p w := root_abspath p;
|}.

(** ** Vocabulary of the specification *)

(** [sub] occurs in [s] at position [i]. *)
Definition occurs_at (sub s : string) (i : nat) : Prop :=
  exists a b, s = a +:+ sub +:+ b /\ String.length a = i.

Definition occurs (sub s : string) : Prop := exists i, occurs_at sub s i.

(** The first occurrence of [sub] in [s] is at position [i]. *)
Definition first_occurrence (sub s : string) (i : nat) : Prop :=
  occurs_at sub s i /\ forall j, occurs_at sub s j -> i <= j.

(** The path of an output line, in the words of the specification:
    what is left of the line after its action-code prefix, which ends
    with the first [") "] of the line. *)
Definition stripped_path (line path : string) : Prop :=
  exists before,
    line = before +:+ ") " +:+ path /\
    first_occurrence ") " line (String.length before).

(** The character [c] appears in [s]. *)
Fixpoint has_char (c : ascii) (s : string) : bool :=
  match s with
  | "" => false
  | String x s' => Ascii.eqb x c || has_char c s'
  end.

(** No character of [s] is a line boundary. *)
Fixpoint no_linebreak (s : string) : bool :=
  match s with
  | "" => true
  | String c s' => negb (is_linebreak c) && no_linebreak s'
  end.

(** An output line of the external tool: ["(code) path"], after the
    [--out-format=(%i) %n] of [_RSYNC_FLAGS]. *)
Definition output_line (code path : string) : string :=
  "(" +:+ code +:+ ") " +:+ path.

(** What the tool prints for a list of items (action code and path),
    after the [--out-format=(%i) %n] of [_RSYNC_FLAGS]: one output line
    for each, ended by a line feed. *)
Fixpoint listing_text (items : list (string * string)) : string :=
  match items with
  | [] => ""
  | (code, path) :: rest => output_line code path +:+ LF +:+ listing_text rest
  end.

(** An item as the tool prints it: no line boundary in the code or in
    the path, no closing parenthesis in the code. *)
Definition plain_item (item : string * string) : Prop :=
  no_linebreak item.1 = true /\ has_char ")" item.1 = false /\
  no_linebreak item.2 = true.

(** The command line the Sync Invoker builds. *)
Definition rsync_command (args : list string) (src dest : Path) (dry_run : bool)
  : list string :=
  ("rsync" :: _RSYNC_FLAGS) ++ args
    ++ (if dry_run then ["--dry-run"] else []) ++ [src +:+ "/"; dest +:+ "/"].

(** The two commands of a whole run, by mode: the modification check and
    the checksum pass when integrity verification is requested, the
    propagation and the modification check otherwise. *)
Definition first_command (src dest : Path) (dry_run force verify : bool)
  : list string :=
  if verify then rsync_command [] src dest true
  else rsync_command (if force then [] else ["--ignore-existing"])
         src dest dry_run.

Definition second_command (src dest : Path) (verify : bool) : list string :=
  if verify then rsync_command ["-c"] src dest true
  else rsync_command [] src dest true.

(** The last two arguments of a command are [src] and [dest], each with
    a trailing separator. *)
Definition ends_with_paths (src dest : Path) (cmd : list string) : Prop :=
  exists front s d,
    cmd = front ++ [s; d] /\
    s = src +:+ "/" /\ d = dest +:+ "/" /\
    ends_with_sep s = true /\ ends_with_sep d = true.

(** The message of the abort on a path that is not a directory. *)
Definition not_a_directory (p : Path) : string :=
  "Path `" +:+ p +:+ "` is not a directory".

(** The default place of a report in a directory, and the place of a
    report for directory [d]: the override when there is one, the
    default place in [d] otherwise. *)
Definition modified_log (d : Path) : Path := path_div d "easy-rsync_modified.txt".
Definition conflicts_log (d : Path) : Path := path_div d "easy-rsync_conflicts.txt".

Definition log_path (default : Path -> Path) (override : option Path) (d : Path)
  : Path :=
  match override with
  | None => default d
  | Some f => f
  end.

(** The conflict list of the Integrity Verifier, as a pure function of
    the modified list and of the lines of the checksum pass. *)
Definition conflicting_items (modified conflicts : list string)
  : Result (list string) :=
  rbind (modmap_from ∅ modified) (fun modmap => conflicting_from modmap conflicts).

(** The tool run with [--dry-run] leaves the world as it is. *)
Definition dry_run_harmless {World} (os : OS World) : Prop :=
  forall cmd w, "--dry-run" ∈ cmd -> (subprocess_run os cmd w).2 = w.

(** The event is a process that ended with a status other than 0. *)
Definition run_failed (e : Event) : Prop :=
  match e with
  | ERun _ rc _ => rc <> 0%Z
  | _ => False
  end.

(** The exception a result carries, if any. *)
Definition raised {A} (r : Result A) : option Exception :=
  match r with
  | Ok _ => None
  | Raise e => Some e
  end.

(** In a run that ended with [x] and left the trace [t], a process that
    fails is the last thing that happens, and its failure is how the run
    ended. *)
Definition failure_is_final (x : option Exception) (t : list Event) : Prop :=
  forall pre cmd rc out post,
    t = pre ++ ERun cmd rc out :: post ->
    rc <> 0%Z ->
    post = [] /\ x = Some (CalledProcessError rc cmd).

(** A run ends either without a failed process in its trace, or with
    the failure of its last process. *)
Definition settled {World A} (o : Result A * World * list Event) : Prop :=
  failure_is_final (raised o.1.1) o.2 /\
  (raised o.1.1 = None -> Forall (fun e => ~ run_failed e) o.2).

(** ** The log calls of the steps *)

Record Note := {
  note_level : Level;
  note_msg : string;
  note_args : list FmtArg;
}.

(** What one log call leaves in the trace, and in the world. *)
Definition say_trace (lg : Logger) (n : Note) : list Event :=
  ELog (note_level n) (note_msg n) (note_args n) ::
  match record_text (note_msg n) (note_args n) with
  | Some text => (fun f => EAppend f (text +:+ LF)) <$> lg
  | None => []
  end.

Fixpoint append_all {World} (os : OS World) (lg : Logger) (text : string)
    (w : World) : World :=
  match lg with
  | [] => w
  | f :: rest => append_all os rest text (default w (append_text os f text w))
  end.

Definition say_world {World} (os : OS World) (lg : Logger) (n : Note)
    (w : World) : World :=
  match record_text (note_msg n) (note_args n) with
  | Some text => append_all os lg (text +:+ LF) w
  | None => w
  end.

Fixpoint says_trace (lg : Logger) (ns : list Note) : list Event :=
  match ns with
  | [] => []
  | n :: rest => say_trace lg n ++ says_trace lg rest
  end.

Fixpoint says_world {World} (os : OS World) (lg : Logger) (ns : list Note)
    (w : World) : World :=
  match ns with
  | [] => w
  | n :: rest => says_world os lg rest (say_world os lg n w)
  end.

Definition announce (cmd : list string) : list Note :=
  [{| note_level := DEBUG; note_msg := "Running rsync: %s";
      note_args := [AStr (py_join " " cmd)] |}].

Definition echo (out : string) : list Note :=
  if str_truthy out
  then [{| note_level := DEBUG; note_msg := out; note_args := [] |}]
  else [].

Definition warn_modified (out : string) : list Note :=
  if str_truthy out
  then [{| note_level := WARNING;
           note_msg := "Found %d files that have been modified";
           note_args := [AInt (length (py_splitlines out))] |}]
  else [].

Definition warn_bitrot (items : list string) : list Note :=
  if list_truthy items
  then [{| note_level := WARNING;
           note_msg := "Found %d files that have bitrot";
           note_args := [AInt (length items)] |}]
  else [].

Definition abort_note (p : Path) : list Note :=
  [{| note_level := CRITICAL; note_msg := "Path `%s` is not a directory";
      note_args := [AStr p] |}].

(** The records of a list of log calls at one level. *)
Definition notes_at (level : Level) (ns : list Note)
  : list (string * list FmtArg) :=
  (fun n => (note_msg n, note_args n))
    <$> filter (fun n => note_level n = level) ns.

(** The events of the logging set-up at the start of [main], and the
    logger and the world it leaves when the log file, if any, can be
    opened. *)
Definition setup_trace (logfile : option Path) : list Event :=
  match logfile with
  | Some f => [EBasicConfig; EAddHandler f]
  | None => [EBasicConfig]
  end.

Definition logging_ready {World} (os : OS World) (logfile : option Path)
    (w : World) (lg : Logger) (w0 : World) : Prop :=
  match logfile with
  | Some f => lg = [f] /\ append_text os f "" w = Some w0
  | None => lg = [] /\ w0 = w
  end.

(** The extra flags of the propagation step. *)
Definition propagate_args (force : bool) : list string :=
  if force then [] else ["--ignore-existing"].

(** ** The steps as relations

    What a step can do in a world, case by case: each constructor is one
    way through the function of the same name, with the answers of the
    operating system that select it. *)

Section Relations.
Context {World : Type} (os : OS World).

Inductive rsync_step (lg : Logger) (args : list string) (src dest : Path)
    (dry_run : bool) (w : World) : Outcome World string -> Prop :=
| rsync_src_missing :
    is_dir os src w = false ->
    rsync_step lg args src dest dry_run w
      (Raise (ValueError (not_a_directory src)),
       says_world os lg (abort_note src) w, says_trace lg (abort_note src))
| rsync_dest_missing :
    is_dir os src w = true ->
    is_dir os dest w = false ->
    rsync_step lg args src dest dry_run w
      (Raise (ValueError (not_a_directory dest)),
       says_world os lg (abort_note dest) w, says_trace lg (abort_note dest))
| rsync_failed (rc : Z) (out : string) (w' : World) :
    is_dir os src w = true ->
    is_dir os dest w = true ->
    subprocess_run os (rsync_command args src dest dry_run)
      (says_world os lg (announce (rsync_command args src dest dry_run)) w)
    = (rc, out, w') ->
    rc <> 0%Z ->
    rsync_step lg args src dest dry_run w
      (Raise (CalledProcessError rc (rsync_command args src dest dry_run)), w',
       says_trace lg (announce (rsync_command args src dest dry_run))
         ++ [ERun (rsync_command args src dest dry_run) rc out])
| rsync_done (out : string) (w' : World) :
    is_dir os src w = true ->
    is_dir os dest w = true ->
    subprocess_run os (rsync_command args src dest dry_run)
      (says_world os lg (announce (rsync_command args src dest dry_run)) w)
    = (0%Z, out, w') ->
    rsync_step lg args src dest dry_run w
      (Ok out, says_world os lg (echo out) w',
       says_trace lg (announce (rsync_command args src dest dry_run))
         ++ ERun (rsync_command args src dest dry_run) 0 out
         :: says_trace lg (echo out)).

(** The loop over the two directories, writing [content] to [p1] and
    then to [p2]. *)
Inductive write_step (p1 p2 : Path) (content : string) (w : World)
  : Outcome World unit -> Prop :=
| write_first_refused :
    write_text os p1 content w = None ->
    write_step p1 p2 content w (Raise (OSError p1), w, [EWriteFailed p1])
| write_second_refused (w1 : World) :
    write_text os p1 content w = Some w1 ->
    write_text os p2 content w1 = None ->
    write_step p1 p2 content w
      (Raise (OSError p2), w1, [EWrite p1 content; EWriteFailed p2])
| write_done (w1 w2 : World) :
    write_text os p1 content w = Some w1 ->
    write_text os p2 content w1 = Some w2 ->
    write_step p1 p2 content w
      (Ok tt, w2, [EWrite p1 content; EWrite p2 content]).

Inductive check_step (lg : Logger) (src dest : Path)
    (modified_file : option Path) (w : World)
  : Outcome World (list string) -> Prop :=
| check_aborted e w1 t1 :
    rsync_step lg [] src dest true w (Raise e, w1, t1) ->
    check_step lg src dest modified_file w (Raise e, w1, t1)
| check_unwritten out w1 t1 e w2 t2 :
    rsync_step lg [] src dest true w (Ok out, w1, t1) ->
    write_step (log_path modified_log modified_file src)
      (log_path modified_log modified_file dest) out
      (says_world os lg (warn_modified out) w1) (Raise e, w2, t2) ->
    check_step lg src dest modified_file w
      (Raise e, w2, t1 ++ says_trace lg (warn_modified out) ++ t2)
| check_done out w1 t1 w2 t2 :
    rsync_step lg [] src dest true w (Ok out, w1, t1) ->
    write_step (log_path modified_log modified_file src)
      (log_path modified_log modified_file dest) out
      (says_world os lg (warn_modified out) w1) (Ok tt, w2, t2) ->
    check_step lg src dest modified_file w
      (Ok (py_splitlines out), w2,
       t1 ++ says_trace lg (warn_modified out) ++ t2).

Inductive verify_step (lg : Logger) (src dest : Path) (modified : list string)
    (conflict_file : option Path) (w : World) : Outcome World unit -> Prop :=
| verify_aborted e w1 t1 :
    rsync_step lg ["-c"] src dest true w (Raise e, w1, t1) ->
    verify_step lg src dest modified conflict_file w (Raise e, w1, t1)
| verify_malformed out w1 t1 e :
    rsync_step lg ["-c"] src dest true w (Ok out, w1, t1) ->
    conflicting_items modified (py_splitlines out) = Raise e ->
    verify_step lg src dest modified conflict_file w (Raise e, w1, t1)
| verify_unwritten out w1 t1 items e w2 t2 :
    rsync_step lg ["-c"] src dest true w (Ok out, w1, t1) ->
    conflicting_items modified (py_splitlines out) = Ok items ->
    write_step (log_path conflicts_log conflict_file src)
      (log_path conflicts_log conflict_file dest) (py_join LF items)
      (says_world os lg (warn_bitrot items) w1) (Raise e, w2, t2) ->
    verify_step lg src dest modified conflict_file w
      (Raise e, w2, t1 ++ says_trace lg (warn_bitrot items) ++ t2)
| verify_done out w1 t1 items w2 t2 :
    rsync_step lg ["-c"] src dest true w (Ok out, w1, t1) ->
    conflicting_items modified (py_splitlines out) = Ok items ->
    write_step (log_path conflicts_log conflict_file src)
      (log_path conflicts_log conflict_file dest) (py_join LF items)
      (says_world os lg (warn_bitrot items) w1) (Ok tt, w2, t2) ->
    verify_step lg src dest modified conflict_file w
      (Ok tt, w2, t1 ++ says_trace lg (warn_bitrot items) ++ t2).

Inductive main_step (src dest : Path) (dry_run force : bool)
    (logfile conflict_file modified_file : option Path)
  : bool -> World -> Outcome World Z -> Prop :=
| main_handler_refused verify w f :
    logfile = Some f ->
    append_text os f "" w = None ->
    main_step src dest dry_run force logfile conflict_file modified_file
      verify w (Raise (OSError (abspath os f w)), w,
                [EBasicConfig; EAddHandlerFailed f])
| main_check_raised w lg w0 e w1 t1 :
    logging_ready os logfile w lg w0 ->
    check_step lg src dest modified_file w0 (Raise e, w1, t1) ->
    main_step src dest dry_run force logfile conflict_file modified_file
      true w (Raise e, w1, setup_trace logfile ++ t1)
| main_verify_raised w lg w0 modified w1 t1 e w2 t2 :
    logging_ready os logfile w lg w0 ->
    check_step lg src dest modified_file w0 (Ok modified, w1, t1) ->
    verify_step lg src dest modified conflict_file w1 (Raise e, w2, t2) ->
    main_step src dest dry_run force logfile conflict_file modified_file
      true w (Raise e, w2, setup_trace logfile ++ t1 ++ t2)
| main_verified w lg w0 modified w1 t1 w2 t2 :
    logging_ready os logfile w lg w0 ->
    check_step lg src dest modified_file w0 (Ok modified, w1, t1) ->
    verify_step lg src dest modified conflict_file w1 (Ok tt, w2, t2) ->
    main_step src dest dry_run force logfile conflict_file modified_file
      true w (Ok 0%Z, w2, setup_trace logfile ++ t1 ++ t2)
| main_propagate_raised w lg w0 e w1 t1 :
    logging_ready os logfile w lg w0 ->
    rsync_step lg (propagate_args force) src dest dry_run w0 (Raise e, w1, t1) ->
    main_step src dest dry_run force logfile conflict_file modified_file
      false w (Raise e, w1, setup_trace logfile ++ t1)
| main_recheck_raised w lg w0 out w1 t1 e w2 t2 :
    logging_ready os logfile w lg w0 ->
    rsync_step lg (propagate_args force) src dest dry_run w0 (Ok out, w1, t1) ->
    check_step lg src dest modified_file w1 (Raise e, w2, t2) ->
    main_step src dest dry_run force logfile conflict_file modified_file
      false w (Raise e, w2, setup_trace logfile ++ t1 ++ t2)
| main_propagated w lg w0 out w1 t1 modified w2 t2 :
    logging_ready os logfile w lg w0 ->
    rsync_step lg (propagate_args force) src dest dry_run w0 (Ok out, w1, t1) ->
    check_step lg src dest modified_file w1 (Ok modified, w2, t2) ->
    main_step src dest dry_run force logfile conflict_file modified_file
      false w (Ok 0%Z, w2, setup_trace logfile ++ t1 ++ t2).
End Relations.

(** * Properties *)

(** ** Strings: occurrences, [index] and slices *)

Lemma append_empty_l (s : string) : "" +:+ s = s.
Proof. reflexivity. Qed.

Lemma append_String (c : ascii) (a b : string) :
  String c a +:+ b = String c (a +:+ b).
Proof. reflexivity. Qed.

Lemma prefix_append (sub b : string) : String.prefix sub (sub +:+ b) = true.
Proof.
  induction sub as [|c sub IH].
  - by destruct b.
  - rewrite append_String. simpl. by destruct (Ascii.ascii_dec c c).
Qed.

Lemma prefix_split (sub s : string) :
  String.prefix sub s = true -> exists b, s = sub +:+ b.
Proof.
  revert s. induction sub as [|c sub IH]; intros s H.
  - by exists s.
  - destruct s as [|x s]; simpl in H; [done|].
    destruct (Ascii.ascii_dec c x) as [->|]; [|done].
    destruct (IH _ H) as [b ->]. by exists b.
Qed.

Lemma occurs_at_0 (sub s : string) :
  occurs_at sub s 0 <-> String.prefix sub s = true.
Proof.
  split.
  - intros (a & b & -> & Ha). destruct a; [|done].
    rewrite append_empty_l. apply prefix_append.
  - intros [b ->]%prefix_split. by exists "", b.
Qed.

Lemma occurs_at_S (sub : string) (c : ascii) (s : string) (j : nat) :
  occurs_at sub (String c s) (S j) <-> occurs_at sub s j.
Proof.
  split.
  - intros (a & b & E & Ha). destruct a as [|x a]; [done|].
    rewrite append_String in E. simpl in Ha. injection E as -> ->.
    exists a, b. split; [done|lia].
  - intros (a & b & -> & Ha). exists (String c a), b.
    rewrite append_String. simpl. split; [done|lia].
Qed.

Lemma occurs_at_empty (sub : string) (j : nat) :
  occurs_at sub "" j -> sub = "" /\ j = 0.
Proof.
  intros (a & b & E & Ha). destruct a; [|done]. destruct sub; [|done]. done.
Qed.

Lemma index0_Some (sub s : string) (i : nat) :
  String.index 0 sub s = Some i -> first_occurrence sub s i.
Proof.
  revert i. induction s as [|c s IH]; intros i H.
  - simpl in H. destruct sub; [|done]. injection H as <-.
    split; [by exists "", ""|intros; lia].
  - cbn [String.index] in H.
    destruct (String.prefix sub (String c s)) eqn:P.
    + injection H as <-. split; [by apply occurs_at_0|intros; lia].
    + destruct (String.index 0 sub s) as [k|] eqn:I; [|done].
      injection H as <-. destruct (IH k eq_refl) as [Hk Hmin]. split.
      * by apply occurs_at_S.
      * intros [|j] Hj.
        -- apply occurs_at_0 in Hj. congruence.
        -- apply occurs_at_S, Hmin in Hj. lia.
Qed.

Lemma index0_None (sub s : string) :
  String.index 0 sub s = None -> ~ occurs sub s.
Proof.
  induction s as [|c s IH]; intros H [j Hj].
  - apply occurs_at_empty in Hj as [-> _]. done.
  - cbn [String.index] in H.
    destruct (String.prefix sub (String c s)) eqn:P; [done|].
    destruct (String.index 0 sub s) eqn:I; [done|].
    destruct j as [|j].
    + apply occurs_at_0 in Hj. congruence.
    + apply occurs_at_S in Hj. apply IH; [done|by exists j].
Qed.

Lemma first_occurrence_index0 (sub s : string) (i : nat) :
  first_occurrence sub s i -> String.index 0 sub s = Some i.
Proof.
  intros [Hi Hmin]. destruct (String.index 0 sub s) as [k|] eqn:I.
  - apply index0_Some in I as [Hk Hkmin].
    apply Hmin in Hk. apply Hkmin in Hi. f_equal. lia.
  - apply index0_None in I. destruct I. by exists i.
Qed.

Lemma not_occurs_index0 (sub s : string) :
  ~ occurs sub s -> String.index 0 sub s = None.
Proof.
  intros H. destruct (String.index 0 sub s) as [k|] eqn:I; [|done].
  apply index0_Some in I as [Hk _]. destruct H. by exists k.
Qed.

Lemma py_slice_from_append (a b : string) (n : nat) :
  py_slice_from (String.length a + n) (a +:+ b) = py_slice_from n b.
Proof.
  induction a as [|c a IH]; [done|]. rewrite append_String. apply IH.
Qed.

Lemma py_slice_from_0 (s : string) : py_slice_from 0 s = s.
Proof. by destruct s. Qed.

(** An action code without a closing parenthesis ends at the first
    [") "] of its line. *)
Lemma index0_output_line_tail (code path : string) :
  has_char ")" code = false ->
  String.index 0 ") " (code +:+ ") " +:+ path) = Some (String.length code).
Proof.
  induction code as [|c code IH]; intros H.
  - simpl. destruct path; reflexivity.
  - simpl in H. apply orb_false_iff in H as [Hc Hrest].
    change (String c code +:+ ") " +:+ path)
      with (String c (code +:+ ") " +:+ path)).
    cbn [String.index]. rewrite (IH Hrest).
    assert (String.prefix ") " (String c (code +:+ ") " +:+ path)) = false)
      as ->; [|done].
    cbn [String.prefix]. destruct (Ascii.ascii_dec ")" c) as [<-|]; done.
Qed.

Lemma index0_output_line (code path : string) :
  has_char ")" code = false ->
  String.index 0 ") " (output_line code path) = Some (S (String.length code)).
Proof.
  intros H. unfold output_line.
  change ("(" +:+ code +:+ ") " +:+ path)
    with (String "(" (code +:+ ") " +:+ path)).
  cbn [String.index]. rewrite (index0_output_line_tail _ _ H).
  assert (String.prefix ") " (String "(" (code +:+ ") " +:+ path)) = false)
    as ->; done.
Qed.

(** ** Lines *)

Lemma append_empty_r (s : string) : s +:+ "" = s.
Proof. induction s as [|c s IH]; [done|]. by rewrite append_String, IH. Qed.

Lemma append_assoc (a b c : string) : (a +:+ b) +:+ c = a +:+ b +:+ c.
Proof.
  induction a as [|x a IH]; [done|]. rewrite !append_String. by rewrite IH.
Qed.

Lemma length_append (a b : string) :
  String.length (a +:+ b) = String.length a + String.length b.
Proof.
  induction a as [|x a IH]; [done|]. rewrite append_String. simpl. by rewrite IH.
Qed.

Lemma no_linebreak_append (a b : string) :
  no_linebreak (a +:+ b) = no_linebreak a && no_linebreak b.
Proof.
  induction a as [|c a IH]; [done|]. rewrite append_String. simpl.
  by rewrite IH, andb_assoc.
Qed.

(** The lines [splitlines] gives hold no line boundary. *)
Lemma splitlines_from_no_linebreak (n : nat) (s cur : string) :
  String.length s <= n ->
  no_linebreak cur = true ->
  Forall (fun l => no_linebreak l = true) (splitlines_from cur s).
Proof.
  revert s cur. induction n as [|n IH]; intros s cur Hn Hcur.
  - destruct s; [|simpl in Hn; lia]. simpl. destruct cur; repeat constructor.
    done.
  - destruct s as [|c s]; [simpl; destruct cur; by repeat constructor|].
    simpl in Hn. cbn [splitlines_from].
    destruct (is_linebreak c) eqn:Hc.
    + destruct s as [|c' s]; [by repeat constructor|].
      simpl in Hn.
      destruct (is_cr c && is_lf c'); constructor; try done;
        apply IH; simpl; try done; lia.
    + apply IH; [lia|]. rewrite no_linebreak_append, Hcur. simpl.
      by rewrite Hc.
Qed.

Lemma py_splitlines_no_linebreak (s : string) :
  Forall (fun l => no_linebreak l = true) (py_splitlines s).
Proof. by apply (splitlines_from_no_linebreak (String.length s)). Qed.

(** Text without a line boundary joins the current line. *)
Lemma splitlines_from_text (x cur rest : string) :
  no_linebreak x = true ->
  splitlines_from cur (x +:+ rest) = splitlines_from (cur +:+ x) rest.
Proof.
  revert cur. induction x as [|c x IH]; intros cur Hx.
  - by rewrite append_empty_l, append_empty_r.
  - simpl in Hx. apply andb_true_iff in Hx as [Hc Hx].
    apply negb_true_iff in Hc.
    rewrite append_String. cbn [splitlines_from]. rewrite Hc, IH by done.
    by rewrite append_assoc.
Qed.

(** A line feed ends the current line. *)
Lemma splitlines_from_LF (cur rest : string) :
  splitlines_from cur (LF +:+ rest) = cur :: splitlines_from "" rest.
Proof. by destruct rest. Qed.

(** Lines joined by line feeds split into the same lines again. *)
Lemma splitlines_join (items : list string) :
  Forall (fun x => no_linebreak x = true /\ x <> "") items ->
  py_splitlines (py_join LF items) = items.
Proof.
  unfold py_splitlines. induction 1 as [|x items [Hx Hne] Hitems IH]; [done|].
  destruct items as [|y items].
  - cbn [py_join]. rewrite <- (append_empty_r x) at 1.
    rewrite splitlines_from_text by done. simpl. by destruct x.
  - change (py_join LF (x :: y :: items))
      with (x +:+ LF +:+ py_join LF (y :: items)).
    rewrite splitlines_from_text by done. rewrite splitlines_from_LF.
    by rewrite IH, append_empty_l.
Qed.

(** ** The steps in closed form *)

Section Steps.
Context {World : Type} (os : OS World).

Lemma handlers_emit (lg : Logger) (text : string) (w : World) :
  for_each lg (fun f => handler_emit os f text) w
  = (Ok tt, append_all os lg text w, (fun f => EAppend f text) <$> lg).
Proof.
  revert w. induction lg as [|f lg IH]; intros w; [done|].
  cbn [for_each append_all]. unfold bind at 1, handler_emit at 1.
  by rewrite IH.
Qed.

Lemma log_eq (lg : Logger) (n : Note) (w : World) :
  log os lg (note_level n) (note_msg n) (note_args n) w
  = (Ok tt, says_world os lg [n] w, says_trace lg [n]).
Proof.
  unfold log, bind, emit. cbn [says_world says_trace].
  unfold say_world, say_trace. rewrite app_nil_r.
  destruct (record_text (note_msg n) (note_args n)) as [text|]; [|done].
  by rewrite handlers_emit.
Qed.

Lemma when_log (b : bool) (lg : Logger) (n : Note) (w : World) :
  (if b then log os lg (note_level n) (note_msg n) (note_args n) else ret tt) w
  = (Ok tt, says_world os lg (if b then [n] else []) w,
     says_trace lg (if b then [n] else [])).
Proof. destruct b; [apply log_eq|done]. Qed.

Lemma _sanitize_path_eq (lg : Logger) (p : Path) (w : World) :
  _sanitize_path os lg p w =
    if is_dir os p w then (Ok (p +:+ "/"), w, [])
    else (Raise (ValueError (not_a_directory p)),
          says_world os lg (abort_note p) w, says_trace lg (abort_note p)).
Proof.
  unfold _sanitize_path, bind at 1, query_is_dir.
  destruct (is_dir os p w); [done|]. cbn [negb].
  unfold bind at 1, _log_and_abort, bind at 1.
  rewrite (log_eq lg {| note_level := CRITICAL;
                        note_msg := "Path `%s` is not a directory";
                        note_args := [AStr p] |}).
  unfold abort_note. cbn [percent_format fmt_arg Ascii.eqb Bool.eqb].
  unfold raise. by rewrite !app_nil_r.
Qed.

Lemma _run_rsync_step lg args src dest dry_run w :
  rsync_step os lg args src dest dry_run w
    (_run_rsync os lg args src dest dry_run w).
Proof.
  assert (C : forall s d,
    (if dry_run then ("rsync" :: _RSYNC_FLAGS) ++ args ++ ["--dry-run"]
     else ("rsync" :: _RSYNC_FLAGS) ++ args) ++ [s] ++ [d]
    = ("rsync" :: _RSYNC_FLAGS) ++ args
        ++ (if dry_run then ["--dry-run"] else []) ++ [s; d]).
  { intros s d. destruct dry_run; rewrite <- ?app_assoc; simpl;
      rewrite ?app_nil_r; reflexivity. }
  unfold _run_rsync, bind at 1. rewrite _sanitize_path_eq.
  destruct (is_dir os src w) eqn:Hs; [|by constructor].
  unfold bind at 1. rewrite _sanitize_path_eq.
  destruct (is_dir os dest w) eqn:Hd; [|by constructor].
  cbv zeta. rewrite <- !app_assoc. rewrite (C (src +:+ "/") (dest +:+ "/")).
  fold (rsync_command args src dest dry_run).
  unfold bind at 1.
  rewrite (log_eq lg {| note_level := DEBUG; note_msg := "Running rsync: %s";
                        note_args := [AStr (py_join " "
                                        (rsync_command args src dest dry_run))] |}).
  fold (announce (rsync_command args src dest dry_run)).
  unfold bind at 1, run_checked.
  destruct (subprocess_run os _ _) as [[rc out] w'] eqn:R.
  destruct (Z.eqb_spec rc 0) as [->|Hrc].
  - unfold bind at 1.
    rewrite (when_log (str_truthy out) lg
               {| note_level := DEBUG; note_msg := out; note_args := [] |}).
    fold (echo out). unfold ret. cbn [app]. rewrite app_nil_r.
    by constructor.
  - cbn [app]. by constructor.
Qed.
Lemma write_both_step (logfile : Path -> Path) src dest content w :
  write_step os (logfile src) (logfile dest) content w
    (for_each [src; dest] (fun d => write_file os (logfile d) content) w).
Proof.
  unfold for_each, bind, write_file, ret.
  destruct (write_text os (logfile src) content w) as [w1|] eqn:W1;
    [|by constructor].
  destruct (write_text os (logfile dest) content w1) as [w2|] eqn:W2;
    by econstructor.
Qed.

Lemma _check_modified_step lg src dest modified_file w :
  check_step os lg src dest modified_file w
    (_check_modified os lg src dest modified_file w).
Proof.
  unfold _check_modified. unfold bind at 1.
  pose proof (_run_rsync_step lg [] src dest true w) as Hstep.
  destruct (_run_rsync os lg [] src dest true w) as [[[out|e] w1] t1];
    [|by apply check_aborted].
  unfold bind at 1.
  rewrite (when_log (str_truthy out) lg
             {| note_level := WARNING;
                note_msg := "Found %d files that have been modified";
                note_args := [AInt (length (py_splitlines out))] |}).
  fold (warn_modified out). unfold bind at 1.
  match goal with |- context [for_each ?l ?body ?w0] =>
    assert (Hwrite : write_step os (log_path modified_log modified_file src)
              (log_path modified_log modified_file dest) out w0
              (for_each l body w0))
      by apply (write_both_step (log_path modified_log modified_file))
  end.
  destruct (for_each _ _ _) as [[[[]|e] w2] t2].
  - unfold ret. cbv beta iota. rewrite app_nil_r. by eapply check_done.
  - cbv beta iota. by eapply check_unwritten.
Qed.

Lemma lift_twice {A B C} (r : Result A) (f : A -> Result B)
    (k : B -> M World C) (w : World) :
  (a <- lift r ;; b <- lift (f a) ;; k b) w =
    match rbind r f with
    | Ok b => k b w
    | Raise e => (Raise e, w, [])
    end.
Proof.
  unfold bind, lift, rbind. destruct r as [a|e]; [|done].
  destruct (f a) as [b|e]; [|done].
  by destruct (k b w) as [[r' w'] t'].
Qed.

Lemma _verify_integrity_step lg src dest modified conflict_file w :
  verify_step os lg src dest modified conflict_file w
    (_verify_integrity os lg src dest modified conflict_file w).
Proof.
  unfold _verify_integrity. unfold bind at 1.
  pose proof (_run_rsync_step lg ["-c"] src dest true w) as Hstep.
  destruct (_run_rsync os lg ["-c"] src dest true w) as [[[out|e] w1] t1];
    [|by apply verify_aborted].
  cbv zeta. rewrite lift_twice.
  fold (conflicting_items modified (py_splitlines out)).
  destruct (conflicting_items modified (py_splitlines out))
    as [items|e] eqn:Hitems.
  2:{ rewrite app_nil_r. by eapply verify_malformed. }
  unfold bind at 1.
  rewrite (when_log (list_truthy items) lg
             {| note_level := WARNING;
                note_msg := "Found %d files that have bitrot";
                note_args := [AInt (length items)] |}).
  fold (warn_bitrot items).
  match goal with |- context [for_each ?l ?body ?w0] =>
    assert (Hwrite : write_step os (log_path conflicts_log conflict_file src)
              (log_path conflicts_log conflict_file dest)
              (py_join LF items) w0 (for_each l body w0))
      by apply (write_both_step (log_path conflicts_log conflict_file))
  end.
  destruct (for_each _ _ _) as [[[[]|e] w2] t2].
  - by eapply verify_done.
  - by eapply verify_unwritten.
Qed.

Lemma main_setup (logfile : option Path) (body : Logger -> M World unit)
    (w : World) :
  (emit EBasicConfig ;;;
   lg <- match logfile with
         | Some f => add_file_handler os [] f
         | None => ret []
         end ;;
   body lg ;;; ret 0%Z) w =
  match logfile with
  | None =>
      match body [] w with
      | (Ok _, w', t) => (Ok 0%Z, w', setup_trace None ++ t)
      | (Raise e, w', t) => (Raise e, w', setup_trace None ++ t)
      end
  | Some f =>
      match append_text os f "" w with
      | None => (Raise (OSError (abspath os f w)), w,
                 [EBasicConfig; EAddHandlerFailed f])
      | Some w0 =>
          match body [f] w0 with
          | (Ok _, w', t) => (Ok 0%Z, w', setup_trace (Some f) ++ t)
          | (Raise e, w', t) => (Raise e, w', setup_trace (Some f) ++ t)
          end
      end
  end.
Proof.
  unfold bind, emit, ret, setup_trace, add_file_handler.
  destruct logfile as [f|].
  - destruct (append_text os f "" w) as [w0|]; [|done]. cbn [app].
    destruct (body [f] w0) as [[[[]|e] w'] t];
      cbv beta iota; rewrite ?app_nil_r; reflexivity.
  - destruct (body [] w) as [[[[]|e] w'] t];
      cbv beta iota; rewrite ?app_nil_r; reflexivity.
Qed.

Lemma main_body_step src dest dry_run (force : bool) logfile conflict_file
    modified_file (verify_integrity : bool) w lg w0 :
  logging_ready os logfile w lg w0 ->
  let body : M World unit :=
    if verify_integrity then
      modified <- _check_modified os lg src dest modified_file ;;
      _verify_integrity os lg src dest modified conflict_file
    else
      (if force
       then _update_all_files os lg src dest dry_run
       else _sync_new_files os lg src dest dry_run) ;;;
      _check_modified os lg src dest modified_file ;;;
      ret tt in
  main_step os src dest dry_run force logfile conflict_file modified_file
    verify_integrity w
    match body w0 with
    | (Ok _, w', t) => (Ok 0%Z, w', setup_trace logfile ++ t)
    | (Raise e, w', t) => (Raise e, w', setup_trace logfile ++ t)
    end.
Proof.
  intros Hready body. subst body. destruct verify_integrity.
  - unfold bind at 1.
    pose proof (_check_modified_step lg src dest modified_file w0) as Hc.
    destruct (_check_modified os lg src dest modified_file w0)
      as [[[modified|e] w1] t1]; [|by eapply main_check_raised].
    pose proof (_verify_integrity_step lg src dest modified conflict_file w1)
      as Hv.
    destruct (_verify_integrity os lg src dest modified conflict_file w1)
      as [[[[]|e] w2] t2].
    + by eapply main_verified.
    + by eapply main_verify_raised.
  - assert (P : (if force then _update_all_files os lg src dest dry_run
                 else _sync_new_files os lg src dest dry_run)
                = (_run_rsync os lg (propagate_args force) src dest dry_run
                     ;;; ret tt)) by by destruct force.
    rewrite P. unfold bind at 1. unfold bind at 1.
    pose proof (_run_rsync_step lg (propagate_args force) src dest dry_run w0)
      as Hp.
    destruct (_run_rsync os lg (propagate_args force) src dest dry_run w0)
      as [[[out|e] w1] t1]; [|by eapply main_propagate_raised].
    unfold ret at 1. cbv beta iota. rewrite app_nil_r.
    unfold bind at 1.
    pose proof (_check_modified_step lg src dest modified_file w1) as Hc.
    destruct (_check_modified os lg src dest modified_file w1)
      as [[[modified|e] w2] t2].
    + unfold ret. cbv beta iota. rewrite app_nil_r. by eapply main_propagated.
    + by eapply main_recheck_raised.
Qed.

Lemma main_main_step src dest dry_run force logfile conflict_file
    modified_file verify_integrity w :
  main_step os src dest dry_run force logfile conflict_file modified_file
    verify_integrity w
    (main os src dest dry_run force logfile conflict_file modified_file
       verify_integrity w).
Proof.
  unfold main.
  rewrite (main_setup logfile (fun lg =>
    if verify_integrity then
      modified <- _check_modified os lg src dest modified_file ;;
      _verify_integrity os lg src dest modified conflict_file
    else
      (if force
       then _update_all_files os lg src dest dry_run
       else _sync_new_files os lg src dest dry_run) ;;;
      _check_modified os lg src dest modified_file ;;;
      ret tt)).
  destruct logfile as [f|].
  - destruct (append_text os f "" w) as [w0|] eqn:A.
    + by apply (main_body_step src dest dry_run force (Some f)).
    + by eapply main_handler_refused.
  - by apply (main_body_step src dest dry_run force None).
Qed.
End Steps.

(** ** The Output Classifier and the conflict list *)

Lemma strip_first_occurrence (s : string) (i : nat) :
  first_occurrence ") " s i ->
  _strip_action_prefix s = Ok (py_slice_from (i + 2) s).
Proof.
  intros H. unfold _strip_action_prefix, py_index.
  by rewrite (first_occurrence_index0 _ _ _ H).
Qed.

Lemma strip_not_occurs (s : string) :
  ~ occurs ") " s ->
  _strip_action_prefix s = Raise (ValueError "substring not found").
Proof.
  intros H. unfold _strip_action_prefix, py_index.
  by rewrite (not_occurs_index0 _ _ H).
Qed.

Lemma strip_raise (s : string) (e : Exception) :
  _strip_action_prefix s = Raise e ->
  e = ValueError "substring not found" /\ ~ occurs ") " s.
Proof.
  unfold _strip_action_prefix, py_index.
  destruct (String.index 0 ") " s) eqn:I; [done|].
  intros [= <-]. split; [done|]. by apply index0_None.
Qed.

Lemma strip_ok (s p : string) :
  _strip_action_prefix s = Ok p -> occurs ") " s.
Proof.
  unfold _strip_action_prefix, py_index.
  destruct (String.index 0 ") " s) as [i|] eqn:I; [|done].
  intros _. apply index0_Some in I as [Hi _]. by exists i.
Qed.

Lemma strip_ok_split (line path : string) :
  _strip_action_prefix line = Ok path ->
  exists before,
    line = before +:+ ") " +:+ path /\
    first_occurrence ") " line (String.length before).
Proof.
  unfold _strip_action_prefix, py_index.
  destruct (String.index 0 ") " line) as [i|] eqn:I; [|done].
  cbn [rbind]. intros [= <-].
  apply index0_Some in I as [(a & b & -> & <-) Hmin].
  exists a. split.
  - by rewrite py_slice_from_append.
  - split; [by exists a, b|done].
Qed.

(** The classifier computes the path of the specification. *)
Lemma strip_stripped_path (line path : string) :
  _strip_action_prefix line = Ok path <-> stripped_path line path.
Proof.
  split; [apply strip_ok_split|].
  intros (before & -> & H). rewrite (strip_first_occurrence _ _ H). f_equal.
  by rewrite py_slice_from_append.
Qed.

Lemma stripped_path_output_line (code path : string) :
  has_char ")" code = false -> stripped_path (output_line code path) path.
Proof.
  intros Hcode. apply strip_stripped_path.
  unfold _strip_action_prefix, py_index.
  rewrite (index0_output_line _ _ Hcode). cbn [rbind]. f_equal.
  unfold output_line.
  change ("(" +:+ code +:+ ") " +:+ path)
    with (String "(" (code +:+ ") " +:+ path)).
  replace (S (String.length code) + 2) with (S (String.length code + 2)) by lia.
  cbn [py_slice_from]. by rewrite py_slice_from_append.
Qed.

Lemma modmap_from_ok (acc mm : gmap string bool) (modified : list string) :
  modmap_from acc modified = Ok mm ->
  forall k, is_Some (mm !! k) <->
            is_Some (acc !! k) \/ Ok k ∈ _strip_action_prefix <$> modified.
Proof.
  revert acc. induction modified as [|m rest IH]; intros acc H k.
  - injection H as <-. rewrite fmap_nil, elem_of_nil.
    split; [by left|by intros [?|[]]].
  - cbn [modmap_from] in H.
    destruct (_strip_action_prefix m) as [p|e] eqn:S; [|done].
    cbn [rbind] in H. rewrite (IH _ H k), fmap_cons, elem_of_cons, S.
    destruct (decide (p = k)) as [->|Hne].
    + rewrite lookup_insert_eq. split; [auto|]. intros _. left. by eexists.
    + rewrite lookup_insert_ne by done.
      split; [intros [?|?]; auto|intros [?|[[= ?]|?]]; auto; congruence].
Qed.

Lemma modmap_from_raise (acc : gmap string bool) (modified : list string)
    (e : Exception) :
  modmap_from acc modified = Raise e -> e = ValueError "substring not found".
Proof.
  revert acc. induction modified as [|m rest IH]; intros acc H; [done|].
  cbn [modmap_from] in H.
  destruct (_strip_action_prefix m) as [p|e'] eqn:S.
  - by apply (IH _ H).
  - injection H as <-. by apply strip_raise in S as [-> _].
Qed.

Lemma modmap_from_well_formed (acc mm : gmap string bool)
    (modified : list string) :
  modmap_from acc modified = Ok mm ->
  Forall (occurs ") ") modified.
Proof.
  revert acc. induction modified as [|m rest IH]; intros acc H; [done|].
  cbn [modmap_from] in H.
  destruct (_strip_action_prefix m) as [p|e] eqn:S; [|done].
  constructor; [by eapply strip_ok|by eapply IH].
Qed.

Lemma modmap_from_total (acc : gmap string bool) (modified : list string) :
  Forall (occurs ") ") modified -> exists mm, modmap_from acc modified = Ok mm.
Proof.
  intros H. revert acc. induction H as [|m rest Hm _ IH]; intros acc.
  - by eexists.
  - cbn [modmap_from].
    destruct (_strip_action_prefix m) as [p|e] eqn:S.
    + apply IH.
    + by apply strip_raise in S as [_ ?].
Qed.

Lemma conflicting_from_ok (mm : gmap string bool)
    (modified conflicts items : list string) :
  (forall k, is_Some (mm !! k) <-> Ok k ∈ _strip_action_prefix <$> modified) ->
  conflicting_from mm conflicts = Ok items ->
  items = filter (fun c => _strip_action_prefix c
                             ∉ _strip_action_prefix <$> modified) conflicts
  /\ Forall (occurs ") ") conflicts.
Proof.
  intros Hmm. revert items.
  induction conflicts as [|c rest IH]; intros items H.
  - by injection H as <-.
  - cbn [conflicting_from] in H.
    destruct (_strip_action_prefix c) as [p|e] eqn:S; [|done].
    cbn [rbind] in H.
    destruct (conflicting_from mm rest) as [items'|e]; [|done].
    cbn [rbind] in H. injection H as <-.
    destruct (IH _ eq_refl) as [-> Hwf]. split.
    2:{ constructor; [by eapply strip_ok|done]. }
    rewrite filter_cons, S. destruct (mm !! p) as [b|] eqn:L.
    + rewrite decide_False; [done|]. intros Hnot. apply Hnot, Hmm. by eexists.
    + rewrite decide_True; [done|]. intros [b Hb]%Hmm. congruence.
Qed.

Lemma conflicting_from_raise (mm : gmap string bool) (conflicts : list string)
    (e : Exception) :
  conflicting_from mm conflicts = Raise e ->
  e = ValueError "substring not found".
Proof.
  induction conflicts as [|c rest IH]; intros H; [done|].
  cbn [conflicting_from] in H.
  destruct (_strip_action_prefix c) as [p|e'] eqn:S.
  - cbn [rbind] in H. destruct (conflicting_from mm rest) as [items'|e'']; [done|].
    injection H as <-. by apply IH.
  - injection H as <-. by apply strip_raise in S as [-> _].
Qed.

Lemma conflicting_from_total (mm : gmap string bool) (conflicts : list string) :
  Forall (occurs ") ") conflicts ->
  exists items, conflicting_from mm conflicts = Ok items.
Proof.
  induction 1 as [|c rest Hc _ [items IH]]; [by eexists|].
  cbn [conflicting_from].
  destruct (_strip_action_prefix c) as [p|e] eqn:S.
  - rewrite IH. cbn [rbind]. by eexists.
  - by apply strip_raise in S as [_ ?].
Qed.

(** The conflict list is the checksum listing without the lines whose
    path the modified list already has; it exists exactly when every
    line of both lists has an action-code prefix. *)
Lemma conflicting_items_ok (modified conflicts items : list string) :
  conflicting_items modified conflicts = Ok items ->
  items = filter (fun c => _strip_action_prefix c
                             ∉ _strip_action_prefix <$> modified) conflicts
  /\ Forall (occurs ") ") (modified ++ conflicts).
Proof.
  unfold conflicting_items.
  destruct (modmap_from ∅ modified) as [mm|e] eqn:Hmm; [|done].
  cbn [rbind]. intros H.
  destruct (conflicting_from_ok mm modified conflicts items) as [-> Hwf];
    [|done|].
  - intros k. rewrite (modmap_from_ok _ _ _ Hmm k), lookup_empty.
    split; [|by right]. intros [[? [=]]|?]; done.
  - split; [done|]. apply Forall_app. split; [|done].
    by eapply modmap_from_well_formed.
Qed.

Lemma conflicting_items_raise (modified conflicts : list string) (e : Exception) :
  conflicting_items modified conflicts = Raise e ->
  e = ValueError "substring not found".
Proof.
  unfold conflicting_items.
  destruct (modmap_from ∅ modified) as [mm|e'] eqn:Hmm; cbn [rbind].
  - apply conflicting_from_raise.
  - intros [= <-]. by eapply modmap_from_raise.
Qed.

Lemma conflicting_items_total (modified conflicts : list string) :
  Forall (occurs ") ") (modified ++ conflicts) ->
  exists items, conflicting_items modified conflicts = Ok items.
Proof.
  intros [Hm Hc]%Forall_app. unfold conflicting_items.
  destruct (modmap_from_total ∅ modified Hm) as [mm ->]. cbn [rbind].
  by apply conflicting_from_total.
Qed.

Lemma conflicting_items_malformed (modified conflicts : list string)
    (line : string) :
  line ∈ modified ++ conflicts ->
  ~ occurs ") " line ->
  conflicting_items modified conflicts
  = Raise (ValueError "substring not found").
Proof.
  intros Hin Hbad.
  destruct (conflicting_items modified conflicts) as [items|e] eqn:H.
  - apply conflicting_items_ok in H as [_ Hwf].
    rewrite Forall_forall in Hwf. destruct Hbad. by apply Hwf.
  - by apply conflicting_items_raise in H as ->.
Qed.

Lemma py_slice_from_within (n : nat) (x y : string) :
  n <= String.length x ->
  py_slice_from n (x +:+ y) = py_slice_from n x +:+ y.
Proof.
  revert n. induction x as [|c x IH]; intros n H.
  - simpl in H. assert (n = 0) as -> by lia. by rewrite !py_slice_from_0.
  - destruct n as [|n]; [done|]. rewrite append_String. simpl.
    apply IH. simpl in H. lia.
Qed.

Lemma output_line_occurs (code path : string) :
  occurs_at ") " (output_line code path) (S (String.length code)).
Proof. by exists ("(" +:+ code), path. Qed.

(** C3. For every output line, the Output Classifier returns exactly the
    substring after the first occurrence of the two characters [") "]:
    when the line splits as [before ++ ") " ++ after] at its first
    occurrence, the result is [after]. *)
Theorem strip_action_prefix_after_first_separator (line before after : string) :
  line = before +:+ ") " +:+ after ->
  first_occurrence ") " line (String.length before) ->
  _strip_action_prefix line = Ok after.
Proof.
  intros -> H. rewrite (strip_first_occurrence _ _ H). f_equal.
  by rewrite py_slice_from_append.
Qed.

(** The example of the specification, from the theorem. *)
Lemma strip_action_prefix_example :
  first_occurrence ") " "(>f+++++++++ ) dir/file.txt" 13 /\
  _strip_action_prefix "(>f+++++++++ ) dir/file.txt" = Ok "dir/file.txt".
Proof.
  assert (F : first_occurrence ") " "(>f+++++++++ ) dir/file.txt" 13)
    by (apply index0_Some; reflexivity).
  split; [exact F|].
  exact (strip_action_prefix_after_first_separator
           "(>f+++++++++ ) dir/file.txt" "(>f+++++++++ " "dir/file.txt"
           eq_refl F).
Defined.

Lemma strip_output_line (code path : string) :
  has_char ")" code = false ->
  _strip_action_prefix (output_line code path) = Ok path.
Proof.
  intros Hcode. unfold _strip_action_prefix, py_index.
  rewrite (index0_output_line _ _ Hcode). cbn [rbind]. f_equal.
  unfold output_line.
  change ("(" +:+ code +:+ ") " +:+ path)
    with (String "(" (code +:+ ") " +:+ path)).
  replace (S (String.length code) + 2) with (S (String.length code + 2)) by lia.
  cbn [py_slice_from]. by rewrite py_slice_from_append.
Qed.

Lemma strip_output_line_suffix (code path : string) :
  exists extra,
    _strip_action_prefix (output_line code path) = Ok (extra +:+ path).
Proof.
  pose proof (output_line_occurs code path) as Hocc.
  destruct (String.index 0 ") " (output_line code path)) as [i|] eqn:I.
  2:{ apply index0_None in I. destruct I. by eexists. }
  pose proof (index0_Some _ _ _ I) as [_ Hmin].
  specialize (Hmin _ Hocc).
  exists (py_slice_from (i + 2) ("(" +:+ code +:+ ") ")).
  unfold _strip_action_prefix, py_index. rewrite I. cbn [rbind]. f_equal.
  rewrite <- py_slice_from_within.
  - unfold output_line. by rewrite !append_assoc.
  - rewrite !length_append. simpl. lia.
Qed.

(** C4, as stated, fails.  No output line loses any part of its path:
    what the classifier returns always ends with the whole path, and for
    an action code without a closing parenthesis it is the whole path,
    also when the path contains [") "]. *)
Lemma path_separator_never_truncates :
  _strip_action_prefix "(>f+++++++++) old) v1/a) b.txt" = Ok "old) v1/a) b.txt" /\
  (~ exists code path,
       occurs ") " path /\
       forall extra,
         _strip_action_prefix (output_line code path) <> Ok (extra +:+ path)) /\
  (~ exists code path,
       has_char ")" code = false /\
       occurs ") " path /\
       _strip_action_prefix (output_line code path) <> Ok path).
Proof.
  split; [reflexivity|]. split.
  - intros (code & path & _ & Hne).
    destruct (strip_output_line_suffix code path) as [extra H].
    by apply (Hne extra).
  - intros (code & path & Hcode & _ & Hne). by apply Hne, strip_output_line.
Qed.

(** C4, amended.  The classifier cuts at the first [") "] of the line,
    which is never inside the path: the result always ends with the whole
    path, and it is exactly the path when the action code has no closing
    parenthesis (as the itemized codes of the tool), whatever the path
    contains. *)
Theorem strip_action_prefix_whole_path (code path : string) :
  (exists extra,
      _strip_action_prefix (output_line code path) = Ok (extra +:+ path)) /\
  (has_char ")" code = false ->
   _strip_action_prefix (output_line code path) = Ok path).
Proof.
  split; [apply strip_output_line_suffix|apply strip_output_line].
Qed.

(** A path with [") "] in it, recovered whole. *)
Lemma strip_action_prefix_whole_path_example :
  has_char ")" ">f+++++++++" = false /\
  _strip_action_prefix (output_line ">f+++++++++" "old) v1/a) b.txt")
  = Ok "old) v1/a) b.txt".
Proof.
  split; [reflexivity|].
  exact (proj2 (strip_action_prefix_whole_path ">f+++++++++" "old) v1/a) b.txt")
           eq_refl).
Defined.

(** ** Reading the traces of the steps *)

Lemma processes_run_app (t1 t2 : list Event) :
  processes_run (t1 ++ t2) = processes_run t1 ++ processes_run t2.
Proof.
  induction t1 as [|[] t1 IH]; cbn [processes_run app]; by rewrite ?IH.
Qed.

Lemma commands_run_app (t1 t2 : list Event) :
  commands_run (t1 ++ t2) = commands_run t1 ++ commands_run t2.
Proof.
  induction t1 as [|[] t1 IH]; cbn [commands_run app]; by rewrite ?IH.
Qed.

Lemma files_written_app (t1 t2 : list Event) :
  files_written (t1 ++ t2) = files_written t1 ++ files_written t2.
Proof.
  induction t1 as [|[] t1 IH]; cbn [files_written app]; by rewrite ?IH.
Qed.

Lemma files_opened_app (t1 t2 : list Event) :
  files_opened (t1 ++ t2) = files_opened t1 ++ files_opened t2.
Proof.
  induction t1 as [|[] t1 IH]; cbn [files_opened app]; by rewrite ?IH.
Qed.

Lemma files_appended_app (t1 t2 : list Event) :
  files_appended (t1 ++ t2) = files_appended t1 ++ files_appended t2.
Proof.
  induction t1 as [|[] t1 IH]; cbn [files_appended app]; by rewrite ?IH.
Qed.

Lemma appends_quiet (lg l : list Path) (text : string) :
  Forall (fun f => f ∈ lg) l ->
  processes_run ((fun f => EAppend f text) <$> l) = [] /\
  commands_run ((fun f => EAppend f text) <$> l) = [] /\
  files_written ((fun f => EAppend f text) <$> l) = [] /\
  files_opened ((fun f => EAppend f text) <$> l) = [] /\
  Forall (fun f => f ∈ lg) (files_appended ((fun f => EAppend f text) <$> l)) /\
  Forall (fun e => ~ run_failed e) ((fun f => EAppend f text) <$> l).
Proof.
  induction 1 as [|f l Hf Hl (H1 & H2 & H3 & H4 & H5 & H6)].
  - by repeat split; constructor.
  - cbn [fmap list_fmap processes_run commands_run files_written files_opened
         files_appended].
    repeat split; try done; constructor; auto.
Qed.

(** A log call runs no process and opens no file with mode ['w']; what
    it appends to are the files of the logger. *)
Lemma say_trace_quiet (lg : Logger) (n : Note) :
  processes_run (say_trace lg n) = [] /\
  commands_run (say_trace lg n) = [] /\
  files_written (say_trace lg n) = [] /\
  files_opened (say_trace lg n) = [] /\
  Forall (fun f => f ∈ lg) (files_appended (say_trace lg n)) /\
  Forall (fun e => ~ run_failed e) (say_trace lg n).
Proof.
  unfold say_trace.
  destruct (record_text (note_msg n) (note_args n)) as [text|].
  - assert (Forall (fun f => f ∈ lg) lg) as Hlg by by apply Forall_forall.
    destruct (appends_quiet lg lg (text +:+ LF) Hlg)
      as (H1 & H2 & H3 & H4 & H5 & H6).
    cbn [processes_run commands_run files_written files_opened files_appended].
    repeat split; try done. constructor; auto.
  - by repeat split; repeat constructor; auto.
Qed.

Lemma processes_run_says (lg : Logger) (ns : list Note) :
  processes_run (says_trace lg ns) = [].
Proof.
  induction ns as [|n ns IH]; [done|]. cbn [says_trace].
  rewrite processes_run_app, IH. by destruct (say_trace_quiet lg n) as [-> _].
Qed.

Lemma commands_run_says (lg : Logger) (ns : list Note) :
  commands_run (says_trace lg ns) = [].
Proof.
  induction ns as [|n ns IH]; [done|]. cbn [says_trace].
  rewrite commands_run_app, IH.
  by destruct (say_trace_quiet lg n) as (_ & -> & _).
Qed.

Lemma files_written_says (lg : Logger) (ns : list Note) :
  files_written (says_trace lg ns) = [].
Proof.
  induction ns as [|n ns IH]; [done|]. cbn [says_trace].
  rewrite files_written_app, IH.
  by destruct (say_trace_quiet lg n) as (_ & _ & -> & _).
Qed.

Lemma files_opened_says (lg : Logger) (ns : list Note) :
  files_opened (says_trace lg ns) = [].
Proof.
  induction ns as [|n ns IH]; [done|]. cbn [says_trace].
  rewrite files_opened_app, IH.
  by destruct (say_trace_quiet lg n) as (_ & _ & _ & -> & _).
Qed.

Lemma files_appended_says (lg : Logger) (ns : list Note) :
  Forall (fun f => f ∈ lg) (files_appended (says_trace lg ns)).
Proof.
  induction ns as [|n ns IH]; [constructor|]. cbn [says_trace].
  rewrite files_appended_app. apply Forall_app. split; [|done].
  by destruct (say_trace_quiet lg n) as (_ & _ & _ & _ & ? & _).
Qed.

Lemma no_failure_says (lg : Logger) (ns : list Note) :
  Forall (fun e => ~ run_failed e) (says_trace lg ns).
Proof.
  induction ns as [|n ns IH]; [constructor|]. cbn [says_trace].
  apply Forall_app. split; [|done].
  by destruct (say_trace_quiet lg n) as (_ & _ & _ & _ & _ & ?).
Qed.

Lemma processes_run_setup (logfile : option Path) :
  processes_run (setup_trace logfile) = [].
Proof. by destruct logfile. Qed.

Lemma commands_run_setup (logfile : option Path) :
  commands_run (setup_trace logfile) = [].
Proof. by destruct logfile. Qed.

Lemma files_written_setup (logfile : option Path) :
  files_written (setup_trace logfile) = [].
Proof. by destruct logfile. Qed.

Lemma files_opened_setup (logfile : option Path) :
  files_opened (setup_trace logfile) = [].
Proof. by destruct logfile. Qed.

Create Rewrite HintDb trace.
#[export] Hint Rewrite
  processes_run_app commands_run_app files_written_app files_opened_app
  files_appended_app
  processes_run_says commands_run_says files_written_says files_opened_says
  processes_run_setup commands_run_setup files_written_setup
  files_opened_setup : trace.

Lemma files_appended_setup (logfile : option Path) :
  Forall (fun p => logfile = Some p) (files_appended (setup_trace logfile)).
Proof. destruct logfile; repeat constructor. Qed.

Lemma replay_files_app {World} (os : OS World) (t1 t2 : list Event) (w : World) :
  replay_files os (t1 ++ t2) w = replay_files os t2 (replay_files os t1 w).
Proof.
  revert w. induction t1 as [|e t1 IH]; intros w; [done|].
  destruct e; cbn [replay_files app]; apply IH.
Qed.

Lemma replay_files_appends {World} (os : OS World) (l : list Path)
    (text : string) (w : World) :
  replay_files os ((fun f => EAppend f text) <$> l) w = append_all os l text w.
Proof.
  revert w. induction l as [|f l IH]; intros w; [done|].
  cbn [fmap list_fmap replay_files append_all]. apply IH.
Qed.

(** Replaying the trace of log calls gives the world they leave. *)
Lemma replay_files_says {World} (os : OS World) (lg : Logger)
    (ns : list Note) (w : World) :
  replay_files os (says_trace lg ns) w = says_world os lg ns w.
Proof.
  revert w. induction ns as [|n ns IH]; intros w; [done|].
  cbn [says_trace says_world]. rewrite replay_files_app, IH. f_equal.
  unfold say_trace, say_world. cbn [replay_files].
  destruct (record_text (note_msg n) (note_args n)); [|done].
  apply replay_files_appends.
Qed.

(** The record of a log call is in its trace. *)
Lemma says_trace_head (lg : Logger) (n : Note) (ns : list Note) :
  ELog (note_level n) (note_msg n) (note_args n) ∈ says_trace lg (n :: ns).
Proof. cbn [says_trace]. unfold say_trace. by left. Qed.

(** The same for the records, the refused openings and the text given
    to a file handler. *)
Lemma records_at_app (level : Level) (t1 t2 : list Event) :
  records_at level (t1 ++ t2) = records_at level t1 ++ records_at level t2.
Proof.
  induction t1 as [|[] t1 IH]; cbn [records_at app]; rewrite ?IH; try done.
  by destruct (decide _).
Qed.

Lemma writes_refused_app (t1 t2 : list Event) :
  writes_refused (t1 ++ t2) = writes_refused t1 ++ writes_refused t2.
Proof.
  induction t1 as [|[] t1 IH]; cbn [writes_refused app]; by rewrite ?IH.
Qed.

Lemma handlers_refused_app (t1 t2 : list Event) :
  handlers_refused (t1 ++ t2) = handlers_refused t1 ++ handlers_refused t2.
Proof.
  induction t1 as [|[] t1 IH]; cbn [handlers_refused app]; by rewrite ?IH.
Qed.

Lemma appends_silent (l : list Path) (text : string) (level : Level) :
  records_at level ((fun f => EAppend f text) <$> l) = [] /\
  writes_refused ((fun f => EAppend f text) <$> l) = [] /\
  handlers_refused ((fun f => EAppend f text) <$> l) = [].
Proof. induction l as [|f l (H1 & H2 & H3)]; [done|]. by cbn. Qed.

Lemma records_at_says (level : Level) (lg : Logger) (ns : list Note) :
  records_at level (says_trace lg ns) = notes_at level ns.
Proof.
  unfold notes_at. induction ns as [|n ns IH]; [done|]. cbn [says_trace].
  rewrite records_at_app, IH. unfold say_trace. cbn [records_at].
  assert (records_at level
            match record_text (note_msg n) (note_args n) with
            | Some text => (fun f => EAppend f (text +:+ LF)) <$> lg
            | None => []
            end = []) as ->.
  { destruct (record_text _ _); [|done]. apply appends_silent. }
  rewrite filter_cons. by destruct (decide _).
Qed.

Lemma writes_refused_says (lg : Logger) (ns : list Note) :
  writes_refused (says_trace lg ns) = [].
Proof.
  induction ns as [|n ns IH]; [done|]. cbn [says_trace].
  rewrite writes_refused_app, IH. unfold say_trace. cbn [writes_refused].
  destruct (record_text _ _); [|done]. rewrite app_nil_r.
  apply (appends_silent lg _ DEBUG).
Qed.

Lemma handlers_refused_says (lg : Logger) (ns : list Note) :
  handlers_refused (says_trace lg ns) = [].
Proof.
  induction ns as [|n ns IH]; [done|]. cbn [says_trace].
  rewrite handlers_refused_app, IH. unfold say_trace. cbn [handlers_refused].
  destruct (record_text _ _); [|done]. rewrite app_nil_r.
  apply (appends_silent lg _ DEBUG).
Qed.

Lemma records_at_setup (level : Level) (logfile : option Path) :
  records_at level (setup_trace logfile) = [].
Proof. by destruct logfile. Qed.

Lemma writes_refused_setup (logfile : option Path) :
  writes_refused (setup_trace logfile) = [].
Proof. by destruct logfile. Qed.

Lemma handlers_refused_setup (logfile : option Path) :
  handlers_refused (setup_trace logfile) = [].
Proof. by destruct logfile. Qed.

Lemma appended_to_app (f : Path) (t1 t2 : list Event) :
  appended_to f (t1 ++ t2) = appended_to f t1 +:+ appended_to f t2.
Proof.
  induction t1 as [|[] t1 IH]; cbn [appended_to app]; try done.
  destruct (String.eqb _ _); [|done]. by rewrite IH, append_assoc.
Qed.

Lemma logged_text_app (t1 t2 : list Event) :
  logged_text (t1 ++ t2) = logged_text t1 +:+ logged_text t2.
Proof.
  induction t1 as [|[] t1 IH]; cbn [logged_text app]; try done.
  destruct (record_text _ _); [|done]. by rewrite IH, !append_assoc.
Qed.

(** With one file handler, what the handler is given is the log. *)
Lemma appended_to_says (f : Path) (ns : list Note) :
  appended_to f (says_trace [f] ns) = logged_text (says_trace [f] ns).
Proof.
  induction ns as [|n ns IH]; [done|]. cbn [says_trace].
  rewrite appended_to_app, logged_text_app, IH. f_equal.
  unfold say_trace. cbn [appended_to logged_text].
  destruct (record_text (note_msg n) (note_args n)) as [text|]; [|done].
  cbn [fmap list_fmap appended_to logged_text]. rewrite String.eqb_refl.
  by rewrite append_assoc.
Qed.

Lemma appended_to_setup (f : Path) (logfile : option Path) :
  appended_to f (setup_trace logfile) = "".
Proof. by destruct logfile. Qed.

Lemma logged_text_setup (logfile : option Path) :
  logged_text (setup_trace logfile) = "".
Proof. by destruct logfile. Qed.

(** From here on the log calls are read through the lemmas above. *)
Opaque says_trace says_world.

(** Case analysis on the steps a hypothesis speaks of, down to the
    answers of the operating system. *)
Ltac invert_step H := inversion H; subst; clear H.

Ltac invert_steps :=
  repeat match goal with
  | H : main_step _ _ _ _ _ _ _ _ _ _ _ |- _ => invert_step H
  | H : verify_step _ _ _ _ _ _ _ _ |- _ => invert_step H
  | H : check_step _ _ _ _ _ _ _ |- _ => invert_step H
  | H : write_step _ _ _ _ _ _ |- _ => invert_step H
  | H : rsync_step _ _ _ _ _ _ _ _ |- _ => invert_step H
  end.

Ltac build_forall :=
  repeat match goal with |- Forall _ _ => constructor end.

Ltac read_trace :=
  repeat (autorewrite with trace;
          cbn [processes_run commands_run files_written files_opened
               files_appended app]).

Ltac solve_prefix :=
  solve [ by eexists | apply prefix_cons; solve_prefix | apply prefix_nil ].

Section Reports.
Context {World : Type} (os : OS World).

Lemma check_modified_ok lg src dest modified_file w lines w' t :
  _check_modified os lg src dest modified_file w = (Ok lines, w', t) ->
  exists out,
    lines = py_splitlines out /\
    processes_run t = [(rsync_command [] src dest true, 0%Z, out)] /\
    files_written t =
      [(log_path modified_log modified_file src, out);
       (log_path modified_log modified_file dest, out)].
Proof.
  intros H.
  pose proof (_check_modified_step os lg src dest modified_file w) as V.
  rewrite H in V. invert_steps. exists out. split; [done|]. by read_trace.
Qed.

(** The verifier completes when the directories are there, the checksum
    pass succeeds, every line of both lists has an action code and the
    reports can be written. *)
Lemma verify_integrity_completes lg src dest modified conflict_file w out w1 :
  is_dir os src w = true ->
  is_dir os dest w = true ->
  subprocess_run os (rsync_command ["-c"] src dest true)
    (says_world os lg (announce (rsync_command ["-c"] src dest true)) w)
  = (0%Z, out, w1) ->
  Forall (occurs ") ") (modified ++ py_splitlines out) ->
  (forall p c w0, is_Some (write_text os p c w0)) ->
  result (_verify_integrity os lg src dest modified conflict_file w) = Ok tt.
Proof.
  intros Hs Hd Hrun Hwf Hwrite.
  destruct (conflicting_items_total _ _ Hwf) as [items Hitems].
  pose proof (_verify_integrity_step os lg src dest modified conflict_file w)
    as V.
  destruct (_verify_integrity os lg src dest modified conflict_file w)
    as [[r w'] t].
  unfold result; cbn [fst].
  invert_steps; try congruence;
    repeat match goal with
    | H : write_text os ?p ?c ?w0 = None |- _ =>
        destruct (Hwrite p c w0) as [? ?]; congruence
    end.
Qed.

Lemma verify_integrity_ok lg src dest modified conflict_file w w' t :
  _verify_integrity os lg src dest modified conflict_file w = (Ok tt, w', t) ->
  exists out items,
    conflicting_items modified (py_splitlines out) = Ok items /\
    processes_run t = [(rsync_command ["-c"] src dest true, 0%Z, out)] /\
    files_written t =
      [(log_path conflicts_log conflict_file src, py_join LF items);
       (log_path conflicts_log conflict_file dest, py_join LF items)].
Proof.
  intros H.
  pose proof (_verify_integrity_step os lg src dest modified conflict_file w)
    as V.
  rewrite H in V. invert_steps. exists out, items. split; [done|].
  by read_trace.
Qed.


End Reports.

Lemma occurs_strip_ok (s : string) :
  occurs ") " s -> exists p, _strip_action_prefix s = Ok p.
Proof.
  intros H. destruct (_strip_action_prefix s) as [p|e] eqn:S; [by eexists|].
  by apply strip_raise in S as [_ ?].
Qed.

(** ** The claims about the two reports *)

(** C1. When the Integrity Verifier completes, it has run the checksum
    pass ([-c], dry run) and the conflict report it writes is the listing
    of that pass filtered by the modified list: the lines of the report
    are the items kept, and a line [c] of the listing is kept if and only
    if its path, what follows the first [") "] of the line, is not the
    path of any line of the modified list.  In particular a file that
    the modified list has, under whatever action code, is excluded, and
    a file of the listing that the modified list does not have is
    reported. *)
Theorem integrity_report_excludes_modified {World : Type} (os : OS World)
    (lg : Logger) (src dest : Path) (modified : list string)
    (conflict_file : option Path) (w w' : World) (t : list Event) :
  _verify_integrity os lg src dest modified conflict_file w = (Ok tt, w', t) ->
  exists out items,
    processes_run t = [(rsync_command ["-c"] src dest true, 0%Z, out)] /\
    files_written t =
      [(log_path conflicts_log conflict_file src, py_join LF items);
       (log_path conflicts_log conflict_file dest, py_join LF items)] /\
    items = filter (fun c => _strip_action_prefix c
                               ∉ _strip_action_prefix <$> modified)
              (py_splitlines out) /\
    py_splitlines (py_join LF items) = items /\
    (forall c, c ∈ py_splitlines out ->
       (c ∈ items <->
        exists p, _strip_action_prefix c = Ok p /\
                  forall m, m ∈ modified -> _strip_action_prefix m <> Ok p)) /\
    (forall c, c ∈ py_splitlines out ->
       (c ∈ items <->
        exists p, stripped_path c p /\
                  forall m, m ∈ modified -> ~ stripped_path m p)) /\
    (forall code code' path,
       has_char ")" code = false -> has_char ")" code' = false ->
       output_line code' path ∈ modified ->
       output_line code path ∉ items) /\
    (forall code path,
       has_char ")" code = false ->
       output_line code path ∈ py_splitlines out ->
       (forall m, m ∈ modified -> ~ stripped_path m path) ->
       output_line code path ∈ items).
Proof.
  intros H.
  destruct (verify_integrity_ok os _ _ _ _ _ _ _ _ H)
    as (out & items & Hitems & Hrun & Hfiles).
  apply conflicting_items_ok in Hitems as [Hfilter Hwf].
  exists out, items. do 3 (split; [done|]). split.
  { apply splitlines_join. rewrite Hfilter. apply Forall_forall.
    intros c [_ Hc]%list_elem_of_filter. split.
    - pose proof (py_splitlines_no_linebreak out) as Hlines.
      rewrite Forall_forall in Hlines. by apply Hlines.
    - apply Forall_app in Hwf as [_ Hwf]. rewrite Forall_forall in Hwf.
      intros ->. destruct (Hwf _ Hc) as [i Hi].
      by apply occurs_at_empty in Hi as [? _]. }
  assert (forall c, c ∈ py_splitlines out ->
            (c ∈ items <->
             exists p, _strip_action_prefix c = Ok p /\
                       forall m, m ∈ modified -> _strip_action_prefix m <> Ok p))
    as Hiff.
  { intros c Hin. split.
    - intros Hc. rewrite Hfilter in Hc.
      apply list_elem_of_filter in Hc as [Hc _].
      apply Forall_app in Hwf as [_ Hwf]. rewrite Forall_forall in Hwf.
      destruct (occurs_strip_ok c (Hwf _ Hin)) as [p Hp]. exists p.
      split; [done|].
      intros m Hm Heq. apply Hc. rewrite Hp, <- Heq.
      by apply list_elem_of_fmap_2.
    - intros (p & Hp & Hnone). rewrite Hfilter. apply list_elem_of_filter.
      split; [|done]. rewrite Hp. intros (m & Hm & Hm')%list_elem_of_fmap.
      by apply (Hnone m). }
  assert (forall c, c ∈ py_splitlines out ->
            (c ∈ items <->
             exists p, stripped_path c p /\
                       forall m, m ∈ modified -> ~ stripped_path m p))
    as Hpath.
  { intros c Hin. rewrite (Hiff c Hin). split.
    - intros (p & Hp & Hnone). exists p.
      split; [by apply strip_stripped_path|].
      intros m Hm Hs%strip_stripped_path. by apply (Hnone m).
    - intros (p & Hp & Hnone). exists p.
      split; [by apply strip_stripped_path|].
      intros m Hm Hs%strip_stripped_path. by apply (Hnone m). }
  split; [exact Hiff|]. split; [exact Hpath|]. split.
  - intros code code' path Hcode Hcode' Hm Hin.
    assert (output_line code path ∈ py_splitlines out) as Hout.
    { rewrite Hfilter in Hin. by apply list_elem_of_filter in Hin as [_ ?]. }
    apply (Hpath _ Hout) in Hin as (p & Hp & Hnone).
    apply strip_stripped_path in Hp.
    rewrite (strip_output_line _ _ Hcode) in Hp. injection Hp as <-.
    apply (Hnone _ Hm). by apply stripped_path_output_line.
  - intros code path Hcode Hout Hnone. apply (Hpath _ Hout).
    exists path. split; [by apply stripped_path_output_line|done].
Qed.

(** The theorem at work: [notes.txt] is in the modified list, under
    another action code, and stays out of the report; [photo.jpg] is
    not and is reported: the report is its line alone. *)
Lemma integrity_report_example :
  let modified := ["(>f.st...... ) notes.txt"] in
  let o := _verify_integrity scripted_os [] "/data/src" "/mnt/backup"
             modified None (demo_world [(0%Z, checksum_listing)]) in
  o = (Ok tt, world o, trace o) /\
  exists out items,
    out = checksum_listing /\
    py_splitlines out
    = ["(>fc........ ) notes.txt"; "(>fc........ ) photo.jpg"] /\
    items = ["(>fc........ ) photo.jpg"] /\
    processes_run (trace o) =
      [(rsync_command ["-c"] "/data/src" "/mnt/backup" true, 0%Z, out)] /\
    files_written (trace o) =
      [(conflicts_log "/data/src", py_join LF items);
       (conflicts_log "/mnt/backup", py_join LF items)] /\
    (forall c, c ∈ py_splitlines out ->
       (c ∈ items <->
        exists p, stripped_path c p /\
                  forall m, m ∈ modified -> ~ stripped_path m p)) /\
    (output_line ">fc........ " "notes.txt" ∉ items) /\
    (output_line ">fc........ " "photo.jpg" ∈ items).
Proof.
  intros modified o.
  assert (E : o = (Ok tt, world o, trace o)) by (vm_compute; reflexivity).
  split; [exact E|].
  destruct (integrity_report_excludes_modified scripted_os [] "/data/src"
              "/mnt/backup" modified None _ _ _ E)
    as (out & items & Hrun & Hfiles & Hitems & _ & _ & Hpath & Hexcl & _).
  assert (P : processes_run (trace o)
              = [(rsync_command ["-c"] "/data/src" "/mnt/backup" true, 0%Z,
                  checksum_listing)]) by (vm_compute; reflexivity).
  assert (out = checksum_listing) as Hout by congruence.
  assert (L : py_splitlines checksum_listing
              = ["(>fc........ ) notes.txt"; "(>fc........ ) photo.jpg"])
    by (vm_compute; reflexivity).
  assert (items = ["(>fc........ ) photo.jpg"]) as Hi.
  { rewrite Hitems, Hout, L. vm_compute. reflexivity. }
  exists out, items. split; [exact Hout|]. split; [by rewrite Hout|].
  split; [exact Hi|]. split; [exact Hrun|]. split; [exact Hfiles|].
  split; [exact Hpath|]. split.
  - apply (Hexcl ">fc........ " ">f.st...... " "notes.txt" eq_refl eq_refl).
    by left.
  - rewrite Hi. by left.
Defined.



(** C9. A string without [") "] makes the Output Classifier raise
    [ValueError]; and when such a line is in the modified list or in the
    listing of the checksum pass, the Integrity Verifier raises that
    error right after the pass: the line is neither skipped nor passed
    through, and no report is written. *)
Theorem malformed_line_raises (line : string) :
  ~ occurs ") " line ->
  _strip_action_prefix line = Raise (ValueError "substring not found") /\
  forall (World : Type) (os : OS World) (lg : Logger) (src dest : Path)
         (modified : list string) (conflict_file : option Path)
         (w w1 : World) (out : string) (t1 : list Event),
    _run_rsync os lg ["-c"] src dest true w = (Ok out, w1, t1) ->
    line ∈ modified \/ line ∈ py_splitlines out ->
    _verify_integrity os lg src dest modified conflict_file w
    = (Raise (ValueError "substring not found"), w1, t1) /\
    files_opened t1 = [].
Proof.
  intros Hbad. split; [by apply strip_not_occurs|].
  intros World os lg src dest modified conflict_file w w1 out t1 Hrun Hin.
  split.
  - unfold _verify_integrity. unfold bind at 1. rewrite Hrun. cbv zeta.
    rewrite lift_twice. fold (conflicting_items modified (py_splitlines out)).
    rewrite (conflicting_items_malformed _ _ line); [|by apply elem_of_app|done].
    by rewrite app_nil_r.
  - pose proof (_run_rsync_step os lg ["-c"] src dest true w) as V.
    rewrite Hrun in V. invert_steps. by read_trace.
Qed.

(** The theorem at work: a bare file name in the modified list. *)
Lemma malformed_line_raises_example :
  let o := _run_rsync scripted_os [] ["-c"] "/data/src" "/mnt/backup" true
             (demo_world [(0%Z, checksum_listing)]) in
  ~ occurs ") " "notes.txt" /\
  o = (Ok checksum_listing, world o, trace o) /\
  _strip_action_prefix "notes.txt" = Raise (ValueError "substring not found") /\
  _verify_integrity scripted_os [] "/data/src" "/mnt/backup" ["notes.txt"] None
    (demo_world [(0%Z, checksum_listing)])
  = (Raise (ValueError "substring not found"), world o, trace o).
Proof.
  intros o.
  assert (B : ~ occurs ") " "notes.txt") by (apply index0_None; reflexivity).
  assert (E : o = (Ok checksum_listing, world o, trace o))
    by (vm_compute; reflexivity).
  split; [exact B|]. split; [exact E|].
  split; [exact (proj1 (malformed_line_raises "notes.txt" B))|].
  exact (proj1 (proj2 (malformed_line_raises "notes.txt" B) _ scripted_os []
           "/data/src" "/mnt/backup" ["notes.txt"] None _ _ _ _ E
           (or_introl (list_elem_of_here _ _)))).
Defined.

(** ** The files a step touches *)

Ltac appended_ok :=
  read_trace;
  repeat first
    [ apply Forall_nil_2
    | apply files_appended_says
    | apply Forall_app; split ].

Section Files.
Context {World : Type} (os : OS World).

Lemma rsync_step_files lg args src dest dry_run w r w' t :
  rsync_step os lg args src dest dry_run w (r, w', t) ->
  files_opened t = [] /\ Forall (fun f => f ∈ lg) (files_appended t).
Proof. intros H. invert_steps; (split; [by read_trace|appended_ok]). Qed.

Lemma write_step_files p1 p2 content w r w' t :
  write_step os p1 p2 content w (r, w', t) ->
  Forall (fun p => p = p1 \/ p = p2) (files_opened t) /\ files_appended t = [].
Proof.
  intros H. invert_steps; (split; [|done]); read_trace; build_forall; auto.
Qed.

Lemma check_step_files lg src dest modified_file w r w' t :
  check_step os lg src dest modified_file w (r, w', t) ->
  Forall (fun p => p = log_path modified_log modified_file src
                   \/ p = log_path modified_log modified_file dest)
    (files_opened t) /\
  Forall (fun f => f ∈ lg) (files_appended t).
Proof.
  intros H. invert_step H;
    repeat match goal with
    | H : rsync_step _ _ _ _ _ _ _ _ |- _ =>
        apply rsync_step_files in H as [? ?]
    | H : write_step _ _ _ _ _ _ |- _ =>
        apply write_step_files in H as [? ?]
    end;
    (split; [read_trace|appended_ok]);
    repeat match goal with H : _ = _ |- _ => rewrite H end;
    cbn [app]; auto.
Qed.

Lemma verify_step_files lg src dest modified conflict_file w r w' t :
  verify_step os lg src dest modified conflict_file w (r, w', t) ->
  Forall (fun p => p = log_path conflicts_log conflict_file src
                   \/ p = log_path conflicts_log conflict_file dest)
    (files_opened t) /\
  Forall (fun f => f ∈ lg) (files_appended t).
Proof.
  intros H. invert_step H;
    repeat match goal with
    | H : rsync_step _ _ _ _ _ _ _ _ |- _ =>
        apply rsync_step_files in H as [? ?]
    | H : write_step _ _ _ _ _ _ |- _ =>
        apply write_step_files in H as [? ?]
    end;
    (split; [read_trace|appended_ok]);
    repeat match goal with H : _ = _ |- _ => rewrite H end;
    cbn [app]; auto.
Qed.

Lemma logging_ready_handlers logfile w lg w0 :
  logging_ready os logfile w lg w0 ->
  forall f, f ∈ lg -> logfile = Some f.
Proof.
  destruct logfile as [g|]; intros [-> _] f Hf.
  - by apply list_elem_of_singleton in Hf as ->.
  - by apply elem_of_nil in Hf.
Qed.

Lemma main_step_files src dest dry_run force logfile conflict_file
    modified_file verify_integrity w r w' t :
  main_step os src dest dry_run force logfile conflict_file modified_file
    verify_integrity w (r, w', t) ->
  Forall (fun p => p = log_path modified_log modified_file src
                   \/ p = log_path modified_log modified_file dest
                   \/ p = log_path conflicts_log conflict_file src
                   \/ p = log_path conflicts_log conflict_file dest)
    (files_opened t) /\
  Forall (fun p => logfile = Some p) (files_appended t).
Proof.
  intros H. invert_step H.
  { split; cbn [files_opened files_appended]; repeat constructor. }
  all: match goal with H : logging_ready _ _ _ _ _ |- _ =>
         pose proof (logging_ready_handlers _ _ _ _ H) as Hlg; clear H end.
  all: repeat match goal with
       | H : rsync_step _ _ _ _ _ _ _ _ |- _ =>
           apply rsync_step_files in H as [? ?]
       | H : check_step _ _ _ _ _ _ _ |- _ =>
           apply check_step_files in H as [? ?]
       | H : verify_step _ _ _ _ _ _ _ _ |- _ =>
           apply verify_step_files in H as [? ?]
       end.
  all: split.
  all: read_trace; repeat (apply Forall_app; split).
  all: try apply files_appended_setup.
  all: try (eapply Forall_impl; [eassumption|]; cbv beta; tauto).
  all: try (eapply Forall_impl; [eassumption|]; auto).
  all: repeat match goal with H : _ = [] |- _ => rewrite H end; try constructor.
Qed.
End Files.

(** C6, as stated, fails: with a log file, the override paths are not
    the only files the run writes.  Every log record, and so the listing
    of the tool itself, is appended to the log file. *)
Lemma log_file_receives_listing :
  let o := main scripted_os "/data/src" "/mnt/backup" false false
             (Some "/tmp/run.log") (Some "/tmp/conflicts.txt")
             (Some "/tmp/modified.txt") true
             (demo_world [(0%Z, quick_listing); (0%Z, checksum_listing)]) in
  result o = Ok 0%Z /\
  EAppend "/tmp/run.log" (quick_listing +:+ LF) ∈ trace o /\
  (files (world o)).*1
  = ["/tmp/run.log"; "/tmp/modified.txt"; "/tmp/conflicts.txt"].
Proof.
  intros o. split; [vm_compute; reflexivity|]. split; [|vm_compute; reflexivity].
  vm_compute. do 6 right. by left.
Qed.

(** C6, amended.  With override paths, the only file the checker opens
    for writing is the modified override and the only file the verifier
    opens for writing is the conflict override, whatever happens, and a
    whole run opens no other file for writing; when a step completes,
    its override has received the list (twice).  No report file at a
    default place is opened besides.  The one other file touched is the
    file of [--logfile], if any, to which the records are appended. *)
Theorem override_paths_only {World : Type} (os : OS World)
    (src dest mf cf : Path) :
  (forall lg w,
      let t := trace (_check_modified os lg src dest (Some mf) w) in
      Forall (eq mf) (files_opened t) /\
      Forall (fun p => p ∈ lg) (files_appended t)) /\
  (forall lg modified w,
      let t := trace (_verify_integrity os lg src dest modified (Some cf) w) in
      Forall (eq cf) (files_opened t) /\
      Forall (fun p => p ∈ lg) (files_appended t)) /\
  (forall dry_run force logfile verify_integrity w,
      let t := trace (main os src dest dry_run force logfile (Some cf) (Some mf)
                        verify_integrity w) in
      Forall (fun p => p = mf \/ p = cf) (files_opened t) /\
      Forall (fun p => logfile = Some p) (files_appended t)) /\
  (forall lg w lines w' t,
      _check_modified os lg src dest (Some mf) w = (Ok lines, w', t) ->
      exists content, files_written t = [(mf, content); (mf, content)]) /\
  (forall lg modified w w' t,
      _verify_integrity os lg src dest modified (Some cf) w = (Ok tt, w', t) ->
      exists content, files_written t = [(cf, content); (cf, content)]).
Proof.
  split; [|split; [|split; [|split]]].
  - intros lg w t. subst t.
    pose proof (_check_modified_step os lg src dest (Some mf) w) as V.
    destruct (_check_modified os lg src dest (Some mf) w) as [[r w'] t].
    apply check_step_files in V as [Ho Ha]. split; [|done].
    eapply Forall_impl; [exact Ho|]. by intros p [->| ->].
  - intros lg modified w t. subst t.
    pose proof (_verify_integrity_step os lg src dest modified (Some cf) w) as V.
    destruct (_verify_integrity os lg src dest modified (Some cf) w)
      as [[r w'] t].
    apply verify_step_files in V as [Ho Ha]. split; [|done].
    eapply Forall_impl; [exact Ho|]. by intros p [->| ->].
  - intros dry_run force logfile verify_integrity w t. subst t.
    pose proof (main_main_step os src dest dry_run force logfile (Some cf)
                  (Some mf) verify_integrity w) as V.
    destruct (main os src dest dry_run force logfile (Some cf) (Some mf)
                verify_integrity w) as [[r w'] t].
    apply main_step_files in V as [Ho Ha]. split; [|done].
    eapply Forall_impl; [exact Ho|]. intros p [->|[->|[->| ->]]]; auto.
  - intros lg w lines w' t H.
    destruct (check_modified_ok os _ _ _ _ _ _ _ _ H) as (out & _ & _ & Hf).
    by exists out.
  - intros lg modified w w' t H.
    destruct (verify_integrity_ok os _ _ _ _ _ _ _ _ H)
      as (out & items & _ & _ & Hf).
    by exists (py_join LF items).
Qed.

(** The theorem at work: the override receives the modified list. *)
Lemma override_paths_only_example :
  let o := _check_modified scripted_os ["/tmp/run.log"] "/data/src"
             "/mnt/backup" (Some "/tmp/modified.txt")
             (demo_world [(0%Z, quick_listing)]) in
  o = (Ok ["(>f.st...... ) notes.txt"], world o, trace o) /\
  exists content,
    files_written (trace o) =
      [("/tmp/modified.txt", content); ("/tmp/modified.txt", content)].
Proof.
  intros o.
  assert (E : o = (Ok ["(>f.st...... ) notes.txt"], world o, trace o))
    by (vm_compute; reflexivity).
  split; [exact E|].
  exact (proj1 (proj2 (proj2 (proj2
           (override_paths_only scripted_os "/data/src" "/mnt/backup"
              "/tmp/modified.txt" "/tmp/conflicts.txt"))))
           _ _ _ _ _ E).
Defined.

(** ** Failures of the external tool *)

Lemma no_failure_final (x : option Exception) (t : list Event) :
  Forall (fun e => ~ run_failed e) t -> failure_is_final x t.
Proof.
  intros H pre cmd rc out post -> Hrc.
  apply Forall_app in H as [_ H]. apply Forall_cons in H as [H _].
  by destruct H.
Qed.

Lemma failure_final_app (x : option Exception) (t1 t2 : list Event) :
  Forall (fun e => ~ run_failed e) t1 ->
  failure_is_final x t2 ->
  failure_is_final x (t1 ++ t2).
Proof.
  intros H1 H2 pre cmd rc out post E Hrc.
  apply app_eq_inv in E as [(k & -> & E)|(k & -> & ->)].
  - destruct k as [|e k].
    + by apply (H2 [] cmd rc out post).
    + injection E as <- ->. apply Forall_app in H1 as [_ H1].
      apply Forall_cons in H1 as [H1 _]. by destruct H1.
  - by apply (H2 k cmd rc out post).
Qed.

Lemma failed_run_final (cmd : list string) (rc : Z) (out : string) :
  failure_is_final (Some (CalledProcessError rc cmd)) [ERun cmd rc out].
Proof.
  intros pre cmd' rc' out' post E Hrc.
  destruct pre as [|e1 pre]; simplify_eq/=; [done|]. by destruct pre.
Qed.

Lemma no_failure_setup (logfile : option Path) :
  Forall (fun e => ~ run_failed e) (setup_trace logfile).
Proof. destruct logfile; repeat constructor; auto. Qed.

Create HintDb failures.
#[export] Hint Resolve no_failure_says no_failure_setup : failures.

Ltac no_failure :=
  repeat first
    [ apply Forall_app; split
    | apply Forall_nil_2
    | apply Forall_cons; split; [cbn [run_failed]; auto; lia|]
    | solve [auto with failures] ].

Lemma settled_clean {World A} (r : Result A) (w' : World) t :
  Forall (fun e => ~ run_failed e) t -> settled (r, w', t).
Proof. intros H. split; [by apply no_failure_final|done]. Qed.

Lemma settled_app {World A B} (r1 : Result A) (r : Result B) (w1 w' : World)
    t1 t2 :
  settled (r1, w1, t1) -> raised r1 = None ->
  settled (r, w', t2) ->
  settled (r, w', t1 ++ t2).
Proof.
  intros [_ H1] Hok [H2 H3]. specialize (H1 Hok). split.
  - by apply failure_final_app.
  - intros Hr. apply Forall_app. auto.
Qed.

Lemma settled_after_clean {World B} (r : Result B) (w' : World) t1 t2 :
  Forall (fun e => ~ run_failed e) t1 ->
  settled (r, w', t2) ->
  settled (r, w', t1 ++ t2).
Proof.
  intros H1 [H2 H3]. split.
  - by apply failure_final_app.
  - intros Hr. apply Forall_app. auto.
Qed.

(** Only the exception and the trace matter. *)
Lemma settled_raise {World A B} (e : Exception) (w1 w' : World) t :
  settled (Raise (A := A) e, w1, t) -> settled (Raise (A := B) e, w', t).
Proof. intros [H1 H2]. by split. Qed.

Lemma settled_ok {World A B} (a : A) (b : B) (w1 w' : World) t :
  settled (Ok a, w1, t) -> settled (Ok b, w', t).
Proof. intros [H1 H2]. by split. Qed.

Section Failures.
Context {World : Type} (os : OS World).

Lemma rsync_step_settled lg args src dest dry_run w o :
  rsync_step os lg args src dest dry_run w o -> settled o.
Proof.
  intros H. invert_steps; try solve [apply settled_clean; no_failure].
  apply settled_after_clean; [no_failure|].
  split; [|done]. apply failed_run_final.
Qed.

Lemma write_step_settled p1 p2 content w o :
  write_step os p1 p2 content w o -> settled o.
Proof. intros H. invert_steps; apply settled_clean; no_failure. Qed.

Lemma check_step_settled lg src dest modified_file w o :
  check_step os lg src dest modified_file w o -> settled o.
Proof.
  intros H. invert_step H.
  - eapply settled_raise. by eapply rsync_step_settled.
  - eapply settled_app; [by eapply rsync_step_settled|done|].
    apply settled_after_clean; [no_failure|].
    eapply settled_raise. by eapply write_step_settled.
  - eapply settled_app; [by eapply rsync_step_settled|done|].
    apply settled_after_clean; [no_failure|].
    eapply settled_ok. by eapply write_step_settled.
Qed.

Lemma verify_step_settled lg src dest modified conflict_file w o :
  verify_step os lg src dest modified conflict_file w o -> settled o.
Proof.
  intros H. invert_step H.
  - eapply settled_raise. by eapply rsync_step_settled.
  - match goal with H : rsync_step _ _ _ _ _ _ _ _ |- _ =>
      apply rsync_step_settled in H as [_ Hclean] end.
    apply settled_clean. by apply Hclean.
  - eapply settled_app; [by eapply rsync_step_settled|done|].
    apply settled_after_clean; [no_failure|].
    by eapply write_step_settled.
  - eapply settled_app; [by eapply rsync_step_settled|done|].
    apply settled_after_clean; [no_failure|].
    by eapply write_step_settled.
Qed.

Lemma main_step_settled src dest dry_run force logfile conflict_file
    modified_file verify_integrity w o :
  main_step os src dest dry_run force logfile conflict_file modified_file
    verify_integrity w o ->
  settled o.
Proof.
  intros H. invert_step H;
    [apply settled_clean; no_failure|..];
    (apply settled_after_clean; [no_failure|]).
  - eapply settled_raise. by eapply check_step_settled.
  - eapply settled_app; [by eapply check_step_settled|done|].
    eapply settled_raise. by eapply verify_step_settled.
  - eapply settled_app; [by eapply check_step_settled|done|].
    eapply settled_ok. by eapply verify_step_settled.
  - eapply settled_raise. by eapply rsync_step_settled.
  - eapply settled_app; [by eapply rsync_step_settled|done|].
    eapply settled_raise. by eapply check_step_settled.
  - eapply settled_app; [by eapply rsync_step_settled|done|].
    eapply settled_ok. by eapply check_step_settled.
Qed.
End Failures.

(** ** The processes of a whole run *)

Lemma ends_with_sep_append (p : Path) : ends_with_sep (p +:+ "/") = true.
Proof.
  unfold ends_with_sep. rewrite length_append.
  replace (String.length p + String.length "/") with (S (String.length p))
    by (simpl; lia).
  replace (String.length p) with (String.length p + 0) at 1 by lia.
  by rewrite py_slice_from_append.
Qed.

Lemma rsync_command_paths (args : list string) (src dest : Path) (dry : bool) :
  ends_with_paths src dest (rsync_command args src dest dry).
Proof.
  exists (("rsync" :: _RSYNC_FLAGS) ++ args
            ++ (if dry then ["--dry-run"] else [])),
    (src +:+ "/"), (dest +:+ "/").
  split; [|by rewrite !ends_with_sep_append].
  unfold rsync_command. by rewrite <- !app_assoc.
Qed.

Lemma rsync_command_dry (args : list string) (src dest : Path) :
  "--dry-run" ∈ rsync_command args src dest true.
Proof.
  unfold rsync_command. rewrite !elem_of_app. right. right. left. by left.
Qed.

Section Runs.
Context {World : Type} (os : OS World).

Lemma rsync_step_commands lg args src dest dry_run w r w' t :
  rsync_step os lg args src dest dry_run w (r, w', t) ->
  Forall (eq (rsync_command args src dest dry_run)) (commands_run t).
Proof. intros H. invert_steps; read_trace; by build_forall. Qed.

Lemma main_step_commands src dest dry_run force logfile conflict_file
    modified_file verify_integrity w r w' t :
  main_step os src dest dry_run force logfile conflict_file modified_file
    verify_integrity w (r, w', t) ->
  commands_run t `prefix_of`
    [first_command src dest dry_run force verify_integrity;
     second_command src dest verify_integrity].
Proof.
  intros H. unfold first_command, second_command.
  invert_steps; read_trace; unfold propagate_args;
    try destruct verify_integrity; solve_prefix.
Qed.

Lemma main_step_command_forms src dest dry_run force logfile conflict_file
    modified_file verify_integrity w r w' t :
  main_step os src dest dry_run force logfile conflict_file modified_file
    verify_integrity w (r, w', t) ->
  Forall (fun cmd => exists args dry,
              cmd = rsync_command args src dest dry /\
              (verify_integrity = true -> dry = true))
    (commands_run t).
Proof.
  intros H. invert_steps; read_trace; build_forall;
    do 2 eexists; (split; [reflexivity|done]).
Qed.

Lemma main_step_ok src dest dry_run force logfile conflict_file
    modified_file verify_integrity w n w' t :
  main_step os src dest dry_run force logfile conflict_file modified_file
    verify_integrity w (Ok n, w', t) ->
  n = 0%Z /\
  exists out1 out2,
    processes_run t =
      [(first_command src dest dry_run force verify_integrity, 0%Z, out1);
       (second_command src dest verify_integrity, 0%Z, out2)] /\
    if verify_integrity then
      exists items,
        conflicting_items (py_splitlines out1) (py_splitlines out2) = Ok items /\
        files_written t =
          [(log_path modified_log modified_file src, out1);
           (log_path modified_log modified_file dest, out1);
           (log_path conflicts_log conflict_file src, py_join LF items);
           (log_path conflicts_log conflict_file dest, py_join LF items)]
    else
      files_written t =
        [(log_path modified_log modified_file src, out2);
         (log_path modified_log modified_file dest, out2)].
Proof.
  intros H. unfold first_command, second_command.
  invert_steps; (split; [done|]).
  - do 2 eexists. split; [read_trace; reflexivity|].
    eexists. split; [eassumption|]. by read_trace.
  - do 2 eexists. split; [read_trace; reflexivity|]. by read_trace.
Qed.
End Runs.

(** ** The claims about a whole run *)

(** C2. A run is a sequence of two steps fixed by the mode alone.  The
    commands run are always a prefix of the two commands of the mode (no
    other command, no repetition), and when [main] returns, it returns 0
    after exactly these two runs: with integrity verification, the
    modification check (dry run, no extra flag) and the checksum pass
    (dry run, [-c]), whose report is computed from the lines the
    modification check returned; otherwise the propagation
    ([--ignore-existing] unless forced, no extra flag when forced) and
    the modification check. *)
Theorem main_two_step_sequence {World : Type} (os : OS World)
    (src dest : Path) (dry_run force : bool)
    (logfile conflict_file modified_file : option Path)
    (verify_integrity : bool) (w : World) :
  let o := main os src dest dry_run force logfile conflict_file modified_file
             verify_integrity w in
  let first :=
    if verify_integrity then rsync_command [] src dest true
    else rsync_command (if force then [] else ["--ignore-existing"])
           src dest dry_run in
  let second :=
    if verify_integrity then rsync_command ["-c"] src dest true
    else rsync_command [] src dest true in
  commands_run (trace o) `prefix_of` [first; second] /\
  forall n, result o = Ok n ->
    n = 0%Z /\
    exists out1 out2,
      processes_run (trace o) = [(first, 0%Z, out1); (second, 0%Z, out2)] /\
      if verify_integrity then
        exists items,
          conflicting_items (py_splitlines out1) (py_splitlines out2) = Ok items /\
          files_written (trace o) =
            [(log_path modified_log modified_file src, out1);
             (log_path modified_log modified_file dest, out1);
             (log_path conflicts_log conflict_file src, py_join LF items);
             (log_path conflicts_log conflict_file dest, py_join LF items)]
      else
        files_written (trace o) =
          [(log_path modified_log modified_file src, out2);
           (log_path modified_log modified_file dest, out2)].
Proof.
  intros o first second.
  pose proof (main_main_step os src dest dry_run force logfile conflict_file
                modified_file verify_integrity w) as V.
  fold o in V. destruct o as [[r w'] t]. unfold result, trace; cbn [fst snd].
  split.
  - by apply (main_step_commands os) in V.
  - intros n ->. by apply (main_step_ok os) in V.
Qed.

(** The theorem at work on a verification run. *)
Lemma main_two_step_sequence_example :
  let o := main scripted_os "/data/src" "/mnt/backup" false false None None
             None true
             (demo_world [(0%Z, quick_listing); (0%Z, checksum_listing)]) in
  result o = Ok 0%Z /\
  exists out1 out2,
    processes_run (trace o) =
      [(rsync_command [] "/data/src" "/mnt/backup" true, 0%Z, out1);
       (rsync_command ["-c"] "/data/src" "/mnt/backup" true, 0%Z, out2)] /\
    exists items,
      conflicting_items (py_splitlines out1) (py_splitlines out2) = Ok items /\
      files_written (trace o) =
        [(modified_log "/data/src", out1); (modified_log "/mnt/backup", out1);
         (conflicts_log "/data/src", py_join LF items);
         (conflicts_log "/mnt/backup", py_join LF items)].
Proof.
  intros o.
  assert (E : result o = Ok 0%Z) by (vm_compute; reflexivity).
  split; [exact E|].
  exact (proj2 (proj2 (main_two_step_sequence scripted_os "/data/src"
                         "/mnt/backup" false false None None None true
                         (demo_world [(0%Z, quick_listing);
                                      (0%Z, checksum_listing)]))
                  0%Z E)).
Defined.

(** C7. Every command the Sync Invoker runs ends with the source and
    the destination path, each with a trailing separator; the tool is
    run to completion before anything else happens, and when it exits
    with a status other than 0 the invocation raises
    [CalledProcessError], nothing more happens in the whole run, and the
    process ends with a non-zero status. *)
Theorem sync_invoker_paths_and_failure {World : Type} (os : OS World)
    (src dest : Path) :
  (forall lg args dry_run w,
      let o := _run_rsync os lg args src dest dry_run w in
      Forall (ends_with_paths src dest) (commands_run (trace o)) /\
      forall pre cmd rc out post,
        trace o = pre ++ ERun cmd rc out :: post ->
        rc <> 0%Z ->
        post = [] /\ result o = Raise (CalledProcessError rc cmd)) /\
  (forall dry_run force logfile conflict_file modified_file verify_integrity w,
      let o := main os src dest dry_run force logfile conflict_file
                 modified_file verify_integrity w in
      Forall (ends_with_paths src dest) (commands_run (trace o)) /\
      forall pre cmd rc out post,
        trace o = pre ++ ERun cmd rc out :: post ->
        rc <> 0%Z ->
        post = [] /\ result o = Raise (CalledProcessError rc cmd) /\
        exit_status (result o) = 1%Z).
Proof.
  split.
  - intros lg args dry_run w o.
    pose proof (_run_rsync_step os lg args src dest dry_run w) as V.
    fold o in V. destruct o as [[r w'] t]. unfold result, trace; cbn [fst snd].
    split.
    + eapply Forall_impl; [by eapply rsync_step_commands|].
      intros cmd <-. apply rsync_command_paths.
    + intros pre cmd rc out post E Hrc.
      apply (rsync_step_settled os) in V as [V _].
      destruct (V _ _ _ _ _ E Hrc) as [-> Hr]. split; [done|].
      unfold result in Hr; cbn in Hr. by destruct r; simplify_eq/=.
  - intros dry_run force logfile conflict_file modified_file verify_integrity
      w o.
    pose proof (main_main_step os src dest dry_run force logfile conflict_file
                  modified_file verify_integrity w) as V.
    fold o in V. destruct o as [[r w'] t]. unfold result, trace; cbn [fst snd].
    split.
    + eapply Forall_impl; [by eapply main_step_command_forms|].
      intros cmd (args & dry & -> & _). apply rsync_command_paths.
    + intros pre cmd rc out post E Hrc.
      apply (main_step_settled os) in V as [V _].
      destruct (V _ _ _ _ _ E Hrc) as [-> Hr].
      unfold result in Hr; cbn in Hr. by destruct r; simplify_eq/=.
Qed.

(** The theorem at work: the tool exits with status 23 in the first
    step of a run. *)
Lemma sync_invoker_failure_example :
  let o := main scripted_os "/data/src" "/mnt/backup" false false None None
             None false (demo_world [(23%Z, "")]) in
  let cmd := rsync_command ["--ignore-existing"] "/data/src" "/mnt/backup"
               false in
  trace o
  = [EBasicConfig; ELog DEBUG "Running rsync: %s" [AStr (py_join " " cmd)]]
      ++ ERun cmd 23 "" :: [] /\
  23%Z <> 0%Z /\
  result o = Raise (CalledProcessError 23 cmd) /\
  exit_status (result o) = 1%Z.
Proof.
  intros o cmd.
  assert (E : trace o
              = [EBasicConfig;
                 ELog DEBUG "Running rsync: %s" [AStr (py_join " " cmd)]]
                  ++ ERun cmd 23 "" :: [])
    by (vm_compute; reflexivity).
  assert (N : 23%Z <> 0%Z) by lia.
  split; [exact E|]. split; [exact N|].
  exact (proj2 (proj2 (proj2 (sync_invoker_paths_and_failure scripted_os
                  "/data/src" "/mnt/backup") false false None None None false
                  (demo_world [(23%Z, "")])) _ _ _ _ _ E N)).
Defined.

Section Directories.
Context {World : Type} (os : OS World).

Lemma _run_rsync_not_a_directory lg args src dest dry_run w :
  is_dir os src w = false \/ is_dir os dest w = false ->
  let bad := if is_dir os src w then dest else src in
  _run_rsync os lg args src dest dry_run w
  = (Raise (ValueError (not_a_directory bad)),
     says_world os lg (abort_note bad) w, says_trace lg (abort_note bad)).
Proof.
  intros Hbad bad. subst bad.
  pose proof (_run_rsync_step os lg args src dest dry_run w) as V.
  destruct (_run_rsync os lg args src dest dry_run w) as [[r w'] t].
  invert_steps;
    repeat match goal with H : is_dir _ _ _ = _ |- _ => rewrite H in * end;
    try done; by destruct Hbad.
Qed.
End Directories.

(** C8. When the source or the destination is not a directory, the
    Sync Invoker logs a critical record and raises [ValueError] with a
    message that names the path, without running the tool or writing a
    report; a whole run that has set up its logging and finds the
    directories so ends there, and the process ends with status 1. *)
Theorem not_a_directory_aborts {World : Type} (os : OS World) (lg : Logger)
    (src dest : Path) (w : World) :
  is_dir os src w = false \/ is_dir os dest w = false ->
  let bad := if is_dir os src w then dest else src in
  let record := ELog CRITICAL "Path `%s` is not a directory" [AStr bad] in
  let error := ValueError ("Path `" +:+ bad +:+ "` is not a directory") in
  (forall args dry_run,
      let o := _run_rsync os lg args src dest dry_run w in
      result o = Raise error /\ record ∈ trace o /\
      processes_run (trace o) = [] /\ files_opened (trace o) = []) /\
  (forall dry_run force logfile conflict_file modified_file verify_integrity w0,
      logging_ready os logfile w0 lg w ->
      let o := main os src dest dry_run force logfile conflict_file
                 modified_file verify_integrity w0 in
      result o = Raise error /\ record ∈ trace o /\
      processes_run (trace o) = [] /\ files_opened (trace o) = [] /\
      exit_status (result o) = 1%Z).
Proof.
  intros Hbad bad record error.
  pose proof (fun args dry_run =>
    _run_rsync_not_a_directory os lg args src dest dry_run w Hbad) as R.
  cbv zeta in R. fold bad in R.
  assert (Hrec : record ∈ says_trace lg (abort_note bad))
    by exact (says_trace_head lg
                {| note_level := CRITICAL;
                   note_msg := "Path `%s` is not a directory";
                   note_args := [AStr bad] |} []).
  split.
  - intros args dry_run o. subst o. rewrite R.
    unfold result, trace; cbn [fst snd]. by read_trace.
  - intros dry_run force logfile conflict_file modified_file verify_integrity
      w0 Hready o.
    assert (M : o = (Raise error, says_world os lg (abort_note bad) w,
                     setup_trace logfile ++ says_trace lg (abort_note bad))).
    { subst o. unfold main.
      rewrite (main_setup os logfile (fun lg =>
        if verify_integrity then
          modified <- _check_modified os lg src dest modified_file ;;
          _verify_integrity os lg src dest modified conflict_file
        else
          (if force
           then _update_all_files os lg src dest dry_run
           else _sync_new_files os lg src dest dry_run) ;;;
          _check_modified os lg src dest modified_file ;;;
          ret tt)).
      assert (B : forall lg0 w1, lg0 = lg -> w1 = w ->
        (if verify_integrity then
           modified <- _check_modified os lg0 src dest modified_file ;;
           _verify_integrity os lg0 src dest modified conflict_file
         else
           (if force
            then _update_all_files os lg0 src dest dry_run
            else _sync_new_files os lg0 src dest dry_run) ;;;
           _check_modified os lg0 src dest modified_file ;;;
           ret tt) w1
        = (Raise error, says_world os lg (abort_note bad) w,
           says_trace lg (abort_note bad))).
      { intros lg0 w1 -> ->. destruct verify_integrity.
        - unfold bind at 1. unfold _check_modified. unfold bind at 1.
          by rewrite R.
        - assert (P : (if force then _update_all_files os lg src dest dry_run
                       else _sync_new_files os lg src dest dry_run)
                      = (_run_rsync os lg (propagate_args force) src dest
                           dry_run ;;; ret tt)) by by destruct force.
          rewrite P. unfold bind at 1. unfold bind at 1. by rewrite R. }
      destruct logfile as [f|]; destruct Hready as [Hlg Hw].
      - rewrite Hw. by rewrite (B [f] w).
      - by rewrite (B [] w0). }
    rewrite M. unfold result, trace; cbn [fst snd].
    split; [done|]. split; [apply elem_of_app; by right|]. by read_trace.
Qed.

(** The theorem at work: a destination that does not exist. *)
Lemma not_a_directory_example :
  let w := demo_world [] in
  let record := ELog CRITICAL "Path `%s` is not a directory" [AStr "/mnt/nope"] in
  let o := main scripted_os "/data/src" "/mnt/nope" false false None None None
             true w in
  is_dir scripted_os "/mnt/nope" w = false /\
  logging_ready scripted_os None w [] w /\
  result o = Raise (ValueError "Path `/mnt/nope` is not a directory") /\
  record ∈ trace o /\
  processes_run (trace o) = [] /\ files_opened (trace o) = [] /\
  exit_status (result o) = 1%Z.
Proof.
  intros w record o.
  assert (D : is_dir scripted_os "/mnt/nope" w = false) by reflexivity.
  assert (L : logging_ready scripted_os None w [] w) by (split; reflexivity).
  split; [exact D|]. split; [exact L|].
  exact (proj2 (not_a_directory_aborts scripted_os [] "/data/src"
                  "/mnt/nope" w (or_intror D))
           false false None None None true w L).
Defined.

(** ** Verification runs propagate nothing *)

Section DryRuns.
Context {World : Type} (os : OS World).

Lemma rsync_step_replay lg args src dest w r w' t :
  dry_run_harmless os ->
  rsync_step os lg args src dest true w (r, w', t) ->
  replay_files os t w = w'.
Proof.
  intros D H.
  assert (forall rc out w0 w1,
            subprocess_run os (rsync_command args src dest true) w0
            = (rc, out, w1) -> w1 = w0) as Hsame.
  { intros rc out w0 w1 E.
    pose proof (D _ w0 (rsync_command_dry args src dest)) as Hd.
    by rewrite E in Hd. }
  invert_steps; rewrite ?replay_files_app, ?replay_files_says; try done.
  - cbn [replay_files]. symmetry.
    match goal with H : subprocess_run _ _ _ = _ |- _ =>
      apply (Hsame _ _ _ _ H) end.
  - cbn [replay_files]. rewrite replay_files_says. f_equal. symmetry.
    match goal with H : subprocess_run _ _ _ = _ |- _ =>
      apply (Hsame _ _ _ _ H) end.
Qed.

Lemma write_step_replay p1 p2 content w r w' t :
  write_step os p1 p2 content w (r, w', t) ->
  replay_files os t w = w'.
Proof.
  intros H. invert_steps; cbn [replay_files];
    repeat (match goal with H : write_text _ _ _ _ = _ |- _ =>
              rewrite H; clear H end; simpl); done.
Qed.

Lemma check_step_replay lg src dest modified_file w r w' t :
  dry_run_harmless os ->
  check_step os lg src dest modified_file w (r, w', t) ->
  replay_files os t w = w'.
Proof.
  intros D H. invert_step H;
    match goal with H : rsync_step _ _ _ _ _ _ _ _ |- _ =>
      apply (rsync_step_replay _ _ _ _ _ _ _ _ D) in H as Hr end;
    [done|..];
    rewrite !replay_files_app, Hr, replay_files_says;
    by eapply write_step_replay.
Qed.

Lemma verify_step_replay lg src dest modified conflict_file w r w' t :
  dry_run_harmless os ->
  verify_step os lg src dest modified conflict_file w (r, w', t) ->
  replay_files os t w = w'.
Proof.
  intros D H. invert_step H;
    match goal with H : rsync_step _ _ _ _ _ _ _ _ |- _ =>
      apply (rsync_step_replay _ _ _ _ _ _ _ _ D) in H as Hr end;
    [done|done|..];
    rewrite !replay_files_app, Hr, replay_files_says;
    by eapply write_step_replay.
Qed.

Lemma setup_replay logfile w lg w0 :
  logging_ready os logfile w lg w0 ->
  replay_files os (setup_trace logfile) w = w0.
Proof.
  destruct logfile as [f|]; intros [_ H]; cbn [setup_trace replay_files].
  - by rewrite H.
  - done.
Qed.

Lemma main_step_replay src dest dry_run force logfile conflict_file
    modified_file w r w' t :
  dry_run_harmless os ->
  main_step os src dest dry_run force logfile conflict_file modified_file
    true w (r, w', t) ->
  replay_files os t w = w'.
Proof.
  intros D H. invert_step H; [done|..];
    rewrite !replay_files_app;
    match goal with H : logging_ready _ _ _ _ _ |- _ =>
      rewrite (setup_replay _ _ _ _ H) end.
  - by eapply check_step_replay.
  - match goal with Hc : check_step _ _ _ _ _ _ _ |- _ =>
      rewrite (check_step_replay _ _ _ _ _ _ _ _ D Hc) end.
    by eapply verify_step_replay.
  - match goal with Hc : check_step _ _ _ _ _ _ _ |- _ =>
      rewrite (check_step_replay _ _ _ _ _ _ _ _ D Hc) end.
    by eapply verify_step_replay.
Qed.
End DryRuns.

(** C10, as stated, fails: the reports are not the only files a
    verification run writes.  With [--logfile] it also creates the log
    file and appends every record to it, here inside the source
    directory. *)
Lemma verify_run_writes_log_file :
  let o := main scripted_os "/data/src" "/mnt/backup" true true
             (Some "/data/src/run.log") None None true
             (demo_world [(0%Z, quick_listing); (0%Z, checksum_listing)]) in
  result o = Ok 0%Z /\
  (files (world o)).*1
  = ["/data/src/run.log";
     "/data/src/easy-rsync_modified.txt"; "/mnt/backup/easy-rsync_modified.txt";
     "/data/src/easy-rsync_conflicts.txt";
     "/mnt/backup/easy-rsync_conflicts.txt"].
Proof. by vm_compute. Qed.

(** C10, amended.  In verification mode, [--dry-run] and [--force]
    change nothing of a run; every command run carries [--dry-run]; the
    only files the run opens for writing are the two reports, each at
    its two places, and the only other file it touches is the file of
    [--logfile], if any, to which it appends; and, provided the tool run
    with [--dry-run] leaves the world as it is, the world after the run
    is the world before it with these writes and appends, and nothing
    else, applied. *)
Theorem verify_mode_only_dry_runs {World : Type} (os : OS World)
    (src dest : Path) (logfile conflict_file modified_file : option Path)
    (w : World) :
  (forall dry_run force dry_run' force',
      main os src dest dry_run force logfile conflict_file modified_file true w
      = main os src dest dry_run' force' logfile conflict_file modified_file
          true w) /\
  (forall dry_run force,
      let o := main os src dest dry_run force logfile conflict_file
                 modified_file true w in
      Forall (fun cmd => "--dry-run" ∈ cmd) (commands_run (trace o)) /\
      Forall (fun p => p ∈ [log_path modified_log modified_file src;
                            log_path modified_log modified_file dest;
                            log_path conflicts_log conflict_file src;
                            log_path conflicts_log conflict_file dest])
        (files_opened (trace o)) /\
      Forall (fun p => logfile = Some p) (files_appended (trace o)) /\
      ((forall cmd w0, "--dry-run" ∈ cmd -> (subprocess_run os cmd w0).2 = w0) ->
       world o = replay_files os (trace o) w)).
Proof.
  split; [done|]. intros dry_run force o.
  pose proof (main_main_step os src dest dry_run force logfile conflict_file
                modified_file true w) as V.
  fold o in V. destruct o as [[r w'] t].
  unfold world, trace in *; cbn [fst snd] in *.
  pose proof (main_step_files os _ _ _ _ _ _ _ _ _ _ _ _ V) as [Hopen Happ].
  split; [|split; [|split]].
  - eapply Forall_impl; [by eapply main_step_command_forms|].
    intros cmd (args & dry & -> & Hdry). rewrite (Hdry eq_refl).
    apply rsync_command_dry.
  - eapply Forall_impl; [exact Hopen|].
    intros p [->|[->|[->| ->]]]; rewrite !elem_of_cons; auto 10.
  - exact Happ.
  - intros D. symmetry. by eapply main_step_replay.
Qed.

(** The theorem at work: with a tool that only lists, a verification run
    changes the file store by its four report writes and nothing else. *)
Lemma verify_mode_example :
  let o := main listing_os "/data/src" "/mnt/backup" false true None None None
             true [] in
  (forall cmd w0, "--dry-run" ∈ cmd -> (subprocess_run listing_os cmd w0).2 = w0) /\
  world o = replay_files listing_os (trace o) [] /\
  world o =
    [(modified_log "/data/src", quick_listing);
     (modified_log "/mnt/backup", quick_listing);
     (conflicts_log "/data/src", "(>fc........ ) photo.jpg");
     (conflicts_log "/mnt/backup", "(>fc........ ) photo.jpg")].
Proof.
  intros o.
  assert (D : forall cmd w0,
             "--dry-run" ∈ cmd -> (subprocess_run listing_os cmd w0).2 = w0)
    by (intros; reflexivity).
  split; [exact D|]. split; [|vm_compute; reflexivity].
  exact (proj2 (proj2 (proj2 (proj2 (verify_mode_only_dry_runs listing_os
                  "/data/src" "/mnt/backup" None None None []) false true)))
           D).
Defined.

(** * Further properties of the script *)

#[export] Hint Rewrite
  records_at_app records_at_says records_at_setup
  writes_refused_app writes_refused_says writes_refused_setup
  handlers_refused_app handlers_refused_says handlers_refused_setup : trace.

Ltac read_records :=
  repeat (autorewrite with trace;
          cbn [records_at processes_run commands_run files_written
               files_opened files_appended app]).

Ltac read_refusals :=
  repeat (autorewrite with trace;
          cbn [writes_refused handlers_refused app]).

(** ** More on the Output Classifier *)

(** X1. Whenever the Output Classifier returns a path, the line was
    that path preceded by some text and [") "], and the text with its
    closing parenthesis holds no [") "]: the cut is at the first
    occurrence, and the result is the line less that text and the two
    characters. *)
Theorem strip_action_prefix_inversion (line path : string) :
  _strip_action_prefix line = Ok path ->
  exists before,
    line = before +:+ ") " +:+ path /\
    ~ occurs ") " (before +:+ ")") /\
    String.length line = String.length before + 2 + String.length path.
Proof.
  intros (before & -> & _ & Hmin)%strip_ok_split. exists before.
  split; [done|]. split.
  - intros (j & x & y & E & Hj).
    assert (occurs_at ") " (before +:+ ") " +:+ path) j) as Hocc.
    { exists x, (y +:+ " " +:+ path). split; [|done].
      change (") " +:+ path) with (")" +:+ " " +:+ path).
      rewrite <- (append_assoc before), E. by rewrite !append_assoc. }
    apply Hmin in Hocc.
    apply (f_equal String.length) in E. rewrite !length_append in E.
    simpl in E. lia.
  - rewrite !length_append. simpl. lia.
Qed.

(** The theorem at work on a line of the tool. *)
Lemma strip_action_prefix_inversion_example :
  _strip_action_prefix "(>f.st...... ) notes.txt" = Ok "notes.txt" /\
  exists before,
    "(>f.st...... ) notes.txt" = before +:+ ") " +:+ "notes.txt" /\
    ~ occurs ") " (before +:+ ")") /\
    String.length "(>f.st...... ) notes.txt"
    = String.length before + 2 + String.length "notes.txt".
Proof.
  assert (E : _strip_action_prefix "(>f.st...... ) notes.txt" = Ok "notes.txt")
    by reflexivity.
  split; [exact E|].
  exact (strip_action_prefix_inversion _ _ E).
Defined.

(** ** More on the conflict list *)

Lemma filter_sublist_impl {A} (P Q : A -> Prop)
    `{!forall x, Decision (P x)} `{!forall x, Decision (Q x)} (l : list A) :
  (forall x, x ∈ l -> P x -> Q x) ->
  filter P l `sublist_of` filter Q l.
Proof.
  induction l as [|x l IH]; intros Himp; [done|].
  assert (filter P l `sublist_of` filter Q l) as IH'.
  { apply IH. intros y Hy. apply Himp. by right. }
  rewrite !filter_cons.
  destruct (decide (P x)) as [Hp|Hp]; destruct (decide (Q x)) as [Hq|Hq].
  - by apply sublist_skip.
  - destruct Hq. apply Himp; [by left|done].
  - by apply sublist_cons.
  - done.
Qed.

Lemma filter_all {A} (P : A -> Prop) `{!forall x, Decision (P x)} (l : list A) :
  Forall P l -> filter P l = l.
Proof.
  induction 1 as [|x l Hx _ IH]; [done|]. by rewrite filter_cons_True, IH.
Qed.

Lemma filter_none {A} (P : A -> Prop) `{!forall x, Decision (P x)} (l : list A) :
  Forall (fun x => ~ P x) l -> filter P l = [].
Proof.
  induction 1 as [|x l Hx _ IH]; [done|]. by rewrite filter_cons_False, IH.
Qed.

Lemma filter_fmap_comm {A B} (f : A -> B) (P : B -> Prop)
    `{!forall x, Decision (P x)} (l : list A) :
  filter P (f <$> l) = f <$> filter (fun x => P (f x)) l.
Proof.
  induction l as [|x l IH]; [done|]. rewrite fmap_cons, !filter_cons, IH.
  by destruct (decide (P (f x))).
Qed.

Lemma filter_iff_in {A} (P Q : A -> Prop)
    `{!forall x, Decision (P x)} `{!forall x, Decision (Q x)} (l : list A) :
  (forall x, x ∈ l -> P x <-> Q x) -> filter P l = filter Q l.
Proof.
  induction l as [|x l IH]; intros Hiff; [done|].
  rewrite !filter_cons, IH by (intros y Hy; apply Hiff; by right).
  assert (P x <-> Q x) as Hx by (apply Hiff; by left).
  destruct (decide (P x)) as [Hp|Hp]; destruct (decide (Q x)) as [Hq|Hq];
    try done; tauto.
Qed.

(** X2. Reporting more paths as modified never adds a conflict: when
    every path of one modified list is also a path of a second one, the
    conflict list computed with the second is a sublist of the one
    computed with the first (same lines, same order, some left out). *)
Theorem more_modified_fewer_conflicts
    (modified modified' conflicts items items' : list string) :
  conflicting_items modified conflicts = Ok items ->
  conflicting_items modified' conflicts = Ok items' ->
  (forall m, m ∈ modified ->
     exists m', m' ∈ modified' /\
                _strip_action_prefix m' = _strip_action_prefix m) ->
  items' `sublist_of` items /\ forall c, c ∈ items' -> c ∈ items.
Proof.
  intros [-> _]%conflicting_items_ok [-> _]%conflicting_items_ok Hsub.
  assert (filter (fun c => _strip_action_prefix c
                             ∉ _strip_action_prefix <$> modified') conflicts
          `sublist_of`
          filter (fun c => _strip_action_prefix c
                             ∉ _strip_action_prefix <$> modified) conflicts)
    as S.
  { apply filter_sublist_impl. intros c _ Hc (m & E & Hm)%list_elem_of_fmap.
    destruct (Hsub m Hm) as (m' & Hm' & E'). apply Hc.
    rewrite E, <- E'. by apply list_elem_of_fmap_2. }
  split; [done|]. intros c Hc. by eapply elem_of_sublist.
Qed.

(** The theorem at work: a second modified list that also has
    [photo.jpg] leaves nothing to report. *)
Lemma more_modified_fewer_conflicts_example :
  let conflicts := ["(>fc........ ) notes.txt"; "(>fc........ ) photo.jpg"] in
  let modified := ["(>f.st...... ) notes.txt"] in
  let modified' := ["(>f..t...... ) photo.jpg"; "(>f.s....... ) notes.txt"] in
  conflicting_items modified conflicts = Ok ["(>fc........ ) photo.jpg"] /\
  conflicting_items modified' conflicts = Ok [] /\
  [] `sublist_of` ["(>fc........ ) photo.jpg"].
Proof.
  intros conflicts modified modified'.
  assert (E : conflicting_items modified conflicts
              = Ok ["(>fc........ ) photo.jpg"]) by (vm_compute; reflexivity).
  assert (E' : conflicting_items modified' conflicts = Ok [])
    by (vm_compute; reflexivity).
  split; [exact E|]. split; [exact E'|].
  refine (proj1 (more_modified_fewer_conflicts _ _ _ _ _ E E' _)).
  intros m ->%list_elem_of_singleton.
  exists "(>f.s....... ) notes.txt". split; [|reflexivity].
  right. left.
Defined.

(** X3. The modified list is used as a set: two lists with the same
    lines, in any order and any number of times, give the same result,
    be it a conflict list or the error of a line without action code. *)
Theorem modified_list_is_a_set (modified modified' conflicts : list string) :
  (forall m, m ∈ modified <-> m ∈ modified') ->
  conflicting_items modified conflicts = conflicting_items modified' conflicts.
Proof.
  intros Hsame.
  assert (forall a b items,
            (forall m, m ∈ a -> m ∈ b) ->
            conflicting_items b conflicts = Ok items ->
            exists items', conflicting_items a conflicts = Ok items') as Htotal.
  { intros a b items Hab [_ [Hb Hc]%Forall_app]%conflicting_items_ok.
    apply conflicting_items_total, Forall_app. split; [|done].
    rewrite Forall_forall in Hb. apply Forall_forall. auto. }
  destruct (conflicting_items modified conflicts) as [items|e] eqn:H;
    destruct (conflicting_items modified' conflicts) as [items'|e'] eqn:H'.
  - apply conflicting_items_ok in H as [-> _].
    apply conflicting_items_ok in H' as [-> _]. f_equal.
    apply list_filter_iff. intros c.
    rewrite !list_elem_of_fmap. split; intros Hn (m & E & Hm); apply Hn;
      exists m; (split; [done|]); by apply Hsame.
  - destruct (Htotal modified' modified items) as [? ?]; [|done|congruence].
    intros m. apply Hsame.
  - destruct (Htotal modified modified' items') as [? ?]; [|done|congruence].
    intros m. apply Hsame.
  - apply conflicting_items_raise in H as ->.
    by apply conflicting_items_raise in H' as ->.
Qed.

(** The theorem at work: a line given twice, and another order. *)
Lemma modified_list_is_a_set_example :
  let a := "(>f.st...... ) notes.txt" in
  let b := "(>f..t...... ) photo.jpg" in
  (forall m, m ∈ [a; b; a] <-> m ∈ [b; a]) /\
  conflicting_items [a; b; a] ["(>fc........ ) todo.txt"]
  = conflicting_items [b; a] ["(>fc........ ) todo.txt"].
Proof.
  intros a b.
  assert (S : forall m, m ∈ [a; b; a] <-> m ∈ [b; a]).
  { intros m. rewrite !elem_of_cons, elem_of_nil. tauto. }
  split; [exact S|].
  exact (modified_list_is_a_set _ _ _ S).
Defined.

(** ** The warnings of the two reports *)

Lemma splitlines_from_nil (cur s : string) :
  splitlines_from cur s = [] -> cur = "" /\ s = "".
Proof.
  revert cur. induction s as [|c s IH]; intros cur H.
  - simpl in H. by destruct cur.
  - cbn [splitlines_from] in H. destruct (is_linebreak c).
    + destruct s as [|c' s]; [done|]. by destruct (is_cr c && is_lf c').
    + apply IH in H as [H _]. by destruct cur.
Qed.

(** Only the empty text has no line. *)
Lemma py_splitlines_nil (s : string) : py_splitlines s = [] <-> s = "".
Proof.
  split; [|by intros ->]. by intros [_ ?]%splitlines_from_nil.
Qed.

Lemma notes_at_announce (level : Level) (cmd : list string) :
  notes_at level (announce cmd)
  = if decide (DEBUG = level)
    then [("Running rsync: %s", [AStr (py_join " " cmd)])] else [].
Proof. unfold notes_at, announce. rewrite filter_cons. by destruct (decide _). Qed.

Lemma notes_at_echo (level : Level) (out : string) :
  notes_at level (echo out)
  = if decide (DEBUG = level)
    then (if str_truthy out then [(out, [])] else []) else [].
Proof.
  unfold notes_at, echo. destruct (str_truthy out).
  - rewrite filter_cons. by destruct (decide _).
  - by destruct (decide _).
Qed.

Lemma notes_at_abort (level : Level) (p : Path) :
  notes_at level (abort_note p)
  = if decide (CRITICAL = level)
    then [("Path `%s` is not a directory", [AStr p])] else [].
Proof.
  unfold notes_at, abort_note. rewrite filter_cons. by destruct (decide _).
Qed.

Lemma notes_at_warning_announce (cmd : list string) :
  notes_at WARNING (announce cmd) = [].
Proof. done. Qed.

Lemma notes_at_warning_echo (out : string) :
  notes_at WARNING (echo out) = [].
Proof. by destruct out. Qed.

Lemma notes_at_warn_modified (out : string) :
  notes_at WARNING (warn_modified out)
  = match py_splitlines out with
    | [] => []
    | _ :: _ => [("Found %d files that have been modified",
                  [AInt (length (py_splitlines out))])]
    end.
Proof.
  unfold warn_modified. destruct out as [|c out]; [done|].
  cbn [str_truthy]. destruct (py_splitlines (String c out)) eqn:E; [|done].
  by apply py_splitlines_nil in E.
Qed.

Lemma notes_at_warn_bitrot (items : list string) :
  notes_at WARNING (warn_bitrot items)
  = match items with
    | [] => []
    | _ :: _ => [("Found %d files that have bitrot", [AInt (length items)])]
    end.
Proof. by destruct items. Qed.

(** The lines of the conflict report are the items kept. *)
Lemma report_lines (modified conflicts items : list string) :
  Forall (fun l => no_linebreak l = true) conflicts ->
  conflicting_items modified conflicts = Ok items ->
  py_splitlines (py_join LF items) = items.
Proof.
  intros Hlines [-> [_ Hwf]%Forall_app]%conflicting_items_ok.
  apply splitlines_join, Forall_forall.
  intros c [_ Hc]%list_elem_of_filter. split.
  - rewrite Forall_forall in Hlines. by apply Hlines.
  - rewrite Forall_forall in Hwf. intros ->. destruct (Hwf _ Hc) as [i Hi].
    by apply occurs_at_empty in Hi as [? _].
Qed.

Section Warnings.
Context {World : Type} (os : OS World).

Lemma check_modified_records lg src dest modified_file w lines w' t :
  _check_modified os lg src dest modified_file w = (Ok lines, w', t) ->
  exists out,
    lines = py_splitlines out /\
    files_written t =
      [(log_path modified_log modified_file src, out);
       (log_path modified_log modified_file dest, out)] /\
    records_at WARNING t = notes_at WARNING (warn_modified out).
Proof.
  intros H.
  pose proof (_check_modified_step os lg src dest modified_file w) as V.
  rewrite H in V. invert_steps. exists out. split; [done|].
  split; [by read_trace|]. read_records.
  rewrite notes_at_warning_announce, notes_at_warning_echo. cbn [app].
  by rewrite app_nil_r.
Qed.

Lemma verify_integrity_records lg src dest modified conflict_file w w' t :
  _verify_integrity os lg src dest modified conflict_file w = (Ok tt, w', t) ->
  exists out items,
    conflicting_items modified (py_splitlines out) = Ok items /\
    processes_run t = [(rsync_command ["-c"] src dest true, 0%Z, out)] /\
    files_written t =
      [(log_path conflicts_log conflict_file src, py_join LF items);
       (log_path conflicts_log conflict_file dest, py_join LF items)] /\
    records_at WARNING t = notes_at WARNING (warn_bitrot items).
Proof.
  intros H.
  pose proof (_verify_integrity_step os lg src dest modified conflict_file w)
    as V.
  rewrite H in V. invert_steps. exists out, items. split; [done|].
  split; [by read_trace|]. split; [by read_trace|]. read_records.
  rewrite notes_at_warning_announce, notes_at_warning_echo. cbn [app].
  by rewrite app_nil_r.
Qed.
End Warnings.

(** X4. When every line of the checksum pass has the path of a line of
    the modified list, the Integrity Verifier finds no conflict: both
    conflict reports are written empty and no warning is logged. *)
Theorem modified_paths_are_no_bitrot {World : Type} (os : OS World)
    (lg : Logger) (src dest : Path) (modified : list string)
    (conflict_file : option Path) (w w' : World) (t : list Event) :
  _verify_integrity os lg src dest modified conflict_file w = (Ok tt, w', t) ->
  (forall cmd rc out c,
      (cmd, rc, out) ∈ processes_run t -> c ∈ py_splitlines out ->
      _strip_action_prefix c ∈ _strip_action_prefix <$> modified) ->
  files_written t =
    [(log_path conflicts_log conflict_file src, "");
     (log_path conflicts_log conflict_file dest, "")] /\
  records_at WARNING t = [].
Proof.
  intros H Hall.
  destruct (verify_integrity_records os _ _ _ _ _ _ _ _ H)
    as (out & items & Hitems & Hrun & Hfiles & Hrec).
  apply conflicting_items_ok in Hitems as [Hitems _].
  assert (items = []) as ->.
  { rewrite Hitems. apply filter_none, Forall_forall. intros c Hc Hn.
    apply Hn. eapply Hall; [|done]. rewrite Hrun. by left. }
  by rewrite Hfiles, Hrec.
Qed.

(** The theorem at work: both files of the checksum pass are in the
    modified list. *)
Lemma modified_paths_are_no_bitrot_example :
  let modified := ["(>f.st...... ) notes.txt"; "(>f.st...... ) photo.jpg"] in
  let o := _verify_integrity scripted_os [] "/data/src" "/mnt/backup"
             modified None (demo_world [(0%Z, checksum_listing)]) in
  o = (Ok tt, world o, trace o) /\
  files_written (trace o) =
    [(conflicts_log "/data/src", ""); (conflicts_log "/mnt/backup", "")] /\
  records_at WARNING (trace o) = [].
Proof.
  intros modified o.
  assert (E : o = (Ok tt, world o, trace o)) by (vm_compute; reflexivity).
  split; [exact E|].
  refine (modified_paths_are_no_bitrot scripted_os [] "/data/src"
            "/mnt/backup" modified None _ _ _ E _).
  intros cmd rc out c Hrun Hc.
  assert (R : processes_run (trace o)
              = [(rsync_command ["-c"] "/data/src" "/mnt/backup" true, 0%Z,
                  checksum_listing)]) by (vm_compute; reflexivity).
  rewrite R in Hrun. apply list_elem_of_singleton in Hrun as [= _ _ ->].
  assert (L : py_splitlines checksum_listing
              = ["(>fc........ ) notes.txt"; "(>fc........ ) photo.jpg"])
    by (vm_compute; reflexivity).
  rewrite L in Hc.
  apply elem_of_cons in Hc as [->|Hc]; [by left|].
  apply list_elem_of_singleton in Hc as ->. right. by left.
Defined.

(** X5. When the Modification Checker completes, the list it returns
    is the lines of the report it wrote; it is empty exactly when the
    report is empty; and the warning is logged exactly when there is a
    line, once, with the number of lines as its count. *)
Theorem modified_warning_counts_lines {World : Type} (os : OS World)
    (lg : Logger) (src dest : Path) (modified_file : option Path)
    (w w' : World) (lines : list string) (t : list Event) :
  _check_modified os lg src dest modified_file w = (Ok lines, w', t) ->
  exists report,
    files_written t =
      [(log_path modified_log modified_file src, report);
       (log_path modified_log modified_file dest, report)] /\
    lines = py_splitlines report /\
    (lines = [] <-> report = "") /\
    records_at WARNING t =
      match lines with
      | [] => []
      | _ :: _ => [("Found %d files that have been modified",
                    [AInt (length lines)])]
      end.
Proof.
  intros H.
  destruct (check_modified_records os _ _ _ _ _ _ _ _ H)
    as (out & -> & Hfiles & Hrec).
  exists out. split; [done|]. split; [done|].
  split; [apply py_splitlines_nil|]. by rewrite Hrec, notes_at_warn_modified.
Qed.

(** The theorem at work: two lines, and the text of the warning. *)
Lemma modified_warning_example :
  let o := _check_modified scripted_os [] "/data/src" "/mnt/backup" None
             (demo_world [(0%Z, checksum_listing)]) in
  o = (Ok ["(>fc........ ) notes.txt"; "(>fc........ ) photo.jpg"],
       world o, trace o) /\
  records_at WARNING (trace o)
  = [("Found %d files that have been modified", [AInt 2])] /\
  record_text "Found %d files that have been modified" [AInt 2]
  = Some "Found 2 files that have been modified".
Proof.
  intros o.
  assert (E : o = (Ok ["(>fc........ ) notes.txt"; "(>fc........ ) photo.jpg"],
                   world o, trace o)) by (vm_compute; reflexivity).
  split; [exact E|]. split; [|vm_compute; reflexivity].
  destruct (modified_warning_counts_lines scripted_os [] "/data/src"
              "/mnt/backup" None _ _ _ _ E) as (report & _ & _ & _ & R).
  exact R.
Defined.

(** X6. When the Integrity Verifier completes, the warning is logged
    exactly when the conflict report it wrote is not empty, once, and
    its count is the number of lines of that report. *)
Theorem bitrot_warning_counts_report_lines {World : Type} (os : OS World)
    (lg : Logger) (src dest : Path) (modified : list string)
    (conflict_file : option Path) (w w' : World) (t : list Event) :
  _verify_integrity os lg src dest modified conflict_file w = (Ok tt, w', t) ->
  exists report,
    files_written t =
      [(log_path conflicts_log conflict_file src, report);
       (log_path conflicts_log conflict_file dest, report)] /\
    records_at WARNING t =
      match py_splitlines report with
      | [] => []
      | _ :: _ => [("Found %d files that have bitrot",
                    [AInt (length (py_splitlines report))])]
      end.
Proof.
  intros H.
  destruct (verify_integrity_records os _ _ _ _ _ _ _ _ H)
    as (out & items & Hitems & _ & Hfiles & Hrec).
  exists (py_join LF items). split; [done|].
  rewrite (report_lines modified (py_splitlines out) items);
    [|apply py_splitlines_no_linebreak|done].
  by rewrite Hrec, notes_at_warn_bitrot.
Qed.

(** The theorem at work: one conflict. *)
Lemma bitrot_warning_example :
  let o := _verify_integrity scripted_os [] "/data/src" "/mnt/backup"
             ["(>f.st...... ) notes.txt"] None
             (demo_world [(0%Z, checksum_listing)]) in
  o = (Ok tt, world o, trace o) /\
  exists report,
    files_written (trace o) =
      [(conflicts_log "/data/src", report);
       (conflicts_log "/mnt/backup", report)] /\
    records_at WARNING (trace o) =
      match py_splitlines report with
      | [] => []
      | _ :: _ => [("Found %d files that have bitrot",
                    [AInt (length (py_splitlines report))])]
      end.
Proof.
  intros o.
  assert (E : o = (Ok tt, world o, trace o)) by (vm_compute; reflexivity).
  split; [exact E|].
  exact (bitrot_warning_counts_report_lines scripted_os [] "/data/src"
           "/mnt/backup" ["(>f.st...... ) notes.txt"] None _ _ _ E).
Defined.

(** X7. With an empty modified list, the Integrity Verifier reports
    every line of the checksum pass: the conflict report is the lines of
    the listing joined by line feeds. *)
Theorem empty_modified_list_reports_everything {World : Type} (os : OS World)
    (lg : Logger) (src dest : Path) (conflict_file : option Path)
    (w w' : World) (t : list Event) :
  _verify_integrity os lg src dest [] conflict_file w = (Ok tt, w', t) ->
  exists out,
    processes_run t = [(rsync_command ["-c"] src dest true, 0%Z, out)] /\
    files_written t =
      [(log_path conflicts_log conflict_file src,
        py_join LF (py_splitlines out));
       (log_path conflicts_log conflict_file dest,
        py_join LF (py_splitlines out))].
Proof.
  intros H.
  destruct (verify_integrity_records os _ _ _ _ _ _ _ _ H)
    as (out & items & Hitems & Hrun & Hfiles & _).
  apply conflicting_items_ok in Hitems as [Hitems _].
  exists out. split; [done|]. rewrite Hfiles, Hitems.
  rewrite filter_all; [done|]. apply Forall_forall. intros c _.
  rewrite fmap_nil. apply not_elem_of_nil.
Qed.

(** The theorem at work: the report is the listing without its last
    line feed. *)
Lemma empty_modified_list_example :
  let o := _verify_integrity scripted_os [] "/data/src" "/mnt/backup" [] None
             (demo_world [(0%Z, checksum_listing)]) in
  o = (Ok tt, world o, trace o) /\
  files_written (trace o) =
    [(conflicts_log "/data/src",
      "(>fc........ ) notes.txt" +:+ LF +:+ "(>fc........ ) photo.jpg");
     (conflicts_log "/mnt/backup",
      "(>fc........ ) notes.txt" +:+ LF +:+ "(>fc........ ) photo.jpg")].
Proof.
  intros o.
  assert (E : o = (Ok tt, world o, trace o)) by (vm_compute; reflexivity).
  split; [exact E|].
  destruct (empty_modified_list_reports_everything scripted_os []
              "/data/src" "/mnt/backup" None _ _ _ E) as (out & R & F).
  assert (P : processes_run (trace o)
              = [(rsync_command ["-c"] "/data/src" "/mnt/backup" true, 0%Z,
                  checksum_listing)]) by (vm_compute; reflexivity).
  rewrite P in R. injection R as <-. exact F.
Defined.

(** ** Listings as the tool prints them *)

Lemma no_linebreak_output_line (code path : string) :
  no_linebreak code = true -> no_linebreak path = true ->
  no_linebreak (output_line code path) = true.
Proof.
  intros Hc Hp. unfold output_line. by rewrite !no_linebreak_append, Hc, Hp.
Qed.

Lemma splitlines_listing_text (items : list (string * string)) :
  Forall plain_item items ->
  py_splitlines (listing_text items) = (fun i => output_line i.1 i.2) <$> items.
Proof.
  unfold py_splitlines.
  induction 1 as [|[code path] items (Hc & _ & Hp) _ IH]; [done|].
  cbn [listing_text fmap list_fmap fst snd] in *.
  rewrite splitlines_from_text by by apply no_linebreak_output_line.
  by rewrite splitlines_from_LF, append_empty_l, IH.
Qed.

Lemma stripped_paths_of_listing (items : list (string * string)) (p : string) :
  Forall plain_item items ->
  Ok p ∈ _strip_action_prefix <$> ((fun i => output_line i.1 i.2) <$> items)
  <-> p ∈ items.*2.
Proof.
  intros Hplain. rewrite Forall_forall in Hplain.
  rewrite <- list_fmap_compose, !list_elem_of_fmap. split.
  - intros (i & E & Hi). exists i. split; [|done].
    destruct (Hplain _ Hi) as (_ & Hc & _). cbn in E.
    rewrite (strip_output_line _ _ Hc) in E. congruence.
  - intros (i & -> & Hi). exists i. split; [|done].
    destruct (Hplain _ Hi) as (_ & Hc & _). cbn.
    by rewrite (strip_output_line _ _ Hc).
Qed.

(** X8. On listings as the tool prints them (one line ["(code) path"]
    and a line feed for each item, no line boundary in codes and paths,
    no closing parenthesis in codes), splitting gives back exactly the
    output lines, the classification never fails, and the conflict list
    is the lines of the checksum pass whose path the quick pass did not
    list. *)
Theorem tool_listings_are_classified (quick checksum : list (string * string)) :
  Forall plain_item (quick ++ checksum) ->
  py_splitlines (listing_text checksum)
  = (fun i => output_line i.1 i.2) <$> checksum /\
  conflicting_items (py_splitlines (listing_text quick))
    (py_splitlines (listing_text checksum))
  = Ok ((fun i => output_line i.1 i.2)
          <$> filter (fun i => i.2 ∉ quick.*2) checksum).
Proof.
  intros [Hq Hc]%Forall_app.
  rewrite !splitlines_listing_text by done. split; [done|].
  destruct (conflicting_items_total
              ((fun i => output_line i.1 i.2) <$> quick)
              ((fun i => output_line i.1 i.2) <$> checksum)) as [items H].
  { rewrite <- fmap_app. apply Forall_fmap, Forall_forall. intros i _.
    eexists. apply output_line_occurs. }
  rewrite H. f_equal. apply conflicting_items_ok in H as [-> _].
  rewrite filter_fmap_comm. f_equal. apply filter_iff_in. intros i Hi.
  rewrite Forall_forall in Hc. destruct (Hc _ Hi) as (_ & Hcode & _).
  rewrite (strip_output_line _ _ Hcode).
  by rewrite (stripped_paths_of_listing quick i.2 Hq).
Qed.

(** The theorem at work on the two listings of the examples. *)
Lemma tool_listings_example :
  let quick := [(">f.st...... ", "notes.txt")] in
  let checksum := [(">fc........ ", "notes.txt"); (">fc........ ", "photo.jpg")] in
  Forall plain_item (quick ++ checksum) /\
  listing_text checksum = checksum_listing /\
  conflicting_items (py_splitlines (listing_text quick))
    (py_splitlines (listing_text checksum))
  = Ok ((fun i => output_line i.1 i.2)
          <$> filter (fun i => i.2 ∉ quick.*2) checksum).
Proof.
  intros quick checksum.
  assert (P : Forall plain_item (quick ++ checksum))
    by (repeat constructor).
  split; [exact P|]. split; [reflexivity|].
  exact (proj2 (tool_listings_are_classified quick checksum P)).
Defined.

Lemma is_lf_linebreak (c : ascii) : is_lf c = true -> is_linebreak c = true.
Proof.
  unfold is_lf, is_linebreak. intros H%Nat.eqb_eq. by rewrite H.
Qed.

(** X9. A line boundary inside a path breaks the classification: the
    lines are taken with [splitlines], which also cuts at a carriage
    return, a vertical tab, a form feed, a file, group or record
    separator and a next-line character, so the rest of the path becomes
    a line of its own, and when that rest holds no [") "] the conflict
    list is not computed: [ValueError] is raised. *)
Theorem line_boundary_in_path_raises (code before after rest : string)
    (boundary : ascii) (modified : list string) :
  no_linebreak code = true ->
  no_linebreak before = true ->
  is_linebreak boundary = true ->
  no_linebreak after = true ->
  after <> "" ->
  ~ occurs ") " after ->
  let path := before +:+ String boundary after in
  let listing := output_line code path +:+ LF +:+ rest in
  py_splitlines listing
  = output_line code before :: after :: py_splitlines rest /\
  conflicting_items modified (py_splitlines listing)
  = Raise (ValueError "substring not found").
Proof.
  intros Hcode Hbefore Hb Hafter Hne Hbad path listing.
  assert (py_splitlines listing
          = output_line code before :: after :: py_splitlines rest) as E.
  { subst listing path. unfold py_splitlines.
    assert (output_line code (before +:+ String boundary after) +:+ LF +:+ rest
            = output_line code before
                +:+ String boundary (after +:+ LF +:+ rest)) as ->.
    { unfold output_line. by rewrite !append_assoc. }
    rewrite splitlines_from_text by by apply no_linebreak_output_line.
    rewrite append_empty_l. cbn [splitlines_from]. rewrite Hb.
    destruct after as [|c after]; [done|]. rewrite append_String.
    simpl in Hafter. apply andb_true_iff in Hafter as [Hc Hafter].
    apply negb_true_iff in Hc.
    assert (is_lf c = false) as ->.
    { destruct (is_lf c) eqn:L; [|done]. apply is_lf_linebreak in L.
      congruence. }
    rewrite andb_false_r. f_equal.
    change (String c (after +:+ LF +:+ rest))
      with (String c after +:+ LF +:+ rest).
    rewrite splitlines_from_text.
    - by rewrite splitlines_from_LF, append_empty_l.
    - simpl. by rewrite Hc, Hafter. }
  split; [done|]. rewrite E.
  apply (conflicting_items_malformed _ _ after); [|done].
  apply elem_of_app. right. right. by left.
Qed.

(** The theorem at work: a form feed in a file name. *)
Lemma line_boundary_example :
  let form_feed := ascii_of_nat 12 in
  let listing :=
    output_line ">f+++++++++" ("a" +:+ String form_feed "b.txt") +:+ LF +:+ "" in
  ~ occurs ") " "b.txt" /\
  py_splitlines listing = ["(>f+++++++++) a"; "b.txt"] /\
  conflicting_items [] (py_splitlines listing)
  = Raise (ValueError "substring not found").
Proof.
  intros form_feed listing.
  assert (B : ~ occurs ") " "b.txt") by (apply index0_None; reflexivity).
  split; [exact B|].
  exact (line_boundary_in_path_raises ">f+++++++++" "a" "b.txt" "" form_feed []
           eq_refl eq_refl eq_refl eq_refl ltac:(discriminate) B).
Defined.

(** ** The log of the Sync Invoker *)

Lemma notes_at_debug_announce (cmd : list string) :
  notes_at DEBUG (announce cmd)
  = [("Running rsync: %s", [AStr (py_join " " cmd)])].
Proof. done. Qed.

Lemma notes_at_debug_echo (out : string) :
  notes_at DEBUG (echo out) = if str_truthy out then [(out, [])] else [].
Proof. by destruct out. Qed.

Lemma notes_at_critical_announce (cmd : list string) :
  notes_at CRITICAL (announce cmd) = [].
Proof. done. Qed.

Lemma notes_at_critical_echo (out : string) :
  notes_at CRITICAL (echo out) = [].
Proof. by destruct out. Qed.

Lemma notes_at_abort_note (p : Path) :
  notes_at WARNING (abort_note p) = [] /\
  notes_at DEBUG (abort_note p) = [] /\
  notes_at CRITICAL (abort_note p)
  = [("Path `%s` is not a directory", [AStr p])].
Proof. done. Qed.

(** X10. What the Sync Invoker logs.  It never warns.  When the source
    or the destination is not a directory, the one record is the
    critical one that names the path, the source first: no command is
    logged, the tool is not run and [ValueError] is raised.  When both
    are directories, no critical record is logged and the first record
    is the command, at level DEBUG.  And whenever the tool has been run,
    it has been run once, with that command, logged before the run; its
    output is logged after the run, as it is, when the tool ends with
    status 0 and has printed something, and is not logged when the tool
    fails, the failure being raised as [CalledProcessError]. *)
Theorem sync_invoker_log_records {World : Type} (os : OS World) (lg : Logger)
    (args : list string) (src dest : Path) (dry_run : bool) (w : World) :
  let o := _run_rsync os lg args src dest dry_run w in
  let cmd := rsync_command args src dest dry_run in
  let announced := ("Running rsync: %s", [AStr (py_join " " cmd)]) in
  records_at WARNING (trace o) = [] /\
  (is_dir os src w = false \/ is_dir os dest w = false ->
   let bad := if is_dir os src w then dest else src in
   records_at DEBUG (trace o) = [] /\
   records_at CRITICAL (trace o)
   = [("Path `%s` is not a directory", [AStr bad])] /\
   processes_run (trace o) = [] /\
   result o = Raise (ValueError (not_a_directory bad))) /\
  (is_dir os src w = true -> is_dir os dest w = true ->
   records_at CRITICAL (trace o) = [] /\
   exists rest, records_at DEBUG (trace o) = announced :: rest) /\
  (forall c rc out,
     (c, rc, out) ∈ processes_run (trace o) ->
     c = cmd /\ processes_run (trace o) = [(cmd, rc, out)] /\
     (exists pre post,
        trace o = pre ++ ERun cmd rc out :: post /\
        records_at DEBUG pre = [announced] /\
        records_at DEBUG post
        = if Z.eqb rc 0 && str_truthy out then [(out, [])] else []) /\
     result o = if Z.eqb rc 0 then Ok out
                else Raise (CalledProcessError rc cmd)).
Proof.
  intros o cmd announced. subst cmd announced.
  pose proof (_run_rsync_step os lg args src dest dry_run w) as V.
  fold o in V. destruct o as [[r w'] t].
  unfold result, trace; cbn [fst snd].
  destruct (notes_at_abort_note src) as (As1 & As2 & As3).
  destruct (notes_at_abort_note dest) as (Ad1 & Ad2 & Ad3).
  invert_steps;
    repeat match goal with H : is_dir _ _ _ = _ |- _ => rewrite H end;
    read_records;
    rewrite ?As1, ?As2, ?As3, ?Ad1, ?Ad2, ?Ad3, ?notes_at_warning_announce,
      ?notes_at_warning_echo, ?notes_at_debug_announce, ?notes_at_debug_echo,
      ?notes_at_critical_announce, ?notes_at_critical_echo;
    cbn [app]; (split; [done|]).
  - split; [done|]. split; [by intros [=]|]. by intros c rc out ?%elem_of_nil.
  - split; [done|]. split; [by intros _ [=]|].
    by intros c rc out ?%elem_of_nil.
  - split; [by intros [[=]|[=]]|]. split; [intros _ _; split; eauto|].
    intros c rc' out' [= -> -> ->]%list_elem_of_singleton.
    split; [done|]. split; [done|]. split.
    + exists (says_trace lg (announce (rsync_command args src dest dry_run))), [].
      split; [done|]. rewrite records_at_says, notes_at_debug_announce.
      split; [done|].
      match goal with H : _ <> 0%Z |- _ => apply Z.eqb_neq in H; by rewrite H end.
    + match goal with H : _ <> 0%Z |- _ => apply Z.eqb_neq in H; by rewrite H end.
  - split; [by intros [[=]|[=]]|]. split; [intros _ _; split; eauto|].
    intros c rc' out' [= -> -> ->]%list_elem_of_singleton.
    split; [done|]. split; [done|]. split; [|done].
    exists (says_trace lg (announce (rsync_command args src dest dry_run))),
      (says_trace lg (echo out)).
    split; [done|]. rewrite !records_at_says, notes_at_debug_announce.
    split; [done|]. by rewrite notes_at_debug_echo.
Qed.

(** The theorem at work: the tool ends with status 23 after printing a
    line, which is not logged. *)
Lemma sync_invoker_log_example :
  let o := _run_rsync scripted_os [] [] "/data/src" "/mnt/backup" false
             (demo_world [(23%Z, "(>f+++++++++ ) a.txt")]) in
  let cmd := rsync_command [] "/data/src" "/mnt/backup" false in
  (cmd, 23%Z, "(>f+++++++++ ) a.txt") ∈ processes_run (trace o) /\
  records_at DEBUG (trace o)
  = [("Running rsync: %s", [AStr (py_join " " cmd)])] /\
  result o = Raise (CalledProcessError 23 cmd).
Proof.
  intros o cmd.
  assert (P : (cmd, 23%Z, "(>f+++++++++ ) a.txt") ∈ processes_run (trace o))
    by (vm_compute; left).
  split; [exact P|]. split; [vm_compute; reflexivity|].
  destruct (sync_invoker_log_records scripted_os [] [] "/data/src"
              "/mnt/backup" false
              (demo_world [(23%Z, "(>f+++++++++ ) a.txt")]))
    as (_ & _ & _ & R).
  destruct (R _ _ _ P) as (_ & _ & _ & Q). exact Q.
Defined.

(** ** Files the system refuses to open *)

Lemma elem_of_handlers_refused (f : Path) (t : list Event) :
  EAddHandlerFailed f ∈ t -> f ∈ handlers_refused t.
Proof.
  induction t as [|e t IH]; [by intros ?%elem_of_nil|].
  intros [<-|H]%elem_of_cons; [by left|].
  destruct e; cbn [handlers_refused]; auto. right. auto.
Qed.

(** A trace whose only refused report is its last event. *)
Lemma refused_last (t pre0 : list Event) (f0 : Path) :
  t = pre0 ++ [EWriteFailed f0] ->
  writes_refused pre0 = [] ->
  forall pre f post,
    t = pre ++ EWriteFailed f :: post -> post = [] /\ f = f0.
Proof.
  intros -> Hclean pre f post E.
  destruct (decide (post = [])) as [->|Hne].
  - apply app_inj_tail in E as [_ [= ->]]. done.
  - destruct (exists_last Hne) as (post' & z & ->).
    change (pre ++ EWriteFailed f :: post' ++ [z])
      with (pre ++ (EWriteFailed f :: post') ++ [z]) in E.
    rewrite app_assoc in E. apply app_inj_tail in E as [-> _].
    rewrite writes_refused_app in Hclean. cbn [writes_refused] in Hclean.
    by apply app_eq_nil in Hclean as [_ ?].
Qed.

Section Refusals.
Context {World : Type} (os : OS World).

Lemma main_step_refused_write src dest dry_run force logfile conflict_file
    modified_file verify_integrity w r w' t :
  main_step os src dest dry_run force logfile conflict_file modified_file
    verify_integrity w (r, w', t) ->
  writes_refused t = [] \/
  exists pre f,
    t = pre ++ [EWriteFailed f] /\ writes_refused pre = [] /\
    r = Raise (OSError f).
Proof.
  intros H. invert_steps;
    first
      [ left; by read_refusals
      | right; eexists _, _; split; [|split; [|reflexivity]];
        [ rewrite ?app_assoc; first
            [ reflexivity
            | match goal with
              | |- context [[EWrite ?p ?c; EWriteFailed ?q]] =>
                  change [EWrite p c; EWriteFailed q]
                    with ([EWrite p c] ++ [EWriteFailed q])
              end; rewrite ?app_assoc; reflexivity ]
        | by read_refusals ] ].
Qed.

Lemma main_step_refused_handler src dest dry_run force logfile conflict_file
    modified_file verify_integrity w r w' t :
  main_step os src dest dry_run force logfile conflict_file modified_file
    verify_integrity w (r, w', t) ->
  (handlers_refused t = [] /\ exists lg w0, logging_ready os logfile w lg w0) \/
  exists f,
    logfile = Some f /\ append_text os f "" w = None /\
    (r, w', t) = (Raise (OSError (abspath os f w)), w,
                  [EBasicConfig; EAddHandlerFailed f]).
Proof.
  intros H. invert_step H; [right; by eexists|..];
    left; (split; [|by eexists _, _]); invert_steps; by read_refusals.
Qed.
End Refusals.

(** X11. A report that cannot be opened ends the run.  The refused
    opening is the last thing that happens: the other place of the
    report is not tried, no further step is run, [main] ends with
    [OSError] for that file and the process with status 1.  The file is
    one of the four places of the reports. *)
Theorem refused_report_ends_run {World : Type} (os : OS World)
    (src dest : Path) (dry_run force : bool)
    (logfile conflict_file modified_file : option Path)
    (verify_integrity : bool) (w : World) :
  let o := main os src dest dry_run force logfile conflict_file modified_file
             verify_integrity w in
  forall pre f post,
    trace o = pre ++ EWriteFailed f :: post ->
    post = [] /\ result o = Raise (OSError f) /\
    exit_status (result o) = 1%Z /\
    f ∈ [log_path modified_log modified_file src;
         log_path modified_log modified_file dest;
         log_path conflicts_log conflict_file src;
         log_path conflicts_log conflict_file dest].
Proof.
  intros o pre f post E.
  pose proof (main_main_step os src dest dry_run force logfile conflict_file
                modified_file verify_integrity w) as V.
  fold o in V. destruct o as [[r w'] t].
  unfold result, trace in *; cbn [fst snd] in *.
  assert (f ∈ [log_path modified_log modified_file src;
               log_path modified_log modified_file dest;
               log_path conflicts_log conflict_file src;
               log_path conflicts_log conflict_file dest]) as Hf.
  { apply (main_step_files os) in V as [Ho _]. rewrite E in Ho.
    rewrite files_opened_app in Ho. cbn [files_opened] in Ho.
    apply Forall_app in Ho as [_ Ho]. apply Forall_cons in Ho as [Ho _].
    rewrite !elem_of_cons. tauto. }
  destruct (main_step_refused_write os _ _ _ _ _ _ _ _ _ _ _ _ V)
    as [Hnone|(pre0 & f0 & Ht & Hclean & ->)].
  - rewrite E, writes_refused_app in Hnone. cbn [writes_refused] in Hnone.
    by apply app_eq_nil in Hnone as [_ ?].
  - destruct (refused_last t pre0 f0 Ht Hclean pre f post E) as [-> ->].
    done.
Qed.

(** The theorem at work: the report of the destination is read-only;
    the one of the source has been written. *)
Lemma refused_report_example :
  let w := {| directories := ["/data/src"; "/mnt/backup"];
              read_only := ["/mnt/backup/easy-rsync_modified.txt"];
              replies := [(0%Z, ""); (0%Z, quick_listing)]; files := [] |} in
  let o := main scripted_os "/data/src" "/mnt/backup" false false None None
             None false w in
  exists pre,
    trace o = pre ++ EWriteFailed "/mnt/backup/easy-rsync_modified.txt" :: [] /\
    EWrite "/data/src/easy-rsync_modified.txt" quick_listing ∈ pre /\
    result o = Raise (OSError "/mnt/backup/easy-rsync_modified.txt") /\
    exit_status (result o) = 1%Z.
Proof.
  intros w o.
  exists [EBasicConfig;
          ELog DEBUG "Running rsync: %s"
            [AStr (py_join " " (rsync_command ["--ignore-existing"]
                                  "/data/src" "/mnt/backup" false))];
          ERun (rsync_command ["--ignore-existing"] "/data/src" "/mnt/backup"
                  false) 0 "";
          ELog DEBUG "Running rsync: %s"
            [AStr (py_join " " (rsync_command [] "/data/src" "/mnt/backup"
                                  true))];
          ERun (rsync_command [] "/data/src" "/mnt/backup" true) 0
            quick_listing;
          ELog DEBUG quick_listing [];
          ELog WARNING "Found %d files that have been modified" [AInt 1];
          EWrite "/data/src/easy-rsync_modified.txt" quick_listing].
  match goal with |- ?T = ?P ++ _ :: _ /\ _ =>
    assert (E : T = P ++ EWriteFailed "/mnt/backup/easy-rsync_modified.txt"
                         :: []) by (vm_compute; reflexivity)
  end.
  split; [exact E|]. split; [do 7 right; left|].
  destruct (refused_report_ends_run scripted_os "/data/src" "/mnt/backup"
              false false None None None false w _ _ _ E) as (_ & R & S & _).
  split; [exact R|exact S].
Defined.

(** X12. A log file that cannot be opened stops the run before it has
    done anything: no path is examined, the tool is not run, no report
    is opened, the world is as it was, and [main] ends with [OSError]
    for the log file, under its absolute name.  This is the only way the
    opening of a log file is refused: of the file of [--logfile], at the
    start. *)
Theorem refused_log_file_stops_run {World : Type} (os : OS World)
    (src dest : Path) (dry_run force : bool)
    (logfile conflict_file modified_file : option Path)
    (verify_integrity : bool) (w : World) (f : Path) :
  let o := main os src dest dry_run force logfile conflict_file modified_file
             verify_integrity w in
  (logfile = Some f -> append_text os f "" w = None ->
   o = (Raise (OSError (abspath os f w)), w,
        [EBasicConfig; EAddHandlerFailed f])) /\
  (EAddHandlerFailed f ∈ trace o ->
   logfile = Some f /\ append_text os f "" w = None).
Proof.
  intros o.
  pose proof (main_main_step os src dest dry_run force logfile conflict_file
                modified_file verify_integrity w) as V.
  fold o in V. destruct o as [[r w'] t]. unfold trace; cbn [snd].
  destruct (main_step_refused_handler os _ _ _ _ _ _ _ _ _ _ _ _ V)
    as [[Hnone (lg & w0 & Hready)]|(g & Hg & Hrefused & Heq)]; split.
  - intros -> Hopen. destruct Hready as [_ Hready]. congruence.
  - intros Hin%elem_of_handlers_refused. rewrite Hnone in Hin.
    by apply elem_of_nil in Hin.
  - intros Hf Hopen. congruence.
  - injection Heq as -> -> ->.
    rewrite !elem_of_cons, elem_of_nil. intros [?|[[= ->]|[]]]; done.
Qed.

(** The theorem at work: a log file, given by a relative name, that is
    read-only; the error carries the absolute name. *)
Lemma refused_log_file_example :
  let w := {| directories := ["/data/src"; "/mnt/backup"];
              read_only := ["sync.log"];
              replies := [(0%Z, quick_listing)]; files := [] |} in
  append_text scripted_os "sync.log" "" w = None /\
  abspath scripted_os "sync.log" w = "/sync.log" /\
  main scripted_os "/data/src" "/mnt/backup" false false
    (Some "sync.log") None None false w
  = (Raise (OSError (abspath scripted_os "sync.log" w)), w,
     [EBasicConfig; EAddHandlerFailed "sync.log"]).
Proof.
  intros w.
  assert (N : append_text scripted_os "sync.log" "" w = None) by reflexivity.
  split; [exact N|]. split; [reflexivity|].
  exact (proj1 (refused_log_file_stops_run scripted_os "/data/src"
                  "/mnt/backup" false false (Some "sync.log") None
                  None false w "sync.log") eq_refl N).
Defined.

(** ** The log file *)

Section Transcript.
Context {World : Type} (os : OS World).

Lemma main_step_transcript src dest dry_run force f conflict_file
    modified_file verify_integrity w r w' t :
  main_step os src dest dry_run force (Some f) conflict_file modified_file
    verify_integrity w (r, w', t) ->
  appended_to f t = logged_text t.
Proof.
  intros H. invert_steps; try done;
    match goal with H : logging_ready _ _ _ _ _ |- _ => destruct H as [-> _] end;
    repeat (rewrite ?appended_to_app, ?logged_text_app, ?appended_to_says,
              ?appended_to_setup, ?logged_text_setup;
            cbn [appended_to logged_text]);
    done.
Qed.
End Transcript.

(** X13. With [--logfile], the log file is the transcript of the run:
    what its handler is given is, in order, the message of every record
    of the run followed by a line feed, and nothing else; and no other
    file is appended to. *)
Theorem log_file_is_the_transcript {World : Type} (os : OS World)
    (src dest : Path) (dry_run force : bool) (f : Path)
    (conflict_file modified_file : option Path)
    (verify_integrity : bool) (w : World) :
  let o := main os src dest dry_run force (Some f) conflict_file
             modified_file verify_integrity w in
  appended_to f (trace o) = logged_text (trace o) /\
  Forall (eq f) (files_appended (trace o)).
Proof.
  intros o.
  pose proof (main_main_step os src dest dry_run force (Some f) conflict_file
                modified_file verify_integrity w) as V.
  fold o in V. destruct o as [[r w'] t]. unfold trace; cbn [snd]. split.
  - by eapply main_step_transcript.
  - apply (main_step_files os) in V as [_ Ha].
    eapply Forall_impl; [exact Ha|]. by intros p [= ->].
Qed.

(** ** The options of the commands *)

(** An argument of a command that does not end with the separator is
    not one of the two paths. *)
Lemma rsync_command_options (x : string) (args : list string)
    (src dest : Path) (dry_run : bool) :
  x ∈ rsync_command args src dest dry_run ->
  ends_with_sep x = false ->
  x ∈ ("rsync" :: _RSYNC_FLAGS) ++ args
        ++ (if dry_run then ["--dry-run"] else []).
Proof.
  unfold rsync_command. rewrite !elem_of_app, !elem_of_cons, elem_of_nil.
  intros [H|[H|[H|[->|[->|[]]]]]] Hsep; auto;
    by rewrite ends_with_sep_append in Hsep.
Qed.

Ltac refute_option H :=
  apply rsync_command_options in H; [|reflexivity];
  unfold _RSYNC_FLAGS in H;
  rewrite !elem_of_app, !elem_of_cons, !elem_of_nil in H;
  intuition discriminate.

Lemma first_command_dry (src dest : Path) (dry_run force verify : bool) :
  "--dry-run" ∈ first_command src dest dry_run force verify
  <-> dry_run = true \/ verify = true.
Proof.
  unfold first_command, _RSYNC_FLAGS.
  destruct verify, dry_run; split; intros H; auto;
    try apply rsync_command_dry;
    try (destruct H; discriminate).
  exfalso. destruct force; refute_option H.
Qed.

Lemma second_command_dry (src dest : Path) (verify : bool) :
  "--dry-run" ∈ second_command src dest verify.
Proof. unfold second_command. destruct verify; apply rsync_command_dry. Qed.

Lemma sync_commands_no_checksum (src dest : Path) (dry_run force : bool) :
  ("-c" ∉ first_command src dest dry_run force false) /\
  ("-c" ∉ second_command src dest false).
Proof.
  unfold first_command, second_command, _RSYNC_FLAGS.
  split; intros H; destruct dry_run, force; refute_option H.
Qed.

Lemma Forall_prefix {A} (P : A -> Prop) (l1 l2 : list A) :
  l1 `prefix_of` l2 -> Forall P l2 -> Forall P l1.
Proof. intros [k ->] H. by apply Forall_app in H as [? _]. Qed.

(** The form of a command: the tool, the fixed flags, options among
    three, the two paths. *)
Lemma rsync_command_form (args : list string) (src dest : Path) (dry_run : bool) :
  Forall (fun x => x ∈ ["--ignore-existing"; "-c"; "--dry-run"]) args ->
  exists options,
    rsync_command args src dest dry_run
    = ["rsync"; "-rptgo"; "-i"; "--out-format=(%i) %n"] ++ options
        ++ [src +:+ "/"; dest +:+ "/"] /\
    Forall (fun x => x ∈ ["--ignore-existing"; "-c"; "--dry-run"]) options.
Proof.
  intros Hargs. exists (args ++ (if dry_run then ["--dry-run"] else [])).
  split; [unfold rsync_command; by rewrite <- !app_assoc|].
  apply Forall_app. split; [done|].
  destruct dry_run; repeat constructor.
Qed.

Section WholeRuns.
Context {World : Type} (os : OS World).

Lemma main_step_sync_files src dest dry_run force logfile conflict_file
    modified_file w r w' t :
  main_step os src dest dry_run force logfile conflict_file modified_file
    false w (r, w', t) ->
  Forall (fun p => p = log_path modified_log modified_file src
                   \/ p = log_path modified_log modified_file dest)
    (files_opened t).
Proof.
  intros H. invert_step H.
  { cbn [files_opened]. constructor. }
  all: repeat match goal with
       | H : rsync_step _ _ _ _ _ _ _ _ |- _ =>
           apply rsync_step_files in H as [? _]
       | H : check_step _ _ _ _ _ _ _ |- _ =>
           apply check_step_files in H as [? _]
       end.
  all: read_trace.
  all: repeat match goal with H : _ = [] |- _ => rewrite H end.
  all: cbn [app]; try constructor; done.
Qed.

Lemma main_step_replay_dry src dest force logfile conflict_file
    modified_file verify_integrity w r w' t :
  dry_run_harmless os ->
  main_step os src dest true force logfile conflict_file modified_file
    verify_integrity w (r, w', t) ->
  replay_files os t w = w'.
Proof.
  intros D H. destruct verify_integrity; [by eapply main_step_replay|].
  invert_step H; [done|..];
    rewrite !replay_files_app;
    match goal with H : logging_ready _ _ _ _ _ |- _ =>
      rewrite (setup_replay _ _ _ _ _ H) end.
  - by eapply rsync_step_replay.
  - match goal with Hc : rsync_step _ _ _ _ _ _ _ _ |- _ =>
      rewrite (rsync_step_replay _ _ _ _ _ _ _ _ _ D Hc) end.
    by eapply check_step_replay.
  - match goal with Hc : rsync_step _ _ _ _ _ _ _ _ |- _ =>
      rewrite (rsync_step_replay _ _ _ _ _ _ _ _ _ D Hc) end.
    by eapply check_step_replay.
Qed.

Lemma main_step_completes src dest dry_run force logfile conflict_file
    modified_file verify_integrity w r w' t :
  (forall w0, is_dir os src w0 = true /\ is_dir os dest w0 = true) ->
  (forall cmd w0, (subprocess_run os cmd w0).1.1 = 0%Z) ->
  (verify_integrity = true ->
   forall cmd w0,
     Forall (occurs ") ") (py_splitlines (subprocess_run os cmd w0).1.2)) ->
  (forall p c w0, is_Some (write_text os p c w0)) ->
  (forall f, logfile = Some f -> is_Some (append_text os f "" w)) ->
  main_step os src dest dry_run force logfile conflict_file modified_file
    verify_integrity w (r, w', t) ->
  r = Ok 0%Z.
Proof.
  intros Hdir Hrc Hwf Hwrite Hopen H.
  invert_steps; try done; exfalso;
    repeat match goal with
    | H : is_dir os _ ?w0 = false |- _ =>
        destruct (Hdir w0) as [? ?]; congruence
    | H : write_text os ?p ?c ?w0 = None |- _ =>
        destruct (Hwrite p c w0) as [? ?]; congruence
    | H : append_text os ?f "" _ = None |- _ =>
        destruct (Hopen f eq_refl) as [? ?]; congruence
    | H : subprocess_run os ?cmd ?w0 = (?rc, _, _), Hn : ?rc <> 0%Z |- _ =>
        pose proof (Hrc cmd w0) as E; rewrite H in E; cbn in E; congruence
    end.
  match goal with
  | H1 : subprocess_run os (rsync_command [] src dest true) ?w1 = (_, ?o1, _),
    H2 : subprocess_run os (rsync_command ["-c"] src dest true) ?w2
         = (_, ?o2, _),
    Hc : conflicting_items _ _ = Raise _ |- _ =>
      pose proof (Hwf eq_refl (rsync_command [] src dest true) w1) as F1;
      rewrite H1 in F1;
      pose proof (Hwf eq_refl (rsync_command ["-c"] src dest true) w2) as F2;
      rewrite H2 in F2;
      cbn [fst snd] in F1, F2;
      destruct (conflicting_items_total (py_splitlines o1) (py_splitlines o2))
        as [items Hitems]; [by apply Forall_app|congruence]
  end.
Qed.
End WholeRuns.

(** X14. A run with [--dry-run] propagates nothing, in either mode:
    every command it runs carries [--dry-run], and, provided the tool
    run with [--dry-run] leaves the world as it is, the world after the
    run is the world before it with the writes of the reports and the
    appends to the log file, and nothing else, applied. *)
Theorem dry_run_propagates_nothing {World : Type} (os : OS World)
    (src dest : Path) (force : bool)
    (logfile conflict_file modified_file : option Path)
    (verify_integrity : bool) (w : World) :
  let o := main os src dest true force logfile conflict_file modified_file
             verify_integrity w in
  Forall (fun cmd => "--dry-run" ∈ cmd) (commands_run (trace o)) /\
  ((forall cmd w0, "--dry-run" ∈ cmd -> (subprocess_run os cmd w0).2 = w0) ->
   world o = replay_files os (trace o) w).
Proof.
  intros o.
  pose proof (main_main_step os src dest true force logfile conflict_file
                modified_file verify_integrity w) as V.
  fold o in V. destruct o as [[r w'] t].
  unfold world, trace in *; cbn [fst snd] in *. split.
  - eapply Forall_prefix; [by eapply main_step_commands|].
    repeat constructor.
    + apply first_command_dry. by left.
    + apply second_command_dry.
  - intros D. symmetry. by eapply main_step_replay_dry.
Qed.

(** The theorem at work: a dry run of the propagation leaves the two
    modified reports and nothing else. *)
Lemma dry_run_example :
  let o := main listing_os "/data/src" "/mnt/backup" true false None None None
             false [] in
  (forall cmd w0, "--dry-run" ∈ cmd -> (subprocess_run listing_os cmd w0).2 = w0) /\
  world o = replay_files listing_os (trace o) [] /\
  world o = [(modified_log "/data/src", quick_listing);
             (modified_log "/mnt/backup", quick_listing)].
Proof.
  intros o.
  assert (D : forall cmd w0,
             "--dry-run" ∈ cmd -> (subprocess_run listing_os cmd w0).2 = w0)
    by (intros; reflexivity).
  split; [exact D|]. split; [|vm_compute; reflexivity].
  exact (proj2 (dry_run_propagates_nothing listing_os "/data/src"
                  "/mnt/backup" false None None None false []) D).
Defined.

(** X15. Only the first command of a run can propagate files: it
    carries [--dry-run] exactly when [--dry-run] or integrity
    verification is asked for, and every command after it carries
    [--dry-run] whatever the flags. *)
Theorem only_first_command_can_propagate {World : Type} (os : OS World)
    (src dest : Path) (dry_run force : bool)
    (logfile conflict_file modified_file : option Path)
    (verify_integrity : bool) (w : World) :
  match commands_run (trace (main os src dest dry_run force logfile
                               conflict_file modified_file verify_integrity w))
  with
  | [] => True
  | first :: rest =>
      ("--dry-run" ∈ first <-> dry_run = true \/ verify_integrity = true) /\
      Forall (fun cmd => "--dry-run" ∈ cmd) rest
  end.
Proof.
  pose proof (main_main_step os src dest dry_run force logfile conflict_file
                modified_file verify_integrity w) as V.
  destruct (main os src dest dry_run force logfile conflict_file modified_file
              verify_integrity w) as [[r w'] t].
  unfold trace; cbn [snd].
  apply (main_step_commands os) in V as [k Hk].
  destruct (commands_run t) as [|c1 rest]; [done|].
  injection Hk as <- Hk. split; [apply first_command_dry|].
  destruct rest as [|c2 rest]; [done|]. injection Hk as <- Hk.
  destruct rest; [|done]. repeat constructor. apply second_command_dry.
Qed.

(** X16. Without integrity verification, no command of the run carries
    the checksum flag [-c], and the only files opened for writing are
    the two places of the modified report: the conflict report and
    [--conflict-file] play no part. *)
Theorem sync_mode_never_checksums {World : Type} (os : OS World)
    (src dest : Path) (dry_run force : bool)
    (logfile conflict_file modified_file : option Path) (w : World) :
  let o := main os src dest dry_run force logfile conflict_file modified_file
             false w in
  Forall (fun cmd => "-c" ∉ cmd) (commands_run (trace o)) /\
  Forall (fun p => p = log_path modified_log modified_file src
                   \/ p = log_path modified_log modified_file dest)
    (files_opened (trace o)).
Proof.
  intros o.
  pose proof (main_main_step os src dest dry_run force logfile conflict_file
                modified_file false w) as V.
  fold o in V. destruct o as [[r w'] t]. unfold trace; cbn [snd]. split.
  - eapply Forall_prefix; [by eapply main_step_commands|].
    destruct (sync_commands_no_checksum src dest dry_run force).
    by repeat constructor.
  - by eapply main_step_sync_files.
Qed.

(** X17. Every command a run executes is the tool with the three fixed
    flags (among them the output format the classifier relies on), then
    options taken from [--ignore-existing], [-c] and [--dry-run] only,
    then the source and the destination with their separators: the tool
    is never given another option, such as one that deletes. *)
Theorem commands_carry_known_options {World : Type} (os : OS World)
    (src dest : Path) (dry_run force : bool)
    (logfile conflict_file modified_file : option Path)
    (verify_integrity : bool) (w : World) :
  Forall (fun cmd =>
            exists options,
              cmd = ["rsync"; "-rptgo"; "-i"; "--out-format=(%i) %n"]
                      ++ options ++ [src +:+ "/"; dest +:+ "/"] /\
              Forall (fun x => x ∈ ["--ignore-existing"; "-c"; "--dry-run"])
                options)
    (commands_run (trace (main os src dest dry_run force logfile conflict_file
                            modified_file verify_integrity w))).
Proof.
  pose proof (main_main_step os src dest dry_run force logfile conflict_file
                modified_file verify_integrity w) as V.
  destruct (main os src dest dry_run force logfile conflict_file modified_file
              verify_integrity w) as [[r w'] t].
  unfold trace; cbn [snd].
  eapply Forall_prefix; [by eapply main_step_commands|].
  unfold first_command, second_command.
  destruct verify_integrity, force;
    repeat (apply Forall_cons; split; [apply rsync_command_form|]);
    try apply Forall_nil_2; repeat constructor.
Qed.

(** X18. The reports are opened in a fixed order, on every run, failed
    or not: the files a run opens for writing are always an initial
    segment of the modified report at the source, the modified report at
    the destination and then, for a verification only, the conflict
    report at the source and the conflict report at the destination
    (with an override, the two places of a report are the one path). *)
Theorem reports_opened_in_order {World : Type} (os : OS World)
    (src dest : Path) (dry_run force : bool)
    (logfile conflict_file modified_file : option Path)
    (verify_integrity : bool) (w : World) :
  files_opened (trace (main os src dest dry_run force logfile conflict_file
                         modified_file verify_integrity w))
  `prefix_of`
  [log_path modified_log modified_file src;
   log_path modified_log modified_file dest]
    ++ (if verify_integrity
        then [log_path conflicts_log conflict_file src;
              log_path conflicts_log conflict_file dest]
        else []).
Proof.
  pose proof (main_main_step os src dest dry_run force logfile conflict_file
                modified_file verify_integrity w) as V.
  destruct (main os src dest dry_run force logfile conflict_file modified_file
              verify_integrity w) as [[r w'] t].
  unfold trace; cbn [snd].
  invert_steps; read_trace; try destruct verify_integrity; cbn [app];
    solve_prefix.
Qed.

(** X19. The two reports of a verification run share no path and
    cover the checksum pass: a line of the checksum pass is in the
    conflict report exactly when no line of the modified report has its
    path, and the conflict report keeps the order of the pass. *)
Theorem verification_reports_partition {World : Type} (os : OS World)
    (src dest : Path) (dry_run force : bool)
    (logfile conflict_file modified_file : option Path) (w : World) (n : Z) :
  let o := main os src dest dry_run force logfile conflict_file modified_file
             true w in
  result o = Ok n ->
  exists quick checksum items,
    processes_run (trace o) =
      [(rsync_command [] src dest true, 0%Z, quick);
       (rsync_command ["-c"] src dest true, 0%Z, checksum)] /\
    files_written (trace o) =
      [(log_path modified_log modified_file src, quick);
       (log_path modified_log modified_file dest, quick);
       (log_path conflicts_log conflict_file src, py_join LF items);
       (log_path conflicts_log conflict_file dest, py_join LF items)] /\
    items `sublist_of` py_splitlines checksum /\
    forall c, c ∈ py_splitlines checksum ->
      (c ∈ items <->
       forall m, m ∈ py_splitlines quick ->
                 _strip_action_prefix m <> _strip_action_prefix c).
Proof.
  intros o.
  pose proof (main_main_step os src dest dry_run force logfile conflict_file
                modified_file true w) as V.
  fold o in V. destruct o as [[r w'] t].
  unfold result, trace; cbn [fst snd]. intros ->.
  apply (main_step_ok os) in V as (_ & out1 & out2 & Hrun & items & Hitems & Hf).
  exists out1, out2, items. split; [done|]. split; [done|].
  apply conflicting_items_ok in Hitems as [-> _].
  split; [apply sublist_filter|]. intros c Hc.
  rewrite list_elem_of_filter, list_elem_of_fmap. split.
  - intros [Hn _] m Hm E. apply Hn. by exists m.
  - intros Hn. split; [|done]. intros (m & E & Hm). by apply (Hn m).
Qed.

(** The theorem at work: [notes.txt] in the modified report,
    [photo.jpg] in the conflict report. *)
Lemma verification_reports_example :
  let o := main scripted_os "/data/src" "/mnt/backup" false false None None
             None true
             (demo_world [(0%Z, quick_listing); (0%Z, checksum_listing)]) in
  result o = Ok 0%Z /\
  files_written (trace o) =
    [(modified_log "/data/src", quick_listing);
     (modified_log "/mnt/backup", quick_listing);
     (conflicts_log "/data/src", "(>fc........ ) photo.jpg");
     (conflicts_log "/mnt/backup", "(>fc........ ) photo.jpg")] /\
  exists quick checksum items,
    processes_run (trace o) =
      [(rsync_command [] "/data/src" "/mnt/backup" true, 0%Z, quick);
       (rsync_command ["-c"] "/data/src" "/mnt/backup" true, 0%Z, checksum)] /\
    files_written (trace o) =
      [(modified_log "/data/src", quick);
       (modified_log "/mnt/backup", quick);
       (conflicts_log "/data/src", py_join LF items);
       (conflicts_log "/mnt/backup", py_join LF items)] /\
    items `sublist_of` py_splitlines checksum /\
    forall c, c ∈ py_splitlines checksum ->
      (c ∈ items <->
       forall m, m ∈ py_splitlines quick ->
                 _strip_action_prefix m <> _strip_action_prefix c).
Proof.
  intros o.
  assert (E : result o = Ok 0%Z) by (vm_compute; reflexivity).
  split; [exact E|]. split; [vm_compute; reflexivity|].
  exact (verification_reports_partition scripted_os "/data/src" "/mnt/backup"
           false false None None None
           (demo_world [(0%Z, quick_listing); (0%Z, checksum_listing)])
           0%Z E).
Defined.

(** X20. Once the command line has been parsed and [main] is called,
    the exit status that [sys.exit(main(...))] gives the process is 0 or
    1: 0 exactly when [main] returns, which it does only with 0 and
    after two runs of the tool that both ended with status 0; 1 exactly
    when an exception leaves [main].  (The statuses of [_parse_args],
    which ends the process itself on a rejected command line or after
    [--help], are not those of a call of [main].) *)
Theorem exit_status_zero_or_one {World : Type} (os : OS World)
    (src dest : Path) (dry_run force : bool)
    (logfile conflict_file modified_file : option Path)
    (verify_integrity : bool) (w : World) :
  let o := main os src dest dry_run force logfile conflict_file modified_file
             verify_integrity w in
  let status := exit_status (result o) in
  (status = 0%Z \/ status = 1%Z) /\
  (status = 0%Z <-> result o = Ok 0%Z) /\
  (status = 1%Z <-> exists e, result o = Raise e) /\
  (status = 0%Z ->
   exists out1 out2,
     processes_run (trace o) =
       [(first_command src dest dry_run force verify_integrity, 0%Z, out1);
        (second_command src dest verify_integrity, 0%Z, out2)]).
Proof.
  intros o status. subst status.
  pose proof (main_main_step os src dest dry_run force logfile conflict_file
                modified_file verify_integrity w) as V.
  fold o in V. destruct o as [[r w'] t].
  unfold result, trace; cbn [fst snd].
  destruct r as [n|e].
  - apply (main_step_ok os) in V as (-> & out1 & out2 & Hrun & _).
    cbn. split; [by left|]. split; [done|]. split.
    + split; [done|]. by intros [e ?].
    + intros _. by exists out1, out2.
  - cbn. split; [by right|]. split; [done|]. split; [|done].
    split; [|done]. intros _. by exists e.
Qed.

(** X21. A run in which everything cooperates succeeds: when the two
    paths are directories, the tool always ends with status 0, the
    reports can be written, the log file, if any, can be opened and, for
    a verification, every line the tool prints has an action code, then
    [main] returns 0 after two runs of the tool and the exit status is
    0. *)
Theorem cooperative_run_succeeds {World : Type} (os : OS World)
    (src dest : Path) (dry_run force : bool)
    (logfile conflict_file modified_file : option Path)
    (verify_integrity : bool) (w : World) :
  (forall w0, is_dir os src w0 = true /\ is_dir os dest w0 = true) ->
  (forall cmd w0, (subprocess_run os cmd w0).1.1 = 0%Z) ->
  (verify_integrity = true ->
   forall cmd w0,
     Forall (occurs ") ") (py_splitlines (subprocess_run os cmd w0).1.2)) ->
  (forall p c w0, is_Some (write_text os p c w0)) ->
  (forall f, logfile = Some f -> is_Some (append_text os f "" w)) ->
  let o := main os src dest dry_run force logfile conflict_file modified_file
             verify_integrity w in
  result o = Ok 0%Z /\ exit_status (result o) = 0%Z /\
  length (processes_run (trace o)) = 2.
Proof.
  intros Hdir Hrc Hwf Hwrite Hopen o.
  pose proof (main_main_step os src dest dry_run force logfile conflict_file
                modified_file verify_integrity w) as V.
  fold o in V. destruct o as [[r w'] t].
  unfold result, trace; cbn [fst snd].
  pose proof (main_step_completes os _ _ _ _ _ _ _ _ _ _ _ _
                Hdir Hrc Hwf Hwrite Hopen V) as ->.
  split; [done|]. split; [done|].
  apply (main_step_ok os) in V as (_ & out1 & out2 & -> & _). done.
Qed.

Lemma listing_os_well_formed (cmd : list string) (w0 : list (Path * string)) :
  Forall (occurs ") ") (py_splitlines (subprocess_run listing_os cmd w0).1.2).
Proof.
  unfold listing_os; cbn [subprocess_run fst snd].
  destruct (mem_string "-c" cmd).
  - assert (py_splitlines checksum_listing
            = ["(>fc........ ) notes.txt"; "(>fc........ ) photo.jpg"]) as ->
      by (vm_compute; reflexivity).
    repeat (apply Forall_cons; split; [eapply strip_ok; reflexivity|]).
    apply Forall_nil_2.
  - assert (py_splitlines quick_listing = ["(>f.st...... ) notes.txt"]) as ->
      by (vm_compute; reflexivity).
    repeat (apply Forall_cons; split; [eapply strip_ok; reflexivity|]).
    apply Forall_nil_2.
Qed.

(** The theorem at work: a verification with a log file, in a world
    where every path is a directory, the tool only lists and every file
    can be written. *)
Lemma cooperative_run_example :
  let o := main listing_os "/data/src" "/mnt/backup" false false
             (Some "/tmp/run.log") None None true [] in
  (forall w0, is_dir listing_os "/data/src" w0 = true /\
              is_dir listing_os "/mnt/backup" w0 = true) /\
  (forall cmd w0, (subprocess_run listing_os cmd w0).1.1 = 0%Z) /\
  (forall cmd w0,
     Forall (occurs ") ")
       (py_splitlines (subprocess_run listing_os cmd w0).1.2)) /\
  (forall p c w0, is_Some (write_text listing_os p c w0)) /\
  is_Some (append_text listing_os "/tmp/run.log" "" []) /\
  result o = Ok 0%Z /\ exit_status (result o) = 0%Z /\
  length (processes_run (trace o)) = 2.
Proof.
  intros o.
  assert (D : forall w0, is_dir listing_os "/data/src" w0 = true /\
                         is_dir listing_os "/mnt/backup" w0 = true)
    by (intros; split; reflexivity).
  assert (R : forall cmd w0, (subprocess_run listing_os cmd w0).1.1 = 0%Z)
    by (intros; reflexivity).
  assert (W : forall p c w0, is_Some (write_text listing_os p c w0))
    by (intros; eexists; reflexivity).
  assert (A : is_Some (append_text listing_os "/tmp/run.log" "" []))
    by (eexists; reflexivity).
  split; [exact D|]. split; [exact R|].
  split; [exact listing_os_well_formed|]. split; [exact W|]. split; [exact A|].
  refine (cooperative_run_succeeds listing_os "/data/src" "/mnt/backup"
            false false (Some "/tmp/run.log") None None true []
            D R (fun _ => listing_os_well_formed) W _).
  intros f [= <-]. exact A.
Defined.
